(** * x-card-maker: the profile card generator, its count formatter and
      its CSV record, embedded from the TypeScript sources

    The development follows [src/types.ts] ([TwitterProfileData],
    [formatNumber], [toCSVRow]), [src/csvExporter.ts] ([escapeCSVField],
    [createCSVContent], [exportProfileData]) and
    [src/profileCardGenerator.ts] ([generateCard], the [draw*] methods and
    [loadAssetsFromDirectory]).

    Conventions of the embedding:
    - a JavaScript string is a [string]; the separators the code splits on
      (space, comma, line feed, double quote) are ASCII, so the byte view
      and the code-unit view of a string split and join alike;
    - counters and pixel sizes are integers ([Z]); a quotient of two
      counters is an IEEE-754 binary64 value ([spec_float] with
      [prec = 53], [emax = 1024]), as [Number] division produces it;
    - the 2D context is a record holding the font in force and the log of
      the calls made on it, in call order;
    - node-canvas, [fs-extra] and [path] are outside the repository: what
      the code relies on from them is gathered in the record [Platform]. *)

From Stdlib Require Import ZArith QArith String Ascii List Lia.
From Stdlib Require Import DecimalString DecimalZ.
From Stdlib Require Import Floats.SpecFloat.
From stdpp Require Import gmap strings list.

Local Open Scope Z_scope.

(** ** JavaScript strings *)

Module JsString.

(** [s.split(sep)] for a one-character separator: the pieces between the
    separators, never an empty array. *)
Fixpoint split (sep : ascii) (s : string) : list string :=
  match s with
  | EmptyString => [EmptyString]
  | String c rest =>
      if Ascii.eqb c sep then EmptyString :: split sep rest
      else match split sep rest with
           | piece :: pieces => String c piece :: pieces
           | [] => [String c EmptyString]
           end
  end.

(** [parts.join(sep)]. *)
Fixpoint join (sep : string) (parts : list string) : string :=
  match parts with
  | [] => EmptyString
  | [p] => p
  | p :: ps => p +:+ sep +:+ join sep ps
  end.

(** [s.includes(c)] for a one-character needle. *)
Fixpoint includes (c : ascii) (s : string) : bool :=
  match s with
  | EmptyString => false
  | String d rest => Ascii.eqb d c || includes c rest
  end.

(** [s.replace(/c/g, by)]: every occurrence of the character replaced. *)
Fixpoint replaceAll (c : ascii) (by_ : string) (s : string) : string :=
  match s with
  | EmptyString => EmptyString
  | String d rest =>
      if Ascii.eqb d c then by_ +:+ replaceAll c by_ rest
      else String d (replaceAll c by_ rest)
  end.

(** [s.toUpperCase()] on the ASCII letters. *)
Definition upper_ascii (c : ascii) : ascii :=
  let n := nat_of_ascii c in
  if ((97 <=? n) && (n <=? 122))%nat then ascii_of_nat (n - 32) else c.

Fixpoint toUpperCase (s : string) : string :=
  match s with
  | EmptyString => EmptyString
  | String c rest => String (upper_ascii c) (toUpperCase rest)
  end.

(** Truthiness of a string: only the empty string is falsy. *)
Definition truthy (s : string) : bool :=
  match s with EmptyString => false | _ => true end.

(** [v || ''] on a possibly undefined string. *)
Definition orEmpty (v : option string) : string :=
  match v with
  | Some s => s
  | None => EmptyString
  end.

Definition comma : ascii := ","%char.
Definition space : ascii := " "%char.
Definition dquote : ascii := ascii_of_nat 34.
Definition newline : ascii := ascii_of_nat 10.

End JsString.

(** ** JavaScript numbers *)

Module JsNumber.

(** [String(n)] and [n.toString()] for an integer [n] below [10^21] in
    magnitude: the decimal digits, with a leading minus sign. *)
Definition string_of_Z (z : Z) : string :=
  NilZero.string_of_int (Z.to_int z).

(** [parseInt(s)] with no radix.  [None] stands for [NaN].  Leading
    white space is skipped (the ASCII white space characters), one sign
    is read, a [0x] prefix selects radix 16, and the longest run of
    digits is converted; anything after it is ignored. *)
Definition is_white_space (c : ascii) : bool :=
  let n := nat_of_ascii c in
  ((9 <=? n) && (n <=? 13) || (n =? 32))%nat.

Fixpoint trimStart (s : string) : string :=
  match s with
  | String c rest => if is_white_space c then trimStart rest else s
  | EmptyString => EmptyString
  end.

Definition digit_value (radix : Z) (c : ascii) : option Z :=
  let n := Z.of_nat (nat_of_ascii c) in
  let v :=
    if (48 <=? n) && (n <=? 57) then Some (n - 48)
    else if (97 <=? n) && (n <=? 122) then Some (n - 87)
    else if (65 <=? n) && (n <=? 90) then Some (n - 55)
    else None in
  match v with
  | Some d => if d <? radix then Some d else None
  | None => None
  end.

Fixpoint parse_digits (radix : Z) (s : string) (acc : option Z) : option Z :=
  match s with
  | EmptyString => acc
  | String c rest =>
      match digit_value radix c with
      | Some d =>
          parse_digits radix rest
            (Some (match acc with Some a => a * radix + d | None => d end))
      | None => acc
      end
  end.

Definition parseInt (s : string) : option Z :=
  let s1 := trimStart s in
  let '(negative, s2) :=
    match s1 with
    | String "-" rest => (true, rest)
    | String "+" rest => (false, rest)
    | _ => (false, s1)
    end in
  let '(radix, s3) :=
    match s2 with
    | String "0" (String "x" rest) => (16, rest)
    | String "0" (String "X" rest) => (16, rest)
    | _ => (10, s2)
    end in
  match parse_digits radix s3 None with
  | Some v => Some (if negative then - v else v)
  | None => None
  end.

(** [parseInt(v) || 0] where [v] may be [undefined]: [NaN] and [0] both
    give [0]. *)
Definition parseIntOrZero (v : option string) : Z :=
  match v with
  | Some s => match parseInt s with Some z => z | None => 0 end
  | None => 0
  end.

(** *** binary64 quotients *)

Definition prec : Z := 53.
Definition emax : Z := 1024.

(** The binary64 value of an integer (exact below [2^53]). *)
Definition of_Z (z : Z) : spec_float := binary_normalize prec emax z 0 false.

Definition div (x y : spec_float) : spec_float := SFdiv prec emax x y.

(** *** [Number.prototype.toString] in exponent notation

    Only reached by [toFixed] for magnitudes of [10^21] and more, written
    [m * 2^e] with [0 <= e].  [s], [k] and [n] are chosen as ECMAScript
    asks: [s * 10^(n-k)] reads back as the same binary64 value, with [k]
    as small as possible, then [s] closest to the value, then [s] even. *)
Definition twice_lower (m : positive) (e : Z) : Z :=
  let X := Zpos m * 2 ^ e in
  if (Zpos m =? 2 ^ (prec - 1)) && (0 <? e) then 2 * X - 2 ^ (e - 1)
  else 2 * X - 2 ^ e.

Definition twice_upper (m : positive) (e : Z) : Z :=
  2 * (Zpos m * 2 ^ e) + 2 ^ e.

Definition reads_back (m : positive) (e : Z) (v : Z) : bool :=
  if Z.even (Zpos m)
  then (twice_lower m e <=? 2 * v) && (2 * v <=? twice_upper m e)
  else (twice_lower m e <? 2 * v) && (2 * v <? twice_upper m e).

Definition decimal_length (z : Z) : Z :=
  Z.of_nat (String.length (string_of_Z z)).

Definition normalise_digits (k : Z) (sn : Z * Z) : Z * Z :=
  let '(s, n) := sn in
  if s =? 10 ^ k then (10 ^ (k - 1), n + 1) else (s, n).

Definition shortest_at (m : positive) (e : Z) (k : Z) : option (Z * Z) :=
  let X := Zpos m * 2 ^ e in
  let n0 := decimal_length X in
  let u := 10 ^ (n0 - k) in
  let lo := X / u in
  let below := (lo, n0) in
  let above := normalise_digits k (lo + 1, n0) in
  let value (sn : Z * Z) := fst sn * 10 ^ (snd sn - k) in
  let ok_below := (10 ^ (k - 1) <=? lo) && reads_back m e (value below) in
  let ok_above := reads_back m e (value above) in
  match ok_below, ok_above with
  | true, true =>
      let d_below := X - value below in
      let d_above := value above - X in
      if d_below <? d_above then Some below
      else if d_above <? d_below then Some above
      else if Z.even (fst below) then Some below else Some above
  | true, false => Some below
  | false, true => Some above
  | false, false => None
  end.

Fixpoint shortest_from (fuel : nat) (m : positive) (e : Z) (k : Z) : Z * Z * Z :=
  match fuel with
  | O => (Zpos m * 2 ^ e, decimal_length (Zpos m * 2 ^ e), decimal_length (Zpos m * 2 ^ e))
  | S fuel' =>
      match shortest_at m e k with
      | Some (s, n) => (s, k, n)
      | None => shortest_from fuel' m e (k + 1)
      end
  end.

Definition exponent_string (negative : bool) (m : positive) (e : Z) : string :=
  let '(s, k, n) := shortest_from 17 m e 1 in
  let digits := string_of_Z s in
  let mantissa :=
    match digits with
    | String d EmptyString => digits
    | String d rest => String d ("." +:+ rest)
    | EmptyString => digits
    end in
  (if negative then "-" else EmptyString) +:+ mantissa +:+ "e+" +:+ string_of_Z (n - 1).

(** *** [Number.prototype.toFixed(1)]

    For a finite magnitude below [10^21]: the integer [n] for which
    [n / 10] is nearest to the value, the larger one when two are equally
    near, printed with a point before its last digit. *)
Definition tenths (m : positive) (e : Z) : Z :=
  if 0 <=? e then 10 * Zpos m * 2 ^ e
  else (20 * Zpos m + 2 ^ (- e)) / 2 ^ (- e + 1).

Definition below_1e21 (m : positive) (e : Z) : bool :=
  if 0 <=? e then Zpos m * 2 ^ e <? 10 ^ 21
  else Zpos m <? 10 ^ 21 * 2 ^ (- e).

Definition fixed1 (n : Z) : string :=
  string_of_Z (n / 10) +:+ "." +:+ string_of_Z (n mod 10).

Definition toFixed1 (x : spec_float) : string :=
  match x with
  | S754_nan => "NaN"
  | S754_infinity s => if s then "-Infinity" else "Infinity"
  | S754_zero _ => "0.0"
  | S754_finite s m e =>
      if below_1e21 m e
      then (if s then "-" else EmptyString) +:+ fixed1 (tenths m e)
      else exponent_string s m e
  end.

End JsNumber.

(** ** [src/types.ts]: the profile value *)

Module Types.

Record TwitterProfileData := {
  id : string;
  name : string;
  username : string;
  description : string;
  profileImageUrl : string;
  profileBannerUrl : string;
  verified : bool;
  followersCount : Z;
  followingCount : Z;
  tweetCount : Z;
  listedCount : Z;
  likeCount : Z;
  mediaCount : Z;
  subscribesToYou : bool;
  subscriptionType : string
}.

(** [formatNumber]: the two tests are made in the order of the source,
    millions first. *)
Definition formatNumber (num : Z) : string :=
  if 1000000 <=? num then
    JsNumber.toFixed1 (JsNumber.div (JsNumber.of_Z num) (JsNumber.of_Z 1000000)) +:+ "M"
  else if 1000 <=? num then
    JsNumber.toFixed1 (JsNumber.div (JsNumber.of_Z num) (JsNumber.of_Z 1000)) +:+ "K"
  else JsNumber.string_of_Z num.

Definition getFormattedFollowersCount (p : TwitterProfileData) : string :=
  formatNumber (followersCount p).
Definition getFormattedFollowingCount (p : TwitterProfileData) : string :=
  formatNumber (followingCount p).
Definition getFormattedTweetCount (p : TwitterProfileData) : string :=
  formatNumber (tweetCount p).

(** The values a CSV row holds: strings, booleans and numbers. *)
Inductive JsValue :=
| VString (s : string)
| VBool (b : bool)
| VNumber (n : Z).

(** [String(v)]. *)
Definition toString (v : JsValue) : string :=
  match v with
  | VString s => s
  | VBool true => "true"
  | VBool false => "false"
  | VNumber n => JsNumber.string_of_Z n
  end.

(** Truthiness: [false], [0] and the empty string are falsy. *)
Definition truthy (v : JsValue) : bool :=
  match v with
  | VString s => JsString.truthy s
  | VBool b => b
  | VNumber n => negb (n =? 0)
  end.

(** [toCSVRow]: the object literal, as its keys in insertion order with
    their values.  [now] is [new Date().toISOString()]. *)
Definition toCSVRow (now : string) (p : TwitterProfileData) : list (string * JsValue) :=
  [ ("id", VString (id p));
    ("name", VString (name p));
    ("username", VString (username p));
    ("description", VString (description p));
    ("verified", VBool (verified p));
    ("followers_count", VNumber (followersCount p));
    ("following_count", VNumber (followingCount p));
    ("tweet_count", VNumber (tweetCount p));
    ("listed_count", VNumber (listedCount p));
    ("like_count", VNumber (likeCount p));
    ("media_count", VNumber (mediaCount p));
    ("subscribes_to_you", VBool (subscribesToYou p));
    ("subscription_type", VString (subscriptionType p));
    ("profile_image_url", VString (profileImageUrl p));
    ("profile_banner_url", VString (profileBannerUrl p));
    ("created_at", VString now) ].

End Types.

(** ** node-canvas, [fs-extra] and [path], as the generator uses them *)

Module Host.

(** A decoded bitmap, as [loadImage] resolves it. *)
Record Image := {
  img_width : Z;
  img_height : Z;
  img_pixels : string
}.

(** What [fillStyle] can hold: a CSS colour, or the linear gradient built
    by [createLinearGradient] and [addColorStop]. *)
Inductive Paint :=
| Colour (css : string)
| LinearGradient (x0 y0 x1 y1 : Z) (stops : list (Z * string)).

(** The calls made on a 2D context.  [Arc] is the full circle the code
    draws (from angle [0] to [2 * Math.PI]). *)
Inductive Call :=
| SetAntialias (v : string)
| SetTextAlign (v : string)
| SetTextBaseline (v : string)
| SetFillStyle (p : Paint)
| SetStrokeStyle (css : string)
| SetLineWidth (w : Z)
| SetFont (f : string)
| FillRect (x y w h : Z)
| DrawImage (img : Image) (x y w h : Q)
| FillText (text : string) (x y : Z)
| Save
| Restore
| BeginPath
| Arc (cx cy r : Z)
| Clip
| Stroke.

(** The context: the font in force (read back by [measureText]) and the
    calls made so far, oldest first. *)
Record Context := {
  font : string;
  calls : list Call
}.

Definition getContext : Context :=
  {| font := "10px sans-serif"; calls := [] |}.

Definition call (c : Call) (ctx : Context) : Context :=
  {| font := font ctx; calls := calls ctx ++ [c] |}.

Definition setFont (f : string) (ctx : Context) : Context :=
  {| font := f; calls := calls ctx ++ [SetFont f] |}.

(** A canvas: its size and what was painted on it. *)
Record Canvas := {
  canvas_width : Z;
  canvas_height : Z;
  canvas_calls : list Call
}.

(** The encodings [toBuffer] knows. *)
Inductive Encoding :=
| PNG
| JPEG (quality : Z).

(** The behaviour of the libraries the generator calls.  An [option
    string] result is the message of the error thrown, [None] when the
    call returns normally. *)
Record Platform := {
  measureText : string -> string -> Q;
  decodeImage : string -> option Image;
  encodeImage : Encoding -> Canvas -> string;
  createCanvasError : Z -> Z -> option string;
  toBufferError : Canvas -> option string;
  ensureDirError : string -> option string;
  writeFileError : string -> option string;
  pathJoin : list string -> string;
  pathDirname : string -> string;
  cwd : string
}.

(** The file system and the console. *)
Record World := {
  files : gmap string string;
  console : list string
}.

Definition warn (msg : string) (w : World) : World :=
  {| files := files w; console := console w ++ [msg] |}.

Definition writeFile (path content : string) (w : World) : World :=
  {| files := <[path := content]> (files w); console := console w |}.

Definition pathExists (w : World) (path : string) : bool :=
  bool_decide (is_Some (files w !! path)).

(** [loadImage(path)]: [None] when the promise is rejected (no such
    file, or bytes that do not decode). *)
Definition loadImage (P : Platform) (w : World) (path : string) : option Image :=
  match files w !! path with
  | Some bytes => decodeImage P bytes
  | None => None
  end.

(** [canvas.toBuffer(mimeType?)]: PNG when no MIME type is given. *)
Definition toBuffer (P : Platform) (c : Canvas) (mime : option Encoding) : string :=
  encodeImage P (match mime with Some enc => enc | None => PNG end) c.

End Host.

(** ** [src/csvExporter.ts]: the record writer *)

Module CsvExporter.
Import Types.

(** [escapeCSVField] on a value that is neither [null] nor [undefined]. *)
Definition escapeCSVField (value : JsValue) : string :=
  let stringValue := toString value in
  if JsString.includes JsString.comma stringValue
     || JsString.includes JsString.newline stringValue
     || JsString.includes JsString.dquote stringValue
  then
    String JsString.dquote
      (JsString.replaceAll JsString.dquote
         (String JsString.dquote (String JsString.dquote EmptyString)) stringValue
       +:+ String JsString.dquote EmptyString)
  else stringValue.

(** [row[header]]: the value stored under a key of the row. *)
Fixpoint lookup_key (header : string) (row : list (string * JsValue)) : option JsValue :=
  match row with
  | [] => None
  | (k, v) :: rest => if String.eqb k header then Some v else lookup_key header rest
  end.

(** [row[header] || '']: a falsy value is replaced by the empty string
    before it is escaped. *)
Definition cell (row : list (string * JsValue)) (header : string) : string :=
  match lookup_key header row with
  | Some v => if truthy v then escapeCSVField v else escapeCSVField (VString EmptyString)
  | None => escapeCSVField (VString EmptyString)
  end.

Definition createCSVContent (data : list (list (string * JsValue))) : string :=
  match data with
  | [] => EmptyString
  | first :: _ =>
      let headers := map fst first in
      let headerRow :=
        JsString.join "," (map (fun h => escapeCSVField (VString h)) headers) in
      let dataRows :=
        map (fun row => JsString.join "," (map (cell row) headers)) data in
      JsString.join (String JsString.newline EmptyString) (headerRow :: dataRows)
      +:+ String JsString.newline EmptyString
  end.

(** [exportProfileData]: the record of one profile, written under the
    user directory; the path written is returned. *)
Definition exportProfileData (P : Host.Platform) (now : string)
    (profileData : TwitterProfileData) (userDir : string) (w : Host.World)
    : Host.World * string :=
  let csvPath :=
    Host.pathJoin P [userDir; username profileData +:+ "_data.csv"] in
  let csvData := toCSVRow now profileData in
  let csvContent := createCSVContent [csvData] in
  (Host.writeFile csvPath csvContent w, csvPath).

End CsvExporter.

(** ** [src/profileCardGenerator.ts] *)

Module ProfileCardGenerator.
Import Types Host.

Inductive OutputFormat := png | jpeg.
Inductive CardStyle := modern | classic | minimal.

(** [CardGenerationOptions]: every key may be left out. *)
Record CardGenerationOptions := {
  opt_width : option Z;
  opt_height : option Z;
  opt_backgroundColor : option string;
  opt_textColor : option string;
  opt_accentColor : option string;
  opt_fontFamily : option string;
  opt_showBanner : option bool;
  opt_showStats : option bool;
  opt_showDescription : option bool;
  opt_cardStyle : option CardStyle;
  opt_outputFormat : option OutputFormat;
  opt_quality : option Z
}.

(** [Required<CardGenerationOptions>]. *)
Record Options := {
  width : Z;
  height : Z;
  backgroundColor : string;
  textColor : string;
  accentColor : string;
  fontFamily : string;
  showBanner : bool;
  showStats : bool;
  showDescription : bool;
  cardStyle : CardStyle;
  outputFormat : OutputFormat;
  quality : Z
}.

Definition defaultOptions : Options := {|
  width := 1200;
  height := 630;
  backgroundColor := "#000000";
  textColor := "#ffffff";
  accentColor := "#1d9bf0";
  fontFamily := "Arial, sans-serif";
  showBanner := true;
  showStats := true;
  showDescription := true;
  cardStyle := modern;
  outputFormat := png;
  quality := 90
|}.

Definition noOptions : CardGenerationOptions := {|
  opt_width := None; opt_height := None; opt_backgroundColor := None;
  opt_textColor := None; opt_accentColor := None; opt_fontFamily := None;
  opt_showBanner := None; opt_showStats := None; opt_showDescription := None;
  opt_cardStyle := None; opt_outputFormat := None; opt_quality := None
|}.

(** [{ ...this.defaultOptions, ...options }]. *)
Definition mergeOptions (d : Options) (o : CardGenerationOptions) : Options := {|
  width := default (width d) (opt_width o);
  height := default (height d) (opt_height o);
  backgroundColor := default (backgroundColor d) (opt_backgroundColor o);
  textColor := default (textColor d) (opt_textColor o);
  accentColor := default (accentColor d) (opt_accentColor o);
  fontFamily := default (fontFamily d) (opt_fontFamily o);
  showBanner := default (showBanner d) (opt_showBanner o);
  showStats := default (showStats d) (opt_showStats o);
  showDescription := default (showDescription d) (opt_showDescription o);
  cardStyle := default (cardStyle d) (opt_cardStyle o);
  outputFormat := default (outputFormat d) (opt_outputFormat o);
  quality := default (quality d) (opt_quality o)
|}.

Record CardAssets := {
  profileData : TwitterProfileData;
  profileImagePath : option string;
  bannerImagePath : option string
}.

Record CardInfo := {
  info_width : Z;
  info_height : Z;
  info_fileSize : Z;
  info_format : string
}.

Record CardGenerationResult := {
  success : bool;
  outputPath : option string;
  cardInfo : option CardInfo;
  error : option string
}.

(** Truthiness of an optional path: [undefined] and the empty string are
    falsy. *)
Definition present (p : option string) : option string :=
  match p with
  | Some s => if JsString.truthy s then Some s else None
  | None => None
  end.

(** [Math.floor(options.height * 0.4)], on an integer height. *)
Definition bannerBand (options : Options) : Z := 2 * height options / 5.

Definition formatName (f : OutputFormat) : string :=
  match f with png => "png" | jpeg => "jpeg" end.

Definition setupCanvas (options : Options) (ctx : Context) : Context :=
  call (SetTextBaseline "top")
    (call (SetTextAlign "left")
       (call (SetAntialias "default") ctx)).

Definition drawBackground (options : Options) (ctx : Context) : Context :=
  call (FillRect 0 0 (width options) (height options))
    (call (SetFillStyle (Colour (backgroundColor options))) ctx).

(** [drawBanner]: the [try] block either runs to its end or, when
    [loadImage] rejects, leaves the context untouched and warns.  A
    decoded image has a positive height. *)
Definition drawBanner (P : Platform) (bannerPath : string) (options : Options)
    (st : World * Context) : World * Context :=
  let '(w, ctx) := st in
  match loadImage P w bannerPath with
  | Some bannerImage =>
      let bannerHeight := bannerBand options in
      let aspectRatio := (inject_Z (img_width bannerImage) / inject_Z (img_height bannerImage))%Q in
      let bannerWidth := (inject_Z bannerHeight * aspectRatio)%Q in
      let x := ((inject_Z (width options) - bannerWidth) / inject_Z 2)%Q in
      let ctx := call (DrawImage bannerImage x (inject_Z 0) bannerWidth (inject_Z bannerHeight)) ctx in
      let overlay :=
        LinearGradient 0 0 0 bannerHeight
          [(0, "rgba(0, 0, 0, 0.3)"); (1, "rgba(0, 0, 0, 0.7)")] in
      let ctx := call (SetFillStyle overlay) ctx in
      let ctx := call (FillRect 0 0 (width options) bannerHeight) ctx in
      (w, ctx)
  | None => (warn "Failed to load banner image:" w, ctx)
  end.

Definition profileSize : Z := 120.

Definition drawProfileImage (P : Platform) (profilePath : string) (options : Options)
    (st : World * Context) : World * Context :=
  let '(w, ctx) := st in
  match loadImage P w profilePath with
  | Some profileImage =>
      let x := 60 in
      let y := if showBanner options then bannerBand options - profileSize / 2 else 60 in
      let ctx := call Save ctx in
      let ctx := call BeginPath ctx in
      let ctx := call (Arc (x + profileSize / 2) (y + profileSize / 2) (profileSize / 2)) ctx in
      let ctx := call Clip ctx in
      let ctx := call (DrawImage profileImage (inject_Z x) (inject_Z y)
                         (inject_Z profileSize) (inject_Z profileSize)) ctx in
      let ctx := call Restore ctx in
      let ctx := call (SetStrokeStyle (backgroundColor options)) ctx in
      let ctx := call (SetLineWidth 4) ctx in
      let ctx := call BeginPath ctx in
      let ctx := call (Arc (x + profileSize / 2) (y + profileSize / 2) (profileSize / 2)) ctx in
      let ctx := call Stroke ctx in
      (w, ctx)
  | None => (warn "Failed to load profile image:" w, ctx)
  end.

Definition drawProfileInfo (profileData : TwitterProfileData) (options : Options)
    (ctx : Context) : Context :=
  let startY := if showBanner options then bannerBand options + 20 else 200 in
  let x := 60 in
  let currentY := startY in
  let ctx := call (SetFillStyle (Colour (textColor options))) ctx in
  let ctx := setFont ("bold 36px " +:+ fontFamily options) ctx in
  let ctx := call (FillText (name profileData) x currentY) ctx in
  let currentY := currentY + 50 in
  let ctx := call (SetFillStyle (Colour "#71767b")) ctx in
  let ctx := setFont ("28px " +:+ fontFamily options) ctx in
  let ctx := call (FillText ("@" +:+ username profileData) x currentY) ctx in
  let currentY := currentY + 40 in
  if verified profileData then
    let ctx := call (SetFillStyle (Colour (accentColor options))) ctx in
    let ctx := setFont ("24px " +:+ fontFamily options) ctx in
    call (FillText "✓ Verified" x currentY) ctx
  else ctx.

Definition drawStats (profileData : TwitterProfileData) (options : Options)
    (ctx : Context) : Context :=
  let startY := if showBanner options then bannerBand options + 200 else 400 in
  let x := 60 in
  let spacing := 120 in
  let currentX := x in
  let ctx := call (SetFillStyle (Colour (textColor options))) ctx in
  let ctx := setFont ("bold 24px " +:+ fontFamily options) ctx in
  let ctx := call (FillText (getFormattedFollowersCount profileData) currentX startY) ctx in
  let ctx := call (SetFillStyle (Colour "#71767b")) ctx in
  let ctx := setFont ("18px " +:+ fontFamily options) ctx in
  let ctx := call (FillText "Followers" currentX (startY + 30)) ctx in
  let currentX := currentX + spacing in
  let ctx := call (SetFillStyle (Colour (textColor options))) ctx in
  let ctx := setFont ("bold 24px " +:+ fontFamily options) ctx in
  let ctx := call (FillText (getFormattedFollowingCount profileData) currentX startY) ctx in
  let ctx := call (SetFillStyle (Colour "#71767b")) ctx in
  let ctx := setFont ("18px " +:+ fontFamily options) ctx in
  let ctx := call (FillText "Following" currentX (startY + 30)) ctx in
  let currentX := currentX + spacing in
  let ctx := call (SetFillStyle (Colour (textColor options))) ctx in
  let ctx := setFont ("bold 24px " +:+ fontFamily options) ctx in
  let ctx := call (FillText (getFormattedTweetCount profileData) currentX startY) ctx in
  let ctx := call (SetFillStyle (Colour "#71767b")) ctx in
  let ctx := setFont ("18px " +:+ fontFamily options) ctx in
  call (FillText "Tweets" currentX (startY + 30)) ctx.

(** [metrics.width > maxWidth]. *)
Definition wider (width : Q) (maxWidth : Z) : bool :=
  negb (Qle_bool width (inject_Z maxWidth)).

Definition lineHeight : Z := 30.

(** The [for ... of words] loop of [drawDescription]; its state is the
    context, the line being filled and the vertical cursor. *)
Fixpoint wrapWords (P : Platform) (maxWidth x : Z) (words : list string)
    (st : Context * string * Z) : Context * string * Z :=
  match words with
  | [] => st
  | word :: rest =>
      let '(ctx, line, currentY) := st in
      let testLine := line +:+ word +:+ " " in
      let metrics := measureText P (font ctx) testLine in
      if wider metrics maxWidth && JsString.truthy line
      then wrapWords P maxWidth x rest
             (call (FillText line x currentY) ctx, word +:+ " ", currentY + lineHeight)
      else wrapWords P maxWidth x rest (ctx, testLine, currentY)
  end.

Definition drawDescription (P : Platform) (description : string) (options : Options)
    (ctx : Context) : Context :=
  let startY := if showBanner options then bannerBand options + 300 else 500 in
  let x := 60 in
  let maxWidth := width options - 120 in
  let ctx := call (SetFillStyle (Colour (textColor options))) ctx in
  let ctx := setFont ("20px " +:+ fontFamily options) ctx in
  let words := JsString.split JsString.space description in
  let '(ctx, line, currentY) := wrapWords P maxWidth x words (ctx, EmptyString, startY) in
  if JsString.truthy line then call (FillText line x currentY) ctx else ctx.

(** The painting part of [generateCard], from [getContext] to the last
    [draw*] call.  The warnings of the two image loaders go to the
    console of the world. *)
Definition paint (P : Platform) (assets : CardAssets) (opts : Options)
    (w : World) : World * Context :=
  let ctx := getContext in
  let ctx := setupCanvas opts ctx in
  let ctx := drawBackground opts ctx in
  let st := (w, ctx) in
  let st :=
    if showBanner opts then
      match present (bannerImagePath assets) with
      | Some bannerPath => drawBanner P bannerPath opts st
      | None => st
      end
    else st in
  let st :=
    match present (profileImagePath assets) with
    | Some profilePath => drawProfileImage P profilePath opts st
    | None => st
    end in
  let '(w, ctx) := st in
  let ctx := drawProfileInfo (profileData assets) opts ctx in
  let ctx := if showStats opts then drawStats (profileData assets) opts ctx else ctx in
  let ctx :=
    if showDescription opts && JsString.truthy (description (profileData assets))
    then drawDescription P (description (profileData assets)) opts ctx
    else ctx in
  (w, ctx).

Definition canvasOf (opts : Options) (ctx : Context) : Canvas :=
  {| canvas_width := width opts; canvas_height := height opts;
     canvas_calls := calls ctx |}.

(** The path used when the caller gives none; [now] is
    [new Date().toISOString()]. *)
Definition defaultOutputPath (P : Platform) (now : string) (assets : CardAssets)
    (opts : Options) : string :=
  let timestamp := JsString.replaceAll "." "-" (JsString.replaceAll ":" "-" now) in
  let extension := match outputFormat opts with jpeg => "jpg" | png => "png" end in
  let filename :=
    username (profileData assets) +:+ "_card_" +:+ timestamp +:+ "." +:+ extension in
  pathJoin P [cwd P; "downloads"; username (profileData assets); filename].

Definition failed (message : string) : CardGenerationResult :=
  {| success := false; outputPath := None; cardInfo := None; error := Some message |}.

(** [generateCard]: the body of the [try], with the [catch] turning the
    first error thrown into a failed result. *)
Definition generateCard (P : Platform) (now : string) (assets : CardAssets)
    (options : CardGenerationOptions) (outputPath : option string) (w : World)
    : World * CardGenerationResult :=
  let opts := mergeOptions defaultOptions options in
  match createCanvasError P (width opts) (height opts) with
  | Some message => (w, failed message)
  | None =>
      let '(w, ctx) := paint P assets opts w in
      let canvas := canvasOf opts ctx in
      let outputPath :=
        match present outputPath with
        | Some path => path
        | None => defaultOutputPath P now assets opts
        end in
      match ensureDirError P (pathDirname P outputPath) with
      | Some message => (w, failed message)
      | None =>
          match toBufferError P canvas with
          | Some message => (w, failed message)
          | None =>
              let buffer := toBuffer P canvas None in
              match writeFileError P outputPath with
              | Some message => (w, failed message)
              | None =>
                  let w := writeFile outputPath buffer w in
                  (w, {| success := true;
                         outputPath := Some outputPath;
                         cardInfo := Some {|
                           info_width := width opts;
                           info_height := height opts;
                           info_fileSize := Z.of_nat (String.length buffer);
                           info_format := JsString.toUpperCase (formatName (outputFormat opts))
                         |};
                         error := None |})
              end
          end
      end
  end.

(** What a call either returns or throws. *)
Inductive Outcome (A : Type) :=
| Returned (value : A)
| Thrown (message : string).
Arguments Returned {A} value.
Arguments Thrown {A} message.

(** The row of the record, read by position. *)
Definition profileOfRow (data : list string) : TwitterProfileData := {|
  id := JsString.orEmpty (data !! 0%nat);
  name := JsString.orEmpty (data !! 1%nat);
  username := JsString.orEmpty (data !! 2%nat);
  description := JsString.orEmpty (data !! 3%nat);
  profileImageUrl := JsString.orEmpty (data !! 13%nat);
  profileBannerUrl := JsString.orEmpty (data !! 14%nat);
  verified := match data !! 4%nat with Some v => String.eqb v "true" | None => false end;
  followersCount := JsNumber.parseIntOrZero (data !! 5%nat);
  followingCount := JsNumber.parseIntOrZero (data !! 6%nat);
  tweetCount := JsNumber.parseIntOrZero (data !! 7%nat);
  listedCount := JsNumber.parseIntOrZero (data !! 8%nat);
  likeCount := JsNumber.parseIntOrZero (data !! 9%nat);
  mediaCount := JsNumber.parseIntOrZero (data !! 10%nat);
  subscribesToYou := match data !! 11%nat with Some v => String.eqb v "true" | None => false end;
  subscriptionType := JsString.orEmpty (data !! 12%nat)
|}.

(** The [try] block of [loadAssetsFromDirectory]: [readFile] throws when
    the file is missing, [lines[1].split] throws when there is no second
    line. *)
Definition readProfileData (w : World) (dataPath : string) : Outcome TwitterProfileData :=
  match files w !! dataPath with
  | None =>
      Thrown ("Error: ENOENT: no such file or directory, open '" +:+ dataPath +:+ "'")
  | Some csvContent =>
      let lines := JsString.split JsString.newline csvContent in
      match lines !! 1%nat with
      | None => Thrown "TypeError: Cannot read properties of undefined (reading 'split')"
      | Some line1 => Returned (profileOfRow (JsString.split JsString.comma line1))
      end
  end.

Definition loadAssetsFromDirectory (P : Platform) (w : World) (username downloadsDir : string)
    : Outcome CardAssets :=
  let userDir := pathJoin P [downloadsDir; username] in
  let profileImagePath := pathJoin P [userDir; "profile_image.jpg"] in
  let bannerImagePath := pathJoin P [userDir; "banner_image.jpg"] in
  let dataPath := pathJoin P [userDir; username +:+ "_data.csv"] in
  match readProfileData w dataPath with
  | Thrown cause =>
      Thrown ("Failed to load profile data for " +:+ username +:+ ": " +:+ cause)
  | Returned profileData =>
      Returned {|
        profileData := profileData;
        profileImagePath :=
          if pathExists w profileImagePath then Some profileImagePath else None;
        bannerImagePath :=
          if pathExists w bannerImagePath then Some bannerImagePath else None
      |}
  end.

End ProfileCardGenerator.

(** ** A concrete host, used to run the generator on examples *)

Module Demo.
Import Types Host ProfileCardGenerator.

(** Ten pixels a character, whatever the font. *)
Definition measure (font text : string) : Q :=
  inject_Z (10 * Z.of_nat (String.length text)).

(** A file decodes as an image when it starts with [img:]. *)
Definition decode (bytes : string) : option Image :=
  match bytes with
  | String "i" (String "m" (String "g" (String ":" _))) =>
      Some {| img_width := 1500; img_height := 500; img_pixels := bytes |}
  | _ => None
  end.

Definition callTag (c : Call) : string :=
  match c with
  | FillText text x y =>
      "T(" +:+ text +:+ "@" +:+ JsNumber.string_of_Z x +:+ "," +:+ JsNumber.string_of_Z y +:+ ")"
  | DrawImage img _ _ _ _ => "I(" +:+ img_pixels img +:+ ")"
  | FillRect x y w h => "R"
  | _ => "."
  end.

Definition encode (enc : Encoding) (c : Canvas) : string :=
  "img:" +:+ (match enc with PNG => "png" | JPEG q => "jpeg@" +:+ JsNumber.string_of_Z q end)
  +:+ ":" +:+ JsNumber.string_of_Z (canvas_width c) +:+ "x" +:+ JsNumber.string_of_Z (canvas_height c)
  +:+ ":" +:+ JsString.join EmptyString (map callTag (canvas_calls c)).

Definition canvasError (w h : Z) : option string :=
  if (w <? 0) || (h <? 0) || (32767 <? w) || (32767 <? h)
  then Some "Invalid canvas size" else None.

Fixpoint dirname_aux (s : string) : option string :=
  match s with
  | EmptyString => None
  | String c rest =>
      match dirname_aux rest with
      | Some d => Some (String c d)
      | None => if Ascii.eqb c "/" then Some EmptyString else None
      end
  end.

Definition dirname (s : string) : string :=
  match dirname_aux s with
  | Some d => d
  | None => "."
  end.

Definition host : Platform := {|
  measureText := measure;
  decodeImage := decode;
  encodeImage := encode;
  createCanvasError := canvasError;
  toBufferError := fun _ => None;
  ensureDirError := fun _ => None;
  writeFileError := fun _ => None;
  pathJoin := JsString.join "/";
  pathDirname := dirname;
  cwd := "/app"
|}.

Definition ada : TwitterProfileData := {|
  id := "42";
  name := "Ada Lovelace";
  username := "ada";
  description := "Mathematician and writer.";
  profileImageUrl := "https://example.org/ada.jpg";
  profileBannerUrl := "https://example.org/banner.jpg";
  verified := true;
  followersCount := 1500;
  followingCount := 10;
  tweetCount := 42;
  listedCount := 0;
  likeCount := 0;
  mediaCount := 0;
  subscribesToYou := false;
  subscriptionType := EmptyString
|}.

Definition emptyWorld : World := {| files := ∅; console := [] |}.

(** A world holding both bitmaps of [ada]. *)
Definition adaWorld : World := {|
  files := <["downloads/ada/profile_image.jpg" := "img:avatar"]>
           (<["downloads/ada/banner_image.jpg" := "img:banner"]> ∅);
  console := []
|}.

Definition adaAssets : CardAssets := {|
  profileData := ada;
  profileImagePath := Some "downloads/ada/profile_image.jpg";
  bannerImagePath := Some "downloads/ada/banner_image.jpg"
|}.

Definition noImages (p : TwitterProfileData) : CardAssets :=
  {| profileData := p; profileImagePath := None; bannerImagePath := None |}.

End Demo.

(** ** What is observed of a render, and the inputs of the examples *)

Module Observe.
Import Types Host ProfileCardGenerator.

(** The [fillText] calls of a block of lines: one line every [lineHeight]
    pixels, all at the same [x]. *)
Fixpoint textBlock (x y : Z) (lines : list string) : list Call :=
  match lines with
  | [] => []
  | line :: rest => FillText line x y :: textBlock x (y + lineHeight) rest
  end.

(** A line of the description as the wrap loop builds it: each word
    followed by one space. *)
Definition renderWords (group : list string) : string :=
  JsString.join EmptyString (map (fun word => word +:+ " ") group).

(** A line holds a single word, or its measured width is within budget. *)
Definition lineOk (P : Platform) (f : string) (maxWidth : Z) (group : list string) : Prop :=
  length group = 1%nat \/ wider (measureText P f (renderWords group)) maxWidth = false.

Definition descriptionFont (opts : Options) : string := "20px " +:+ fontFamily opts.

Definition descriptionY (opts : Options) : Z :=
  if showBanner opts then bannerBand opts + 300 else 500.


Definition textOf (c : Call) : list (string * Z * Z) :=
  match c with FillText t x y => [(t, x, y)] | _ => [] end.



(** The texts written, the images drawn and the gradients used, in call
    order. *)
Definition fillTexts (cs : list Call) : list (string * Z * Z) := flat_map textOf cs.




Definition withoutBanner (a : CardAssets) : CardAssets :=
  {| profileData := profileData a; profileImagePath := profileImagePath a;
     bannerImagePath := None |}.

Definition withoutAvatar (a : CardAssets) : CardAssets :=
  {| profileData := profileData a; profileImagePath := None;
     bannerImagePath := bannerImagePath a |}.

(** The path [generateCard] writes to. *)
Definition resolvedPath (P : Platform) (now : string) (assets : CardAssets)
    (opts : Options) (out : option string) : string :=
  match present out with
  | Some path => path
  | None => defaultOutputPath P now assets opts
  end.

(** The result of a successful call. *)
Definition succeeded (path : string) (opts : Options) (buffer : string) : CardGenerationResult :=
  {| success := true;
     outputPath := Some path;
     cardInfo := Some {| info_width := width opts; info_height := height opts;
                         info_fileSize := Z.of_nat (String.length buffer);
                         info_format := JsString.toUpperCase (formatName (outputFormat opts)) |};
     error := None |}.

(** [w'] holds the files of [w] and a longer console. *)
Definition extends (w w' : World) : Prop :=
  files w' = files w /\ exists ws, console w' = console w ++ ws.

(** The stages of [paint]. *)
Definition bannerStage (P : Platform) (assets : CardAssets) (opts : Options)
    (st : World * Context) : World * Context :=
  if showBanner opts then
    match present (bannerImagePath assets) with
    | Some bannerPath => drawBanner P bannerPath opts st
    | None => st
    end
  else st.

Definition avatarStage (P : Platform) (assets : CardAssets) (opts : Options)
    (st : World * Context) : World * Context :=
  match present (profileImagePath assets) with
  | Some profilePath => drawProfileImage P profilePath opts st
  | None => st
  end.

Definition textStages (P : Platform) (p : TwitterProfileData) (opts : Options)
    (ctx : Context) : Context :=
  let ctx := drawProfileInfo p opts ctx in
  let ctx := if showStats opts then drawStats p opts ctx else ctx in
  if showDescription opts && JsString.truthy (description p)
  then drawDescription P (description p) opts ctx
  else ctx.

(** Two worlds hold the same bytes at the asset paths of [assets]. *)
Definition sameAssetFiles (assets : CardAssets) (w1 w2 : World) : Prop :=
  forall path,
    present (profileImagePath assets) = Some path
    \/ present (bannerImagePath assets) = Some path ->
    files w1 !! path = files w2 !! path.

(** The paths [loadAssetsFromDirectory] looks at. *)
Definition userDirOf (P : Platform) (downloadsDir username : string) : string :=
  pathJoin P [downloadsDir; username].
Definition dataPathOf (P : Platform) (downloadsDir username : string) : string :=
  pathJoin P [userDirOf P downloadsDir username; username +:+ "_data.csv"].
Definition avatarPathOf (P : Platform) (downloadsDir username : string) : string :=
  pathJoin P [userDirOf P downloadsDir username; "profile_image.jpg"].
Definition bannerPathOf (P : Platform) (downloadsDir username : string) : string :=
  pathJoin P [userDirOf P downloadsDir username; "banner_image.jpg"].

(** Decimal digits. *)
Definition is_digit (c : ascii) : bool :=
  let n := nat_of_ascii c in ((48 <=? n) && (n <=? 57))%nat.






End Observe.

Module Inputs.
Import Types Host ProfileCardGenerator Demo.

Definition now : string := "2026-11-02T10:00:00.000Z".

Definition withWidth (w : Z) : CardGenerationOptions := {|
  opt_width := Some w; opt_height := None; opt_backgroundColor := None;
  opt_textColor := None; opt_accentColor := None; opt_fontFamily := None;
  opt_showBanner := None; opt_showStats := None; opt_showDescription := None;
  opt_cardStyle := None; opt_outputFormat := None; opt_quality := None
|}.


Definition asJpeg : CardGenerationOptions := {|
  opt_width := None; opt_height := None; opt_backgroundColor := None;
  opt_textColor := None; opt_accentColor := None; opt_fontFamily := None;
  opt_showBanner := None; opt_showStats := None; opt_showDescription := None;
  opt_cardStyle := None; opt_outputFormat := Some jpeg; opt_quality := None
|}.


(** [ada] with a comma in her description. *)
Definition adaWithComma : TwitterProfileData := {|
  id := id ada; name := name ada; username := username ada;
  description := "Mathematician, and writer.";
  profileImageUrl := profileImageUrl ada; profileBannerUrl := profileBannerUrl ada;
  verified := verified ada;
  followersCount := followersCount ada; followingCount := followingCount ada;
  tweetCount := tweetCount ada; listedCount := listedCount ada;
  likeCount := likeCount ada; mediaCount := mediaCount ada;
  subscribesToYou := subscribesToYou ada; subscriptionType := subscriptionType ada
|}.

(** A record whose data row has two columns only. *)
Definition shortRecord : string :=
  JsString.join (String JsString.newline EmptyString) ["id,name"; "42,Ada"; EmptyString].

Definition shortRecordWorld : World := {|
  files := <["downloads/ada/ada_data.csv" := shortRecord]> ∅;
  console := []
|}.


End Inputs.

(** ** More of [String.prototype]

    The methods below look at characters outside ASCII, so the encoding
    matters: a string is read as the UTF-8 bytes of its text. *)

Module JsText.

Definition bytes (codes : list nat) : string :=
  string_of_list_ascii (map ascii_of_nat codes).

(** The white space and line terminators [trim] strips, by the length of
    their UTF-8 encoding: U+0009 to U+000D and U+0020; U+00A0; U+1680,
    U+2000 to U+200A, U+2028, U+2029, U+202F, U+205F, U+3000 and U+FEFF. *)
Definition white1 (a : ascii) : bool :=
  let n := nat_of_ascii a in
  ((9 <=? n) && (n <=? 13) || (n =? 32))%nat.

Definition white2 (a b : ascii) : bool :=
  ((nat_of_ascii a =? 194) && (nat_of_ascii b =? 160))%nat.

Definition white3 (a b c : ascii) : bool :=
  let x := nat_of_ascii a in
  let y := nat_of_ascii b in
  let z := nat_of_ascii c in
  ((x =? 225) && (y =? 154) && (z =? 128)
   || (x =? 226) && (y =? 128)
      && ((128 <=? z) && (z <=? 138) || (z =? 168) || (z =? 169) || (z =? 175))
   || (x =? 226) && (y =? 129) && (z =? 159)
   || (x =? 227) && (y =? 128) && (z =? 128)
   || (x =? 239) && (y =? 187) && (z =? 191))%nat.

(** [s.trimStart()]. *)
Fixpoint trimStart (s : string) : string :=
  match s with
  | EmptyString => EmptyString
  | String a s1 =>
      if white1 a then trimStart s1
      else match s1 with
           | EmptyString => s
           | String b s2 =>
               if white2 a b then trimStart s2
               else match s2 with
                    | EmptyString => s
                    | String c s3 => if white3 a b c then trimStart s3 else s
                    end
           end
  end.

(** The same scan on the reversed string, where the bytes of a character
    come last byte first. *)
Fixpoint trimStartReversed (s : string) : string :=
  match s with
  | EmptyString => EmptyString
  | String c s1 =>
      if white1 c then trimStartReversed s1
      else match s1 with
           | EmptyString => s
           | String b s2 =>
               if white2 b c then trimStartReversed s2
               else match s2 with
                    | EmptyString => s
                    | String a s3 => if white3 a b c then trimStartReversed s3 else s
                    end
           end
  end.

Definition reverse (s : string) : string :=
  string_of_list_ascii (rev (list_ascii_of_string s)).

(** [s.trimEnd()] and [s.trim()]. *)
Definition trimEnd (s : string) : string := reverse (trimStartReversed (reverse s)).

Definition trim (s : string) : string := trimEnd (trimStart s).

(** [s.startsWith(p)], and what follows the prefix. *)
Fixpoint dropPrefix (p s : string) : option string :=
  match p with
  | EmptyString => Some s
  | String a p' =>
      match s with
      | String b s' => if Ascii.eqb a b then dropPrefix p' s' else None
      | EmptyString => None
      end
  end.

Definition startsWith (p s : string) : bool :=
  match dropPrefix p s with Some _ => true | None => false end.

(** [s.endsWith(p)]. *)
Definition endsWith (p s : string) : bool := startsWith (reverse p) (reverse s).

(** [s.includes(p)] for a needle of any length. *)
Fixpoint includes (p s : string) : bool :=
  startsWith p s
  || match s with
     | EmptyString => false
     | String _ s' => includes p s'
     end.

(** [s.toLowerCase()] on the ASCII letters. *)
Definition lower_ascii (c : ascii) : ascii :=
  let n := nat_of_ascii c in
  if ((65 <=? n) && (n <=? 90))%nat then ascii_of_nat (n + 32) else c.

Fixpoint toLowerCase (s : string) : string :=
  match s with
  | EmptyString => EmptyString
  | String c rest => String (lower_ascii c) (toLowerCase rest)
  end.

End JsText.

(** ** [fs-extra]: reading files and directories

    [readFile] reads the [files] of the world.  What [readdir], [stat] and
    [remove] answer is left to the record [Directories]; a thrown error is
    carried as the text [String(error)] gives. *)

Module FsExtra.
Import Host ProfileCardGenerator.

Record Stats := {
  isDirectory : bool;
  isFile : bool;
  stat_size : Z;
  stat_mtime : string
}.

Record Directories := {
  readdir : World -> string -> Outcome (list string);
  stat : World -> string -> Outcome Stats;
  removeError : World -> string -> option string
}.

Definition readFile (w : World) (path : string) : Outcome string :=
  match files w !! path with
  | Some content => Returned content
  | None => Thrown ("Error: ENOENT: no such file or directory, open '" +:+ path +:+ "'")
  end.

(** [String(error)] for an [Error] with the message [message]. *)
Definition errorText (message : string) : string := "Error: " +:+ message.

(** [fs.writeFile(path, content)], which may throw. *)
Definition writeFileOrThrow (P : Platform) (path content : string) (w : World)
    : World * Outcome unit :=
  match writeFileError P path with
  | Some message => (w, Thrown (errorText message))
  | None => (writeFile path content w, Returned tt)
  end.

(** [fs.remove(path)]. *)
Definition remove (path : string) (w : World) : World :=
  {| files := delete path (files w); console := console w |}.

End FsExtra.

(** ** [src/csvExporter.ts]: appending, and the master file *)

Module CsvFiles.
Import Types Host ProfileCardGenerator FsExtra.

(** [objectToCSVRow]: the values of the object, escaped and joined. *)
Definition objectToCSVRow (obj : list (string * JsValue)) : string :=
  JsString.join "," (map (fun entry => CsvExporter.escapeCSVField (snd entry)) obj).

(** The [for] loop of [parseCSVLine]; [line] is what is left to read.  On
    an escaped quote the index is advanced past the second quote. *)
Fixpoint parseCSVLoop (line : string) (values : list string) (current : string)
    (inQuotes : bool) : list string :=
  match line with
  | EmptyString => values ++ [current]
  | String char rest =>
      if Ascii.eqb char JsString.dquote then
        match rest with
        | String next rest' =>
            if inQuotes && Ascii.eqb next JsString.dquote
            then parseCSVLoop rest' values (current +:+ String JsString.dquote EmptyString) inQuotes
            else parseCSVLoop rest values current (negb inQuotes)
        | EmptyString => parseCSVLoop rest values current (negb inQuotes)
        end
      else if Ascii.eqb char JsString.comma && negb inQuotes then
        parseCSVLoop rest (values ++ [current]) EmptyString inQuotes
      else parseCSVLoop rest values (current +:+ String char EmptyString) inQuotes
  end.

Definition parseCSVLine (line : string) : list string :=
  parseCSVLoop line [] EmptyString false.

(** [appendProfileData].  The text [lines.join('\n') + '\n'] is written
    over the file when it exists; otherwise the file is created as
    [exportProfileData] creates it. *)
Definition appendProfileData (P : Platform) (now : string)
    (profileData : TwitterProfileData) (csvPath : string) (w : World)
    : World * Outcome unit :=
  let csvData := toCSVRow now profileData in
  if pathExists w csvPath then
    match readFile w csvPath with
    | Thrown cause => (w, Thrown cause)
    | Returned existingContent =>
        let lines := JsString.split JsString.newline (JsText.trim existingContent) in
        let newRow := objectToCSVRow csvData in
        let lines := lines ++ [newRow] in
        writeFileOrThrow P csvPath
          (JsString.join (String JsString.newline EmptyString) lines
           +:+ String JsString.newline EmptyString) w
    end
  else
    let csvContent := CsvExporter.createCSVContent [csvData] in
    writeFileOrThrow P csvPath csvContent w.

(** [row[header] = value]: an existing key keeps its place, a new key
    goes last (the keys met here are column names, not array indices). *)
Fixpoint assign (header : string) (value : JsValue) (row : list (string * JsValue))
    : list (string * JsValue) :=
  match row with
  | [] => [(header, value)]
  | (k, v) :: rest =>
      if String.eqb k header then (k, value) :: rest
      else (k, v) :: assign header value rest
  end.

(** [headers.forEach((header, index) => row[header] = values[index] || '')]
    on an empty [row]. *)
Fixpoint fillRow (headers : list string) (index : nat) (values : list string)
    (row : list (string * JsValue)) : list (string * JsValue) :=
  match headers with
  | [] => row
  | header :: rest =>
      fillRow rest (S index) values
        (assign header (VString (JsString.orEmpty (values !! index))) row)
  end.

(** The body of [for (const line of dataLines)] in [createMasterCSV]. *)
Definition addLine (allData : list (list (string * JsValue))) (line : string)
    : list (list (string * JsValue)) :=
  if JsString.truthy (JsText.trim line) then
    let values := parseCSVLine line in
    let headers := map fst (hd [] allData) in
    let row := fillRow headers 0 values [] in
    allData ++ [row]
  else allData.

(** The [for (const userDir of userDirs)] loop. *)
Fixpoint collectRows (P : Platform) (D : Directories) (w : World) (profilesDir : string)
    (userDirs : list string) (allData : list (list (string * JsValue)))
    : Outcome (list (list (string * JsValue))) :=
  match userDirs with
  | [] => Returned allData
  | userDir :: rest =>
      let userPath := pathJoin P [profilesDir; userDir] in
      match stat D w userPath with
      | Thrown cause => Thrown cause
      | Returned st =>
          if isDirectory st then
            match readdir D w userPath with
            | Thrown cause => Thrown cause
            | Returned files =>
                match find (JsText.endsWith "_data.csv") files with
                | Some csvFile =>
                    let csvPath := pathJoin P [userPath; csvFile] in
                    match readFile w csvPath with
                    | Thrown cause => Thrown cause
                    | Returned csvContent =>
                        let lines :=
                          JsString.split JsString.newline (JsText.trim csvContent) in
                        let dataLines :=
                          match allData with
                          | [] => lines
                          | _ => tail lines
                          end in
                        collectRows P D w profilesDir rest
                          (fold_left addLine dataLines allData)
                    end
                | None => collectRows P D w profilesDir rest allData
                end
            end
          else collectRows P D w profilesDir rest allData
      end
  end.

(** [createMasterCSV]: the [try] block, then the [catch] that wraps the
    error met. *)
Definition createMasterCSV (P : Platform) (D : Directories) (profilesDir : string)
    (w : World) : World * Outcome string :=
  let masterCsvPath := pathJoin P [profilesDir; "all_profiles.csv"] in
  let attempt :=
    match readdir D w profilesDir with
    | Thrown cause => Thrown cause
    | Returned userDirs =>
        match collectRows P D w profilesDir userDirs [] with
        | Thrown cause => Thrown cause
        | Returned allData =>
            let csvContent := CsvExporter.createCSVContent allData in
            match writeFileError P masterCsvPath with
            | Some message => Thrown (errorText message)
            | None => Returned csvContent
            end
        end
    end in
  match attempt with
  | Returned csvContent => (writeFile masterCsvPath csvContent w, Returned masterCsvPath)
  | Thrown cause => (w, Thrown ("Failed to create master CSV: " +:+ cause))
  end.

(** The data row [createCSVContent] writes for [row]. *)
Definition dataRow (row : list (string * JsValue)) : string :=
  JsString.join "," (map (CsvExporter.cell row) (map fst row)).

(** The header row. *)
Definition headerRow (row : list (string * JsValue)) : string :=
  JsString.join "," (map (fun h => CsvExporter.escapeCSVField (VString h)) (map fst row)).

(** What a cell is read back as: a falsy value as the empty string. *)
Definition cellText (v : JsValue) : string :=
  if truthy v then toString v else EmptyString.

(** [n] line feeds. *)
Fixpoint lineFeeds (n : nat) : string :=
  match n with
  | O => EmptyString
  | S n' => String JsString.newline (lineFeeds n')
  end.

End CsvFiles.

(** ** [FolderManager]: the user directories *)

Module FolderManager.
Import Host ProfileCardGenerator FsExtra.

(** [x >= y] on numbers: false when either is [NaN]. *)
Definition geq (x y : spec_float) : bool := SFleb y x.

Definition units : list string := ["B"; "KB"; "MB"; "GB"; "TB"].

(** The [while] loop of [formatFileSize].  [unitIndex] grows by one at
    each turn and stops the loop at [units.length - 1], so [units.length]
    turns are never all used. *)
Fixpoint scaleSize (turns : nat) (size : spec_float) (unitIndex : nat) : spec_float * nat :=
  match turns with
  | O => (size, unitIndex)
  | S turns' =>
      if geq size (JsNumber.of_Z 1024) && (unitIndex <? length units - 1)%nat
      then scaleSize turns' (JsNumber.div size (JsNumber.of_Z 1024)) (S unitIndex)
      else (size, unitIndex)
  end.

(** [formatFileSize] on a whole number of bytes. *)
Definition formatFileSize (bytes : Z) : string :=
  let '(size, unitIndex) := scaleSize (length units) (JsNumber.of_Z bytes) 0 in
  JsNumber.toFixed1 size +:+ " " +:+ JsString.orEmpty (units !! unitIndex).

Definition getUserDirectory (P : Platform) (baseDir username : string) : string :=
  pathJoin P [baseDir; username].

(** [createUserDirectory]: [ensureDir] makes the directory or throws. *)
Definition createUserDirectory (P : Platform) (baseDir username : string) : Outcome string :=
  let userDir := pathJoin P [baseDir; username] in
  match ensureDirError P userDir with
  | Some message => Thrown (errorText message)
  | None => Returned userDir
  end.

(** The loop of [getAllUserDirectories]. *)
Fixpoint keepDirectories (P : Platform) (D : Directories) (w : World) (baseDir : string)
    (items : list string) (userDirs : list string) : Outcome (list string) :=
  match items with
  | [] => Returned userDirs
  | item :: rest =>
      let itemPath := pathJoin P [baseDir; item] in
      match stat D w itemPath with
      | Thrown cause => Thrown cause
      | Returned st =>
          keepDirectories P D w baseDir rest
            (if isDirectory st then userDirs ++ [item] else userDirs)
      end
  end.

(** [getAllUserDirectories]: any error met gives the empty list. *)
Definition getAllUserDirectories (P : Platform) (D : Directories) (w : World)
    (baseDir : string) : list string :=
  match readdir D w baseDir with
  | Thrown _ => []
  | Returned items =>
      match keepDirectories P D w baseDir items [] with
      | Thrown _ => []
      | Returned userDirs => userDirs
      end
  end.

Record FileInfo := {
  file_name : string;
  file_size : Z;
  file_modified : string;
  file_path : string
}.

Record UserDirectoryStats := {
  stats_username : string;
  directoryPath : string;
  totalFiles : Z;
  totalSize : Z;
  stats_files : list FileInfo;
  exists_ : bool
}.

(** The loop of [getUserDirectoryStats]. *)
Fixpoint countFiles (P : Platform) (D : Directories) (w : World) (userDir : string)
    (items : list string) (stats : UserDirectoryStats) : Outcome UserDirectoryStats :=
  match items with
  | [] => Returned stats
  | item :: rest =>
      let itemPath := pathJoin P [userDir; item] in
      match stat D w itemPath with
      | Thrown cause => Thrown cause
      | Returned st =>
          countFiles P D w userDir rest
            (if isFile st then
               {| stats_username := stats_username stats;
                  directoryPath := directoryPath stats;
                  totalFiles := totalFiles stats + 1;
                  totalSize := totalSize stats + stat_size st;
                  stats_files :=
                    stats_files stats
                    ++ [{| file_name := item; file_size := stat_size st;
                           file_modified := stat_mtime st; file_path := itemPath |}];
                  exists_ := exists_ stats |}
             else stats)
      end
  end.

Definition getUserDirectoryStats (P : Platform) (D : Directories) (w : World)
    (baseDir username : string) : UserDirectoryStats :=
  let userDir := getUserDirectory P baseDir username in
  let missing :=
    {| stats_username := username; directoryPath := userDir; totalFiles := 0;
       totalSize := 0; stats_files := []; exists_ := false |} in
  match readdir D w userDir with
  | Thrown _ => missing
  | Returned items =>
      match countFiles P D w userDir items
              {| stats_username := username; directoryPath := userDir; totalFiles := 0;
                 totalSize := 0; stats_files := []; exists_ := true |} with
      | Thrown _ => missing
      | Returned stats => stats
      end
  end.

Record CleanupResult := {
  cleanup_username : string;
  filesRemoved : Z;
  spaceFreed : Z;
  errors : list string
}.

Definition defaultKeepPatterns : list string := ["_data.csv"; "profile_image"; "banner_image"].

(** [keepPatterns.some(pattern => item.includes(pattern))]. *)
Definition shouldKeep (keepPatterns : list string) (item : string) : bool :=
  existsb (fun pattern => JsText.includes pattern item) keepPatterns.

(** The loop of [cleanupUserDirectory].  [result] is updated in place, so
    what was counted before an error of [stat] stays counted; the size of
    a file is added before its removal is tried. *)
Fixpoint cleanupItems (P : Platform) (D : Directories) (userDir : string)
    (keepPatterns : list string) (items : list string)
    (st : World * CleanupResult) : World * CleanupResult :=
  match items with
  | [] => st
  | item :: rest =>
      let '(w, result) := st in
      let itemPath := pathJoin P [userDir; item] in
      match stat D w itemPath with
      | Thrown cause =>
          (w, {| cleanup_username := cleanup_username result;
                 filesRemoved := filesRemoved result;
                 spaceFreed := spaceFreed result;
                 errors := errors result ++ ["Failed to cleanup directory: " +:+ cause] |})
      | Returned stats =>
          if isFile stats && negb (shouldKeep keepPatterns item) then
            let result :=
              {| cleanup_username := cleanup_username result;
                 filesRemoved := filesRemoved result;
                 spaceFreed := spaceFreed result + stat_size stats;
                 errors := errors result |} in
            match removeError D w itemPath with
            | Some cause =>
                cleanupItems P D userDir keepPatterns rest
                  (w, {| cleanup_username := cleanup_username result;
                         filesRemoved := filesRemoved result;
                         spaceFreed := spaceFreed result;
                         errors := errors result
                                   ++ ["Failed to remove " +:+ item +:+ ": " +:+ cause] |})
            | None =>
                cleanupItems P D userDir keepPatterns rest
                  (remove itemPath w,
                   {| cleanup_username := cleanup_username result;
                      filesRemoved := filesRemoved result + 1;
                      spaceFreed := spaceFreed result;
                      errors := errors result |})
            end
          else cleanupItems P D userDir keepPatterns rest (w, result)
      end
  end.

Definition cleanupUserDirectory (P : Platform) (D : Directories) (baseDir username : string)
    (keepPatterns : list string) (w : World) : World * CleanupResult :=
  let userDir := getUserDirectory P baseDir username in
  let result :=
    {| cleanup_username := username; filesRemoved := 0; spaceFreed := 0; errors := [] |} in
  match readdir D w userDir with
  | Thrown cause =>
      (w, {| cleanup_username := username; filesRemoved := 0; spaceFreed := 0;
             errors := ["Failed to cleanup directory: " +:+ cause] |})
  | Returned items => cleanupItems P D userDir keepPatterns items (w, result)
  end.

Record DirectorySummary := {
  totalUsers : Z;
  summary_totalFiles : Z;
  summary_totalSize : Z;
  users : list UserDirectoryStats
}.

(** [createDirectorySummary]: the totals are summed user by user. *)
Definition addUser (P : Platform) (D : Directories) (w : World) (baseDir : string)
    (summary : DirectorySummary) (username : string) : DirectorySummary :=
  let stats := getUserDirectoryStats P D w baseDir username in
  {| totalUsers := totalUsers summary;
     summary_totalFiles := summary_totalFiles summary + totalFiles stats;
     summary_totalSize := summary_totalSize summary + totalSize stats;
     users := users summary ++ [stats] |}.

Definition createDirectorySummary (P : Platform) (D : Directories) (w : World)
    (baseDir : string) : DirectorySummary :=
  let userDirs := getAllUserDirectories P D w baseDir in
  fold_left (addUser P D w baseDir) userDirs
    {| totalUsers := Z.of_nat (length userDirs); summary_totalFiles := 0;
       summary_totalSize := 0; users := [] |}.

End FolderManager.

(** ** Regular expressions, as the code uses them

    A backtracking matcher in the order ECMAScript tries the
    alternatives: [run] lists the states a pattern can end in, first
    choice first, and a search takes the first state of the first start
    position that has one.  Quantifiers are greedy, an iteration of a
    quantifier that consumes nothing is dropped, and the groups inside a
    quantifier are cleared when an iteration starts.  Positions count
    bytes; the patterns of the code only bind ASCII text. *)

Module Regex.

Inductive Re :=
| Eps
| Chr (c : ascii)
| Range (ranges : list (ascii * ascii))
| AnyChar
| Start
| End_
| Seq (a b : Re)
| Alt (a b : Re)
| Opt (a : Re)
| Star (a : Re)
| Plus (a : Re)
| Group (index : nat) (a : Re).

(** A literal text, and a sequence of patterns. *)
Fixpoint lit (s : string) : Re :=
  match s with
  | EmptyString => Eps
  | String c s' => Seq (Chr c) (lit s')
  end.

Fixpoint seq (rs : list Re) : Re :=
  match rs with
  | [] => Eps
  | r :: rs' => Seq r (seq rs')
  end.

(** Where the matcher stands: the bytes read so far, the text left, and
    the spans of the groups bound, the latest binding first. *)
Record State := {
  pos : nat;
  rest : string;
  caps : list (nat * (nat * nat))
}.

Definition advance (st : State) (n : nat) (s : string) : State :=
  {| pos := pos st + n; rest := s; caps := caps st |}.

(** The [i] flag: characters are compared after [Canonicalize], which on
    ASCII is [toUpperCase] and never maps a character outside ASCII to
    one inside. *)
Definition canonicalize (ignoreCase : bool) (c : ascii) : ascii :=
  if ignoreCase then JsString.upper_ascii c else c.

Definition inRange (c : ascii) (r : ascii * ascii) : bool :=
  ((nat_of_ascii (fst r) <=? nat_of_ascii c) && (nat_of_ascii c <=? nat_of_ascii (snd r)))%nat.

Definition inRanges (ignoreCase : bool) (ranges : list (ascii * ascii)) (c : ascii) : bool :=
  existsb (inRange c) ranges
  || (ignoreCase
      && (existsb (inRange (JsString.upper_ascii c)) ranges
          || existsb (inRange (JsText.lower_ascii c)) ranges)).

(** The text starts with a line terminator: U+000A, U+000D, U+2028 or
    U+2029. *)
Definition atLineTerminator (s : string) : bool :=
  match s with
  | String a s1 =>
      ((nat_of_ascii a =? 10) || (nat_of_ascii a =? 13)
       || (nat_of_ascii a =? 226)
          && match s1 with
             | String b (String c _) =>
                 (nat_of_ascii b =? 128)
                 && ((nat_of_ascii c =? 168) || (nat_of_ascii c =? 169))
             | _ => false
             end)%nat
  | EmptyString => false
  end.

Fixpoint groups (r : Re) : list nat :=
  match r with
  | Seq a b | Alt a b => groups a ++ groups b
  | Opt a | Star a | Plus a => groups a
  | Group index a => index :: groups a
  | _ => []
  end.

Definition clear (indices : list nat) (st : State) : State :=
  {| pos := pos st; rest := rest st;
     caps := List.filter (fun cap => negb (existsb (Nat.eqb (fst cap)) indices)) (caps st) |}.

Definition bind (index : nat) (from : State) (to : State) : State :=
  {| pos := pos to; rest := rest to; caps := (index, (pos from, pos to)) :: caps to |}.

Definition progress (from to : State) : bool := (pos from <? pos to)%nat.

(** As many more iterations of [body] as can be made, most first.  Each
    iteration kept reads at least one byte, so [turns] iterations are
    enough when [turns] is the length of the text left. *)
Fixpoint repeatFrom (body : State -> list State) (turns : nat) (st : State) : list State :=
  match turns with
  | O => [st]
  | S turns' =>
      flat_map (fun st' => if progress st st' then repeatFrom body turns' st' else [])
        (body st)
      ++ [st]
  end.

Fixpoint run (ignoreCase : bool) (r : Re) (st : State) : list State :=
  match r with
  | Eps => [st]
  | Chr c =>
      match rest st with
      | String d s =>
          if Ascii.eqb (canonicalize ignoreCase c) (canonicalize ignoreCase d)
          then [advance st 1 s] else []
      | EmptyString => []
      end
  | Range ranges =>
      match rest st with
      | String d s => if inRanges ignoreCase ranges d then [advance st 1 s] else []
      | EmptyString => []
      end
  | AnyChar =>
      match rest st with
      | String d s => if atLineTerminator (rest st) then [] else [advance st 1 s]
      | EmptyString => []
      end
  | Start => if (pos st =? 0)%nat then [st] else []
  | End_ => match rest st with EmptyString => [st] | _ => [] end
  | Seq a b => flat_map (run ignoreCase b) (run ignoreCase a st)
  | Alt a b => run ignoreCase a st ++ run ignoreCase b st
  | Opt a =>
      List.filter (progress st) (run ignoreCase a (clear (groups a) st)) ++ [st]
  | Star a =>
      repeatFrom (fun s => run ignoreCase a (clear (groups a) s)) (String.length (rest st)) st
  | Plus a =>
      flat_map
        (fun st' =>
           repeatFrom (fun s => run ignoreCase a (clear (groups a) s))
             (String.length (rest st')) st')
        (run ignoreCase a (clear (groups a) st))
  | Group index a => map (bind index st) (run ignoreCase a st)
  end.

(** The search of [exec]: the first start position with a match. *)
Fixpoint searchFrom (ignoreCase : bool) (r : Re) (start : nat) (s : string)
    : option (nat * State) :=
  match run ignoreCase r {| pos := start; rest := s; caps := [] |} with
  | found :: _ => Some (start, found)
  | [] =>
      match s with
      | String _ s' => searchFrom ignoreCase r (S start) s'
      | EmptyString => None
      end
  end.

Definition capture (input : string) (found : State) (index : nat) : option string :=
  match List.find (fun cap => Nat.eqb (fst cap) index) (caps found) with
  | Some (_, (from, to)) => Some (String.substring from (to - from) input)
  | None => None
  end.

Definition groupCount (r : Re) : nat := fold_right Nat.max 0%nat (groups r).

(** [input.match(r)] for a pattern without the [g] flag, and [r.exec]:
    the text matched, then the groups in order, [None] for a group that
    took no part ([undefined]). *)
Definition exec (ignoreCase : bool) (r : Re) (input : string) : option (list (option string)) :=
  match searchFrom ignoreCase r 0 input with
  | Some (start, found) =>
      Some (Some (String.substring start (pos found - start) input)
            :: map (capture input found) (List.seq 1 (groupCount r)))
  | None => None
  end.

(** [r.test(input)]. *)
Definition test (ignoreCase : bool) (r : Re) (input : string) : bool :=
  match exec ignoreCase r input with Some _ => true | None => false end.

End Regex.

(** ** [src/urlParser.ts] *)

Module TwitterUrlParser.
Import ProfileCardGenerator Regex.

(** [[a-zA-Z0-9_]] and [[0-9]]. *)
Definition word : Re :=
  Range [("a"%char, "z"%char); ("A"%char, "Z"%char); ("0"%char, "9"%char);
         ("_"%char, "_"%char)].

Definition digit : Re := Range [("0"%char, "9"%char)].

Definition TWITTER_URL_PATTERNS : list Re := [
  seq [Start; lit "http"; Opt (Chr "s"); lit "://"; Opt (Group 1 (lit "www."));
       lit "twitter.com/"; Group 2 (Plus word); Opt (Chr "/"); End_];
  seq [Start; lit "http"; Opt (Chr "s"); lit "://"; Opt (Group 1 (lit "www."));
       lit "twitter.com/"; Group 2 (Plus word); lit "/status/"; Star AnyChar; End_];
  seq [Start; lit "http"; Opt (Chr "s"); lit "://"; Opt (Group 1 (lit "www."));
       lit "twitter.com/"; Group 2 (Plus word); lit "/with_replies"; Opt (Chr "/"); End_];
  seq [Start; lit "http"; Opt (Chr "s"); lit "://"; Opt (Group 1 (lit "www."));
       lit "twitter.com/"; Group 2 (Plus word); lit "/media"; Opt (Chr "/"); End_];
  seq [Start; lit "http"; Opt (Chr "s"); lit "://"; Opt (Group 1 (lit "www."));
       lit "twitter.com/"; Group 2 (Plus word); lit "/likes"; Opt (Chr "/"); End_];
  seq [Start; lit "http"; Opt (Chr "s"); lit "://"; Opt (Group 1 (lit "www."));
       lit "twitter.com/"; Group 2 (Plus word); lit "/lists"; Opt (Chr "/"); End_];
  seq [Start; lit "http"; Opt (Chr "s"); lit "://"; Opt (Group 1 (lit "www."));
       lit "twitter.com/"; Group 2 (Plus word); lit "/moments"; Opt (Chr "/"); End_];
  seq [Start; lit "http"; Opt (Chr "s"); lit "://"; Opt (Group 1 (lit "www."));
       lit "x.com/"; Group 2 (Plus word); Opt (Chr "/"); End_];
  seq [Start; lit "http"; Opt (Chr "s"); lit "://"; Opt (Group 1 (lit "www."));
       lit "x.com/"; Group 2 (Plus word); lit "/status/"; Star AnyChar; End_];
  seq [Start; lit "http"; Opt (Chr "s"); lit "://"; Opt (Group 1 (lit "www."));
       lit "x.com/"; Group 2 (Plus word); lit "/with_replies"; Opt (Chr "/"); End_];
  seq [Start; lit "http"; Opt (Chr "s"); lit "://"; Opt (Group 1 (lit "www."));
       lit "x.com/"; Group 2 (Plus word); lit "/media"; Opt (Chr "/"); End_];
  seq [Start; lit "http"; Opt (Chr "s"); lit "://"; Opt (Group 1 (lit "www."));
       lit "x.com/"; Group 2 (Plus word); lit "/likes"; Opt (Chr "/"); End_];
  seq [Start; lit "http"; Opt (Chr "s"); lit "://"; Opt (Group 1 (lit "www."));
       lit "x.com/"; Group 2 (Plus word); lit "/lists"; Opt (Chr "/"); End_];
  seq [Start; lit "http"; Opt (Chr "s"); lit "://"; Opt (Group 1 (lit "www."));
       lit "x.com/"; Group 2 (Plus word); lit "/moments"; Opt (Chr "/"); End_];
  seq [Start; lit "http"; Opt (Chr "s"); lit "://mobile.twitter.com/";
       Group 1 (Plus word); Opt (Chr "/"); End_];
  seq [Start; lit "http"; Opt (Chr "s"); lit "://mobile.twitter.com/";
       Group 1 (Plus word); lit "/status/"; Star AnyChar; End_];
  seq [Start; Opt (Chr "@"); Group 1 (Plus word); End_]
].

(** [isValidUsername].  A name that passes the second test is ASCII, so
    its length in bytes is its [length]. *)
Definition isValidUsername (username : string) : bool :=
  if negb (JsString.truthy username)
     || (String.length username =? 0)%nat
     || (15 <? String.length username)%nat
  then false
  else if negb (test false (seq [Start; Plus word; End_]) username) then false
  else if test false (seq [Start; digit]) username then false
  else true.

(** The [for] loop of [extractUsername]: the last group of the first
    pattern that matches and binds a valid name. *)
Fixpoint firstUsername (cleanUrl : string) (patterns : list Re) : option string :=
  match patterns with
  | [] => None
  | pattern :: more =>
      match exec false pattern cleanUrl with
      | Some groups =>
          match last groups with
          | Some (Some username) =>
              if JsString.truthy username && isValidUsername username
              then Some username
              else firstUsername cleanUrl more
          | _ => firstUsername cleanUrl more
          end
      | None => firstUsername cleanUrl more
      end
  end.

Definition extractUsername (url : string) : Outcome string :=
  if negb (JsString.truthy url) then Thrown "Invalid URL: URL must be a non-empty string"
  else
    let cleanUrl := JsText.trim url in
    match firstUsername cleanUrl TWITTER_URL_PATTERNS with
    | Some username => Returned username
    | None =>
        Thrown ("Invalid Twitter URL: Could not extract username from "
                +:+ String JsString.dquote (url +:+ String JsString.dquote EmptyString))
    end.

Definition isValidTwitterUrl (url : string) : bool :=
  match extractUsername url with
  | Returned _ => true
  | Thrown _ => false
  end.

Definition normalizeUrl (url : string) : Outcome string :=
  match extractUsername url with
  | Returned username => Returned ("https://twitter.com/" +:+ username)
  | Thrown message => Thrown message
  end.

End TwitterUrlParser.

(** ** What is observed of a user name *)

Module UrlShapes.

(** A letter, a digit or an underscore. *)
Definition isWord (c : ascii) : bool :=
  let n := nat_of_ascii c in
  ((97 <=? n) && (n <=? 122) || (65 <=? n) && (n <=? 90)
   || (48 <=? n) && (n <=? 57) || (n =? 95))%nat.

Fixpoint allWord (s : string) : bool :=
  match s with
  | EmptyString => true
  | String c rest => isWord c && allWord rest
  end.

Definition startsWithDigit (s : string) : bool :=
  match s with
  | String c _ => Observe.is_digit c
  | EmptyString => false
  end.

(** A printable ASCII character other than the space. *)
Definition graphic (c : ascii) : bool :=
  let n := nat_of_ascii c in ((33 <=? n) && (n <=? 126))%nat.

(** The text does not go on with a word character. *)
Definition stops (s : string) : bool :=
  match s with
  | String c _ => negb (isWord c)
  | EmptyString => true
  end.

(** The names Twitter's rules allow, as [isValidUsername] states them. *)
Definition validName (u : string) : Prop :=
  u <> EmptyString
  /\ (String.length u <= 15)%nat
  /\ allWord u = true
  /\ startsWithDigit u = false.

End UrlShapes.

(** ** The asset downloader ([assetDownloader.ts]) *)

Module AssetDownloader.
Import Types Host ProfileCardGenerator FsExtra Regex.



Definition typeMap : list (string * string) :=
  [("image/jpeg", ".jpg"); ("image/jpg", ".jpg"); ("image/png", ".png");
   ("image/gif", ".gif"); ("image/webp", ".webp"); ("image/svg+xml", ".svg")]%string.

(** The properties [typeMap] inherits from [Object.prototype] whose names
    are in lower case, with the text a template literal gives for them. *)
Definition inherited : list (string * string) :=
  [("constructor", "function Object() { [native code] }");
   ("__proto__", "[object Object]")]%string.

Fixpoint property (key : string) (entries : list (string * string)) : option string :=
  match entries with
  | [] => None
  | (k, v) :: rest => if String.eqb k key then Some v else property key rest
  end.

(** [typeMap[contentType?.toLowerCase()] || null].  No key differs from
    the lower case of an ASCII key by a character outside ASCII. *)
Definition getExtensionFromContentType (contentType : option string) : option string :=
  match contentType with
  | Some value => property (JsText.toLowerCase value) (typeMap ++ inherited)
  | None => None
  end.

(** [/\.(jpg|jpeg|png|gif|webp|svg)(\?|$)/i]. *)
Definition extensionPattern : Re :=
  seq [Chr ".";
       Group 1 (Alt (lit "jpg") (Alt (lit "jpeg") (Alt (lit "png")
                  (Alt (lit "gif") (Alt (lit "webp") (lit "svg"))))));
       Group 2 (Alt (Chr "?") End_)].

(** [getExtensionFromUrl]; the first group takes part in every match. *)
Definition getExtensionFromUrl (url : string) : option string :=
  match exec true extensionPattern url with
  | Some groups =>
      match groups !! 1%nat with
      | Some (Some extension) => Some ("." +:+ JsText.toLowerCase extension)
      | _ => None
      end
  | None => None
  end.

(** The extension [downloadImage] settles on. *)
Definition chooseExtension (contentType : option string) (imageUrl : string) : string :=
  match getExtensionFromContentType contentType with
  | Some extension => extension
  | None =>
      match getExtensionFromUrl imageUrl with
      | Some extension => extension
      | None => ".jpg"
      end
  end.




End AssetDownloader.

Module AssetInputs.
Import ProfileCardGenerator AssetDownloader.


End AssetInputs.


(** ** The extensions a downloaded file can get *)

Module Extensions.
Import AssetDownloader.

(** The names of the pattern of [getExtensionFromUrl]. *)
Definition imageExtensions : list string := ["jpg"; "jpeg"; "png"; "gif"; "webp"; "svg"].


End Extensions.

(** * Proofs *)

Import Types Host ProfileCardGenerator Observe.

(** ** Strings *)

Lemma string_app_nil_l (t : string) : EmptyString +:+ t = t.
Proof. reflexivity. Qed.

Lemma string_app_cons (a : ascii) (s t : string) : String a s +:+ t = String a (s +:+ t).
Proof. reflexivity. Qed.

Lemma string_app_nil_r (s : string) : s +:+ EmptyString = s.
Proof. induction s as [|a s IH]; [reflexivity|]. rewrite string_app_cons, IH. reflexivity. Qed.

Lemma string_app_assoc (a b c : string) : (a +:+ b) +:+ c = a +:+ (b +:+ c).
Proof.
  induction a as [|x a IH]; [reflexivity|].
  rewrite !string_app_cons, IH. reflexivity.
Qed.

Lemma split_nonempty sep s : JsString.split sep s <> [].
Proof.
  destruct s as [|c s]; simpl; [congruence|].
  destruct (Ascii.eqb c sep); [congruence|].
  destruct (JsString.split sep s); congruence.
Qed.

(** There is a second piece exactly when the separator occurs. *)
Lemma split_second sep s :
  JsString.split sep s !! 1%nat = None <-> JsString.includes sep s = false.
Proof.
  induction s as [|c s IH]; [split; reflexivity|].
  cbn [JsString.split JsString.includes].
  destruct (Ascii.eqb c sep); cbn [orb].
  - pose proof (split_nonempty sep s) as Hne.
    destruct (JsString.split sep s); [contradiction|]. split; discriminate.
  - pose proof (split_nonempty sep s) as Hne.
    destruct (JsString.split sep s) as [|piece pieces]; [contradiction|]. exact IH.
Qed.

Lemma join_empty_cons s l :
  JsString.join EmptyString (s :: l) = s +:+ JsString.join EmptyString l.
Proof. destruct l; simpl; [symmetry; apply string_app_nil_r | reflexivity]. Qed.

(** ** The wrap loop of [drawDescription] *)

Lemma textBlock_app x y l1 l2 :
  textBlock x y (l1 ++ l2)
  = textBlock x y l1 ++ textBlock x (y + lineHeight * Z.of_nat (length l1)) l2.
Proof.
  revert y. induction l1 as [|l l1 IH]; intros y; simpl.
  - f_equal. lia.
  - rewrite IH. do 3 f_equal. lia.
Qed.

Lemma renderWords_app g1 g2 : renderWords (g1 ++ g2) = renderWords g1 +:+ renderWords g2.
Proof.
  unfold renderWords. induction g1 as [|w g1 IH]; [reflexivity|].
  rewrite <- app_comm_cons, !map_cons, !join_empty_cons, IH, !string_app_assoc. reflexivity.
Qed.

Lemma renderWords_cons w g : renderWords (w :: g) = w +:+ " " +:+ renderWords g.
Proof.
  unfold renderWords. rewrite map_cons, join_empty_cons, string_app_assoc. reflexivity.
Qed.

Lemma renderWords_truthy g : JsString.truthy (renderWords g) = negb (bool_decide (g = [])).
Proof.
  destruct g as [|w g]; [reflexivity|].
  rewrite renderWords_cons. destruct w; rewrite ?string_app_cons; reflexivity.
Qed.

Lemma renderWords_snoc g w : renderWords g +:+ w +:+ " " = renderWords (g ++ [w]).
Proof. rewrite renderWords_app. reflexivity. Qed.

(** The words of a description, each followed by a space, spell the
    description followed by a space. *)
Lemma renderWords_split d :
  renderWords (JsString.split JsString.space d) = d +:+ " ".
Proof.
  induction d as [|c d IH]; [reflexivity|].
  cbn [JsString.split].
  destruct (Ascii.eqb_spec c JsString.space) as [->|Hc].
  - rewrite renderWords_cons, IH. reflexivity.
  - destruct (JsString.split JsString.space d) as [|piece pieces] eqn:Hs.
    + exfalso. exact (split_nonempty _ _ Hs).
    + rewrite renderWords_cons in *. rewrite !string_app_cons. f_equal. exact IH.
Qed.

(** The invariant of the loop.  The line in hand is [renderWords g0]; the
    loop flushes the groups [flushed] and ends with [glast] in hand. *)
Lemma wrapWords_groups P maxWidth x words :
  forall g0 ctx y,
    (g0 = [] \/ lineOk P (font ctx) maxWidth g0) ->
    exists flushed glast,
      wrapWords P maxWidth x words (ctx, renderWords g0, y)
      = ({| font := font ctx;
            calls := calls ctx ++ textBlock x y (map renderWords flushed) |},
         renderWords glast,
         y + lineHeight * Z.of_nat (length flushed))
      /\ concat flushed ++ glast = g0 ++ words
      /\ Forall (fun g => g <> []) flushed
      /\ Forall (lineOk P (font ctx) maxWidth) flushed
      /\ (glast = [] \/ lineOk P (font ctx) maxWidth glast)
      /\ (g0 <> [] \/ words <> [] -> glast <> [])
      /\ (g0 <> [] -> words <> [] ->
          wider (measureText P (font ctx) (renderWords (g0 ++ words))) maxWidth = true ->
          flushed <> []).
Proof.
  induction words as [|word rest IH]; intros g0 ctx y Hg0.
  - exists [], g0. simpl. rewrite !app_nil_r, Z.mul_0_r, Z.add_0_r.
    destruct ctx; simpl. repeat split; auto.
    intros [H|H]; congruence.
  - cbn [wrapWords]. rewrite renderWords_snoc, renderWords_truthy.
    destruct (wider (measureText P (font ctx) (renderWords (g0 ++ [word]))) maxWidth) eqn:Hw;
      [destruct (bool_decide (g0 = [])) eqn:Hd|]; cbn [negb andb].
    + (* the first word, too wide on its own: it is kept in hand *)
      apply bool_decide_eq_true in Hd. subst g0.
      destruct (IH [word] ctx y) as (fl & gl & Heq & Hcat & Hne & Hok & Hlast & Hnonempty & Hcount).
      { right. left. reflexivity. }
      exists fl, gl. repeat split; auto.
    + (* the line in hand is flushed and the word starts the next one *)
      apply bool_decide_eq_false in Hd.
      destruct (IH [word] (call (FillText (renderWords g0) x y) ctx) (y + lineHeight))
        as (fl & gl & Heq & Hcat & Hne & Hok & Hlast & Hnonempty & Hcount).
      { right. left. reflexivity. }
      exists (g0 :: fl), gl.
      replace (word +:+ " ") with (renderWords [word]) by reflexivity.
      rewrite Heq. cbn [font call calls length map textBlock concat].
      repeat split.
      * f_equal; [f_equal|].
        -- f_equal. rewrite <- app_assoc. reflexivity.
        -- lia.
      * rewrite <- app_assoc, Hcat. reflexivity.
      * constructor; assumption.
      * constructor; [|assumption]. destruct Hg0 as [?|?]; [contradiction|assumption].
      * assumption.
      * intros _. apply Hnonempty. left. congruence.
      * intros _ _ _. congruence.
    + (* the word fits: the line grows *)
      destruct (IH (g0 ++ [word]) ctx y) as (fl & gl & Heq & Hcat & Hne & Hok & Hlast & Hnonempty & Hcount).
      { right. right. assumption. }
      exists fl, gl. repeat split; auto.
      * rewrite Hcat, <- app_assoc. reflexivity.
      * intros _. apply Hnonempty. left. intros H. apply app_eq_nil in H. destruct H; congruence.
      * intros Hg Hwords Hwide. apply Hcount.
        -- intros H. apply app_eq_nil in H. destruct H; congruence.
        -- intros ->. congruence.
        -- rewrite <- app_assoc. exact Hwide.
Qed.

(** What [drawDescription] adds to the context: its two settings, then
    one [fillText] for each group of a partition of the words. *)
Lemma drawDescription_groups P description opts ctx :
  exists groups,
    concat groups = JsString.split JsString.space description
    /\ Forall (fun g => g <> []) groups
    /\ groups <> []
    /\ calls (drawDescription P description opts ctx)
       = calls ctx
         ++ [SetFillStyle (Colour (textColor opts)); SetFont (descriptionFont opts)]
         ++ textBlock 60 (descriptionY opts) (map renderWords groups)
    /\ Forall (lineOk P (descriptionFont opts) (width opts - 120)) groups
    /\ (wider (measureText P (descriptionFont opts) (description +:+ " ")) (width opts - 120) = true ->
        (2 <= length (JsString.split JsString.space description))%nat ->
        (2 <= length groups)%nat).
Proof.
  unfold drawDescription.
  set (ctx2 := setFont _ (call _ ctx)).
  fold (descriptionY opts).
  pose proof (renderWords_split description) as Hall.
  destruct (JsString.split JsString.space description) as [|w1 rest] eqn:Hwords.
  { exfalso. exact (split_nonempty _ _ Hwords). }
  cbn [wrapWords JsString.truthy andb]. rewrite Bool.andb_false_r.
  change (EmptyString +:+ w1 +:+ " ") with (renderWords [w1]).
  destruct (wrapWords_groups P (width opts - 120) 60 rest [w1] ctx2 (descriptionY opts))
    as (fl & gl & Heq & Hcat & Hne & Hok & Hlast & Hnonempty & Hcount).
  { right. left. reflexivity. }
  rewrite Heq.
  assert (Hgl : gl <> []) by (apply Hnonempty; left; congruence).
  rewrite renderWords_truthy. rewrite bool_decide_eq_false_2 by exact Hgl. cbn [negb].
  exists (fl ++ [gl]). repeat split.
  - rewrite concat_app. simpl. rewrite app_nil_r. exact Hcat.
  - apply Forall_app. split; [exact Hne|]. constructor; [exact Hgl|constructor].
  - intros H. apply app_eq_nil in H. destruct H; congruence.
  - cbn [call calls font]. subst ctx2. cbn [setFont call calls].
    rewrite map_app, textBlock_app, length_map. cbn [map textBlock].
    rewrite <- !app_assoc. reflexivity.
  - apply Forall_app. split; [exact Hok|].
    constructor; [|constructor]. destruct Hlast as [?|?]; [contradiction|assumption].
  - intros Hwide Hlen. rewrite length_app. simpl.
    assert (fl <> []) as Hfl.
    { apply Hcount; [congruence| |].
      - destruct rest; [simpl in Hlen; lia|congruence].
      - subst ctx2. cbn [font setFont]. fold (descriptionFont opts).
        change ([w1] ++ rest) with (w1 :: rest). rewrite Hall. exact Hwide. }
    destruct fl; [congruence|simpl; lia].
Qed.

(** ** What each drawing step adds to the log *)














(** ** Layout without a banner *)




(** ** Word wrap *)

(** C4, as amended.  For a description of at least two words whose
    measured width, with the space the loop appends, exceeds the budget
    [width - 120]: the lines written are the groups of a partition of the
    word sequence into at least two non-empty runs of consecutive words,
    each word followed by one space; a line either holds a single word or
    measures within the budget; the lines are written at x = 60, 30 pixels
    apart, the last group included. *)
Theorem drawDescription_wraps P description opts ctx :
  (2 <= length (JsString.split JsString.space description))%nat ->
  wider (measureText P (descriptionFont opts) (description +:+ " ")) (width opts - 120) = true ->
  exists groups,
    concat groups = JsString.split JsString.space description
    /\ Forall (fun g => g <> []) groups
    /\ (2 <= length groups)%nat
    /\ Forall (lineOk P (descriptionFont opts) (width opts - 120)) groups
    /\ calls (drawDescription P description opts ctx)
       = calls ctx
         ++ [SetFillStyle (Colour (textColor opts)); SetFont (descriptionFont opts)]
         ++ textBlock 60 (descriptionY opts) (map renderWords groups).
Proof.
  intros Hwords Hwide.
  destruct (drawDescription_groups P description opts ctx)
    as (groups & Hcat & Hne & _ & Hcalls & Hok & Hcount).
  exists groups. repeat split; auto.
Qed.

(** The theorem at the description of [ada] on a canvas 200 pixels wide. *)
Lemma drawDescription_wraps_witness :
  exists groups,
    concat groups = ["Mathematician"; "and"; "writer."]
    /\ (2 <= length groups)%nat
    /\ calls (drawDescription Demo.host (description Demo.ada)
                (mergeOptions defaultOptions (Inputs.withWidth 200)) getContext)
       = [SetFillStyle (Colour "#ffffff"); SetFont "20px Arial, sans-serif"]
         ++ textBlock 60 552 (map renderWords groups).
Proof.
  destruct (drawDescription_wraps Demo.host (description Demo.ada)
              (mergeOptions defaultOptions (Inputs.withWidth 200)) getContext)
    as (groups & Hcat & _ & Hlen & _ & Hcalls).
  - vm_compute. lia.
  - reflexivity.
  - exists groups. split; [exact Hcat|]. split; [exact Hlen|exact Hcalls].
Defined.

(** C4 as stated fails on a word wider than the budget: on a canvas 200
    pixels wide (budget 80) the single word [Mathematician] measures 130,
    is written as one line, and that line measures 140. *)
Lemma long_word_is_one_overlong_line :
  let opts := mergeOptions defaultOptions (Inputs.withWidth 200) in
  wider (measureText Demo.host (descriptionFont opts) "Mathematician") (width opts - 120) = true
  /\ fillTexts (calls (drawDescription Demo.host "Mathematician" opts getContext))
     = [("Mathematician ", 60, 552)]
  /\ wider (measureText Demo.host (descriptionFont opts) "Mathematician ") (width opts - 120)
     = true.
Proof. cbv zeta. repeat split; reflexivity. Qed.

(** ** [generateCard] *)

Lemma generateCard_unfold P now assets options out w :
  let opts := mergeOptions defaultOptions options in
  let wp := fst (paint P assets opts w) in
  let canvas := canvasOf opts (snd (paint P assets opts w)) in
  let path := resolvedPath P now assets opts out in
  generateCard P now assets options out w
  = match createCanvasError P (width opts) (height opts) with
    | Some message => (w, failed message)
    | None =>
        match ensureDirError P (pathDirname P path) with
        | Some message => (wp, failed message)
        | None =>
            match toBufferError P canvas with
            | Some message => (wp, failed message)
            | None =>
                match writeFileError P path with
                | Some message => (wp, failed message)
                | None =>
                    (writeFile path (toBuffer P canvas None) wp,
                     succeeded path opts (toBuffer P canvas None))
                end
            end
        end
    end.
Proof.
  intros opts wp canvas path. unfold generateCard. fold opts.
  subst wp canvas path. unfold resolvedPath.
  destruct (paint P assets opts w) as [w' ctx]. reflexivity.
Qed.

Lemma loadImage_files P w w' path :
  files w = files w' -> loadImage P w path = loadImage P w' path.
Proof. unfold loadImage. intros ->. reflexivity. Qed.

(** A stage of [paint] leaves the files alone and only adds to the console. *)
Lemma extends_refl w : extends w w.
Proof. split; [reflexivity|]. exists []. rewrite app_nil_r. reflexivity. Qed.

Lemma extends_trans w1 w2 w3 : extends w1 w2 -> extends w2 w3 -> extends w1 w3.
Proof.
  intros [Hf1 [ws1 Hc1]] [Hf2 [ws2 Hc2]]. split; [congruence|].
  exists (ws1 ++ ws2). rewrite Hc2, Hc1, app_assoc. reflexivity.
Qed.

Lemma extends_warn msg w : extends w (warn msg w).
Proof. split; [reflexivity|]. exists [msg]. reflexivity. Qed.

Lemma drawBanner_extends P path opts w ctx :
  extends w (fst (drawBanner P path opts (w, ctx))).
Proof.
  unfold drawBanner. destruct (loadImage P w path); cbn [fst];
    [apply extends_refl|apply extends_warn].
Qed.

Lemma drawProfileImage_extends P path opts w ctx :
  extends w (fst (drawProfileImage P path opts (w, ctx))).
Proof.
  unfold drawProfileImage. destruct (loadImage P w path); cbn [fst];
    [apply extends_refl|apply extends_warn].
Qed.

Lemma paint_stages P assets opts w :
  paint P assets opts w
  = let st := avatarStage P assets opts
                (bannerStage P assets opts
                   (w, drawBackground opts (setupCanvas opts getContext))) in
    (fst st, textStages P (profileData assets) opts (snd st)).
Proof.
  unfold paint, avatarStage, bannerStage, textStages.
  match goal with |- context [let '(_, _) := ?st in _] => destruct st end.
  reflexivity.
Qed.

Lemma bannerStage_extends P assets opts w ctx :
  extends w (fst (bannerStage P assets opts (w, ctx))).
Proof.
  unfold bannerStage. destruct (showBanner opts); [|apply extends_refl].
  destruct (present (bannerImagePath assets)); [|apply extends_refl].
  apply drawBanner_extends.
Qed.

Lemma avatarStage_extends P assets opts w ctx :
  extends w (fst (avatarStage P assets opts (w, ctx))).
Proof.
  unfold avatarStage. destruct (present (profileImagePath assets)); [|apply extends_refl].
  apply drawProfileImage_extends.
Qed.

Lemma paint_extends P assets opts w : extends w (fst (paint P assets opts w)).
Proof.
  rewrite paint_stages. cbn [fst].
  set (ctx0 := drawBackground opts (setupCanvas opts getContext)).
  pose proof (bannerStage_extends P assets opts w ctx0) as H1.
  destruct (bannerStage P assets opts (w, ctx0)) as [w1 ctx1]. cbn [fst] in H1.
  pose proof (avatarStage_extends P assets opts w1 ctx1) as H2.
  eapply extends_trans; eassumption.
Qed.

Lemma paint_files P assets opts w : files (fst (paint P assets opts w)) = files w.
Proof. apply paint_extends. Qed.

Lemma loadImage_agree P w1 w2 path :
  files w1 !! path = files w2 !! path -> loadImage P w1 path = loadImage P w2 path.
Proof. unfold loadImage. intros ->. reflexivity. Qed.

Lemma drawBanner_agree P path opts w1 w2 ctx :
  files w1 !! path = files w2 !! path ->
  snd (drawBanner P path opts (w1, ctx)) = snd (drawBanner P path opts (w2, ctx)).
Proof.
  intros H. unfold drawBanner. rewrite (loadImage_agree P w1 w2 path H).
  destruct (loadImage P w2 path); reflexivity.
Qed.

Lemma drawProfileImage_agree P path opts w1 w2 ctx :
  files w1 !! path = files w2 !! path ->
  snd (drawProfileImage P path opts (w1, ctx)) = snd (drawProfileImage P path opts (w2, ctx)).
Proof.
  intros H. unfold drawProfileImage. rewrite (loadImage_agree P w1 w2 path H).
  destruct (loadImage P w2 path); reflexivity.
Qed.

Lemma sameAssetFiles_extends assets w1 w2 w1' w2' :
  sameAssetFiles assets w1 w2 -> extends w1 w1' -> extends w2 w2' ->
  sameAssetFiles assets w1' w2'.
Proof.
  intros H [Hf1 _] [Hf2 _] path Hp. rewrite Hf1, Hf2. apply H, Hp.
Qed.

Lemma paint_agree P assets opts w1 w2 :
  sameAssetFiles assets w1 w2 ->
  snd (paint P assets opts w1) = snd (paint P assets opts w2).
Proof.
  intros Hsame. rewrite !paint_stages. cbn [snd]. f_equal.
  set (ctx0 := drawBackground opts (setupCanvas opts getContext)).
  assert (Hb : snd (bannerStage P assets opts (w1, ctx0))
               = snd (bannerStage P assets opts (w2, ctx0))).
  { unfold bannerStage. destruct (showBanner opts); [|reflexivity].
    destruct (present (bannerImagePath assets)) as [path|] eqn:Hp; [|reflexivity].
    apply drawBanner_agree, Hsame. right. exact Hp. }
  pose proof (bannerStage_extends P assets opts w1 ctx0) as He1.
  pose proof (bannerStage_extends P assets opts w2 ctx0) as He2.
  destruct (bannerStage P assets opts (w1, ctx0)) as [w1' ctx1].
  destruct (bannerStage P assets opts (w2, ctx0)) as [w2' ctx2].
  cbn [fst snd] in *. subst ctx2.
  unfold avatarStage.
  destruct (present (profileImagePath assets)) as [path|] eqn:Hp; [|reflexivity].
  apply drawProfileImage_agree.
  apply (sameAssetFiles_extends assets w1 w2 w1' w2' Hsame He1 He2). left. exact Hp.
Qed.

Lemma sameAssetFiles_refl_files assets w w' :
  files w = files w' -> sameAssetFiles assets w w'.
Proof. intros H path _. rewrite H. reflexivity. Qed.

(** ** Failed image loads *)

Lemma paint_banner_failure P assets opts w path :
  showBanner opts = true ->
  present (bannerImagePath assets) = Some path ->
  loadImage P w path = None ->
  In "Failed to load banner image:" (console (fst (paint P assets opts w)))
  /\ snd (paint P assets opts w) = snd (paint P (withoutBanner assets) opts w).
Proof.
  intros Hsb Hp Hload. rewrite !paint_stages. cbn [fst snd].
  set (ctx0 := drawBackground opts (setupCanvas opts getContext)).
  assert (Hb : bannerStage P assets opts (w, ctx0)
               = (warn "Failed to load banner image:" w, ctx0)).
  { unfold bannerStage, drawBanner. rewrite Hsb, Hp, Hload. reflexivity. }
  assert (Hb' : bannerStage P (withoutBanner assets) opts (w, ctx0) = (w, ctx0)).
  { unfold bannerStage. cbn. destruct (showBanner opts); reflexivity. }
  rewrite Hb, Hb'. split.
  - destruct (avatarStage_extends P assets opts (warn "Failed to load banner image:" w) ctx0)
      as [_ [ws Hc]].
    rewrite Hc. cbn [warn console]. rewrite !in_app_iff. left. right. left. reflexivity.
  - f_equal. unfold avatarStage. cbn [withoutBanner profileImagePath].
    destruct (present (profileImagePath assets)); [|reflexivity].
    apply drawProfileImage_agree. reflexivity.
Qed.

Lemma paint_avatar_failure P assets opts w path :
  present (profileImagePath assets) = Some path ->
  loadImage P w path = None ->
  In "Failed to load profile image:" (console (fst (paint P assets opts w)))
  /\ snd (paint P assets opts w) = snd (paint P (withoutAvatar assets) opts w).
Proof.
  intros Hp Hload. rewrite !paint_stages. cbn [fst snd].
  set (ctx0 := drawBackground opts (setupCanvas opts getContext)).
  change (bannerStage P (withoutAvatar assets) opts (w, ctx0))
    with (bannerStage P assets opts (w, ctx0)).
  pose proof (bannerStage_extends P assets opts w ctx0) as [Hf _].
  destruct (bannerStage P assets opts (w, ctx0)) as [w1 ctx1]. cbn [fst] in Hf.
  unfold avatarStage at 1 2. cbn [withoutAvatar profileImagePath present].
  rewrite Hp. unfold drawProfileImage.
  rewrite (loadImage_files P w1 w path Hf), Hload. cbn [fst snd warn console].
  split; [|reflexivity].
  rewrite in_app_iff. right. left. reflexivity.
Qed.

Lemma generateCard_same_canvas P now a1 a2 options out w :
  username (profileData a1) = username (profileData a2) ->
  snd (paint P a1 (mergeOptions defaultOptions options) w)
  = snd (paint P a2 (mergeOptions defaultOptions options) w) ->
  snd (generateCard P now a1 options out w) = snd (generateCard P now a2 options out w)
  /\ files (fst (generateCard P now a1 options out w))
     = files (fst (generateCard P now a2 options out w)).
Proof.
  intros Hu Hc. rewrite !generateCard_unfold. cbv zeta. rewrite Hc.
  assert (Hpath : forall opts, resolvedPath P now a1 opts out = resolvedPath P now a2 opts out).
  { intros opts. unfold resolvedPath, defaultOutputPath. rewrite Hu. reflexivity. }
  rewrite Hpath.
  repeat match goal with |- context [match ?e with Some _ => _ | None => _ end] =>
    destruct e end; cbn [fst snd writeFile files];
    rewrite ?paint_files; split; reflexivity.
Qed.

(** C7.  A banner or an avatar that fails to load is logged as a warning
    and changes nothing else: the canvas painted, the result returned and
    the files written are those of the same call without that asset, so
    the other image and every text block are drawn as they would be. *)
Theorem image_failures_are_isolated P now assets options out w :
  let opts := mergeOptions defaultOptions options in
  (forall path,
      showBanner opts = true ->
      present (bannerImagePath assets) = Some path ->
      loadImage P w path = None ->
      In "Failed to load banner image:" (console (fst (paint P assets opts w)))
      /\ snd (paint P assets opts w) = snd (paint P (withoutBanner assets) opts w)
      /\ snd (generateCard P now assets options out w)
         = snd (generateCard P now (withoutBanner assets) options out w)
      /\ files (fst (generateCard P now assets options out w))
         = files (fst (generateCard P now (withoutBanner assets) options out w)))
  /\ (forall path,
      present (profileImagePath assets) = Some path ->
      loadImage P w path = None ->
      In "Failed to load profile image:" (console (fst (paint P assets opts w)))
      /\ snd (paint P assets opts w) = snd (paint P (withoutAvatar assets) opts w)
      /\ snd (generateCard P now assets options out w)
         = snd (generateCard P now (withoutAvatar assets) options out w)
      /\ files (fst (generateCard P now assets options out w))
         = files (fst (generateCard P now (withoutAvatar assets) options out w))).
Proof.
  intros opts. split; intros path.
  - intros Hsb Hp Hload.
    destruct (paint_banner_failure P assets opts w path Hsb Hp Hload) as [Hwarn Hsame].
    split; [exact Hwarn|]. split; [exact Hsame|].
    apply generateCard_same_canvas; [reflexivity|exact Hsame].
  - intros Hp Hload.
    destruct (paint_avatar_failure P assets opts w path Hp Hload) as [Hwarn Hsame].
    split; [exact Hwarn|]. split; [exact Hsame|].
    apply generateCard_same_canvas; [reflexivity|exact Hsame].
Qed.

(** Success, failure and the files, for every call. *)
Lemma generateCard_outcome P now assets options out w :
  let opts := mergeOptions defaultOptions options in
  let canvas := canvasOf opts (snd (paint P assets opts w)) in
  let path := resolvedPath P now assets opts out in
  let buffer := toBuffer P canvas None in
  let w' := fst (generateCard P now assets options out w) in
  let r := snd (generateCard P now assets options out w) in
  (success r = true <->
     createCanvasError P (width opts) (height opts) = None
     /\ ensureDirError P (pathDirname P path) = None
     /\ toBufferError P canvas = None
     /\ writeFileError P path = None)
  /\ (success r = true ->
        r = succeeded path opts buffer /\ files w' = <[path := buffer]> (files w))
  /\ (success r = false ->
        (exists message, r = failed message) /\ files w' = files w).
Proof.
  intros opts canvas path buffer w' r. subst w' r.
  rewrite generateCard_unfold. cbv zeta. fold opts. fold canvas. fold path. fold buffer.
  destruct (createCanvasError P (width opts) (height opts)) as [m1|];
    [|destruct (ensureDirError P (pathDirname P path)) as [m2|];
      [|destruct (toBufferError P canvas) as [m3|];
        [|destruct (writeFileError P path) as [m4|]]]];
    cbn [fst snd success failed succeeded writeFile files];
    rewrite ?paint_files;
    (split; [split; [intros H; discriminate H | intros (H1 & H2 & H3 & H4); discriminate]
            | split; [intros H; discriminate H | intros _; split; [eexists; reflexivity | reflexivity]]])
    || (split; [split; [intros _; repeat split | reflexivity]
               | split; [intros _; split; reflexivity | intros H; discriminate H]]).
Qed.

Lemma generateCard_agree P assets options out now1 now2 w1 w2 :
  let opts := mergeOptions defaultOptions options in
  let canvas1 := canvasOf opts (snd (paint P assets opts w1)) in
  let canvas2 := canvasOf opts (snd (paint P assets opts w2)) in
  JsString.truthy out = true ->
  sameAssetFiles assets w1 w2 ->
  canvas1 = canvas2
  /\ toBuffer P canvas1 None = toBuffer P canvas2 None
  /\ snd (generateCard P now1 assets options (Some out) w1)
     = snd (generateCard P now2 assets options (Some out) w2)
  /\ (success (snd (generateCard P now1 assets options (Some out) w1)) = true ->
      files (fst (generateCard P now1 assets options (Some out) w1)) !! out
      = Some (toBuffer P canvas1 None)
      /\ files (fst (generateCard P now2 assets options (Some out) w2)) !! out
         = Some (toBuffer P canvas1 None)).
Proof.
  intros opts canvas1 canvas2 Hout Hsame.
  assert (Hc : canvas1 = canvas2).
  { subst canvas1 canvas2. rewrite (paint_agree P assets opts w1 w2 Hsame). reflexivity. }
  split; [exact Hc|]. split; [rewrite Hc; reflexivity|].
  rewrite !generateCard_unfold. cbv zeta. fold opts. fold canvas1. fold canvas2.
  rewrite <- Hc.
  assert (Hp : forall now, resolvedPath P now assets opts (Some out) = out).
  { intros now. unfold resolvedPath, present. rewrite Hout. reflexivity. }
  rewrite !Hp.
  destruct (createCanvasError P (width opts) (height opts));
    [|destruct (ensureDirError P (pathDirname P out));
      [|destruct (toBufferError P canvas1);
        [|destruct (writeFileError P out)]]];
    cbn [fst snd success failed succeeded writeFile files];
    (split; [reflexivity|]); intros H; try discriminate H.
  rewrite !lookup_insert_eq. split; reflexivity.
Qed.



(** C9.  Two calls with the same assets, options and explicit output
    path, made at any two times in any two worlds that hold the same bytes
    at the asset paths, paint the same canvas, encode the same buffer,
    return the same result and, when they succeed, leave these bytes at
    the output path. *)
Theorem rendering_is_deterministic P assets options out now1 now2 w1 w2 :
  let opts := mergeOptions defaultOptions options in
  let canvas1 := canvasOf opts (snd (paint P assets opts w1)) in
  let canvas2 := canvasOf opts (snd (paint P assets opts w2)) in
  JsString.truthy out = true ->
  sameAssetFiles assets w1 w2 ->
  canvas1 = canvas2
  /\ toBuffer P canvas1 None = toBuffer P canvas2 None
  /\ snd (generateCard P now1 assets options (Some out) w1)
     = snd (generateCard P now2 assets options (Some out) w2)
  /\ (success (snd (generateCard P now1 assets options (Some out) w1)) = true ->
      files (fst (generateCard P now1 assets options (Some out) w1)) !! out
      = Some (toBuffer P canvas1 None)
      /\ files (fst (generateCard P now2 assets options (Some out) w2)) !! out
         = Some (toBuffer P canvas1 None)).
Proof. exact (generateCard_agree P assets options out now1 now2 w1 w2). Qed.

(** The theorem at [ada], rendered at two times, the second time in a
    world that holds one more file. *)
Lemma rendering_is_deterministic_witness :
  snd (generateCard Demo.host Inputs.now Demo.adaAssets noOptions (Some "out/card.png")
         Demo.adaWorld)
  = snd (generateCard Demo.host "2027-01-01T00:00:00.000Z" Demo.adaAssets noOptions
           (Some "out/card.png") (writeFile "notes.txt" "hello" Demo.adaWorld)).
Proof.
  refine (proj1 (proj2 (proj2 (rendering_is_deterministic Demo.host Demo.adaAssets noOptions
            "out/card.png" Inputs.now "2027-01-01T00:00:00.000Z" Demo.adaWorld
            (writeFile "notes.txt" "hello" Demo.adaWorld) eq_refl _)))).
  intros path [Hp|Hp]; vm_compute in Hp; injection Hp as <-; reflexivity.
Defined.

(** X2.  Two calls in a row with the same explicit output path, which is
    not one of the asset files: the second call repaints the same canvas and
    rewrites the same bytes. *)
Lemma generateCard_twice P assets options out now1 now2 w :
  JsString.truthy out = true ->
  present (profileImagePath assets) <> Some out ->
  present (bannerImagePath assets) <> Some out ->
  let first := generateCard P now1 assets options (Some out) w in
  let second := generateCard P now2 assets options (Some out) (fst first) in
  snd second = snd first /\ files (fst second) = files (fst first).
Proof.
  intros Hout Hna Hnb first second.
  assert (Hpath : forall now, resolvedPath P now assets (mergeOptions defaultOptions options)
                                (Some out) = out).
  { intros now. unfold resolvedPath, present. rewrite Hout. reflexivity. }
  destruct (generateCard_outcome P now1 assets options (Some out) w) as (_ & Hok1 & Hko1).
  destruct (generateCard_outcome P now2 assets options (Some out) (fst first)) as (_ & Hok2 & Hko2).
  cbv zeta in Hok1, Hko1, Hok2, Hko2. rewrite Hpath in Hok1, Hok2.
  fold first in Hok1, Hko1. fold second in Hok2, Hko2.
  assert (Hsame : sameAssetFiles assets w (fst first)).
  { intros path Hp. destruct (success (snd first)).
    - destruct (Hok1 eq_refl) as [_ ->].
      rewrite lookup_insert_ne; [reflexivity|]. intros ->. destruct Hp; contradiction.
    - destruct (Hko1 eq_refl) as [_ ->]. reflexivity. }
  destruct (generateCard_agree P assets options out now1 now2 w (fst first) Hout Hsame)
    as (_ & Hb & Hr & _).
  fold first in Hr. fold second in Hr. split; [symmetry; exact Hr|].
  destruct (success (snd first)) eqn:Hs.
  - destruct (Hok1 eq_refl) as [_ Hf1].
    rewrite Hr in Hs. destruct (Hok2 Hs) as [_ Hf2].
    rewrite Hf2, <- Hb, Hf1. apply insert_insert_eq.
  - rewrite Hr in Hs. destruct (Hko2 Hs) as [_ Hf2]. exact Hf2.
Qed.

(** The lemma for [ada], drawn twice to [out/card.png]. *)
Lemma generateCard_twice_witness :
  let first := generateCard Demo.host Inputs.now Demo.adaAssets noOptions
                 (Some "out/card.png") Demo.adaWorld in
  let second := generateCard Demo.host Inputs.now Demo.adaAssets noOptions
                  (Some "out/card.png") (fst first) in
  snd second = snd first /\ files (fst second) = files (fst first).
Proof.
  apply (generateCard_twice Demo.host Demo.adaAssets noOptions "out/card.png"
           Inputs.now Inputs.now Demo.adaWorld).
  - reflexivity.
  - intros H. vm_compute in H. discriminate H.
  - intros H. vm_compute in H. discriminate H.
Defined.

(** The theorem in a world where both bitmaps of [ada] are missing. *)
Lemma image_failures_are_isolated_witness :
  snd (paint Demo.host Demo.adaAssets defaultOptions Demo.emptyWorld)
  = snd (paint Demo.host (withoutBanner Demo.adaAssets) defaultOptions Demo.emptyWorld)
  /\ snd (paint Demo.host Demo.adaAssets defaultOptions Demo.emptyWorld)
     = snd (paint Demo.host (withoutAvatar Demo.adaAssets) defaultOptions Demo.emptyWorld).
Proof.
  pose proof (image_failures_are_isolated Demo.host Inputs.now Demo.adaAssets noOptions None
                Demo.emptyWorld) as H.
  cbv zeta in H. destruct H as [Hb Ha]. split.
  - exact (proj1 (proj2 (Hb "downloads/ada/banner_image.jpg" eq_refl eq_refl eq_refl))).
  - exact (proj1 (proj2 (Ha "downloads/ada/profile_image.jpg" eq_refl eq_refl))).
Defined.

(** X3.  Whatever the format asked for, a successful call writes the PNG
    encoding of the canvas, and reports the size asked for and the name of
    the format asked for. *)
Lemma generateCard_writes_png P now assets options out w :
  let opts := mergeOptions defaultOptions options in
  let canvas := canvasOf opts (snd (paint P assets opts w)) in
  let path := resolvedPath P now assets opts out in
  success (snd (generateCard P now assets options out w)) = true ->
  files (fst (generateCard P now assets options out w)) !! path
  = Some (encodeImage P PNG canvas)
  /\ cardInfo (snd (generateCard P now assets options out w))
     = Some {| info_width := width opts; info_height := height opts;
               info_fileSize := Z.of_nat (String.length (encodeImage P PNG canvas));
               info_format := JsString.toUpperCase (formatName (outputFormat opts)) |}.
Proof.
  intros opts canvas path Hs.
  destruct (generateCard_outcome P now assets options out w) as (_ & Hok & _).
  destruct (Hok Hs) as [Hr Hf]. rewrite Hf, Hr. fold opts canvas path.
  rewrite lookup_insert_eq. split; reflexivity.
Qed.

(** The lemma for [ada] with the default options and no output path. *)
Lemma generateCard_writes_png_witness :
  let opts := mergeOptions defaultOptions noOptions in
  let run := generateCard Demo.host Inputs.now Demo.adaAssets noOptions None Demo.adaWorld in
  success (snd run) = true
  /\ files (fst run) !! resolvedPath Demo.host Inputs.now Demo.adaAssets opts None
     = Some (encodeImage Demo.host PNG
               (canvasOf opts (snd (paint Demo.host Demo.adaAssets opts Demo.adaWorld)))).
Proof.
  cbv zeta.
  assert (Hs : success (snd (generateCard Demo.host Inputs.now Demo.adaAssets noOptions None
                               Demo.adaWorld)) = true) by reflexivity.
  split; [exact Hs|].
  exact (proj1 (generateCard_writes_png Demo.host Inputs.now Demo.adaAssets noOptions None
                  Demo.adaWorld Hs)).
Defined.

(** C1 fails on a JPEG request.  For [ada] with [outputFormat] set to
    [jpeg], the call succeeds, names its file [.jpg] and reports the format
    [JPEG], but the bytes written are the PNG encoding of the canvas, not
    the JPEG encoding at quality 90. *)
Lemma jpeg_request_is_written_as_png :
  let run := generateCard Demo.host Inputs.now Demo.adaAssets Inputs.asJpeg None Demo.adaWorld in
  let opts := mergeOptions defaultOptions Inputs.asJpeg in
  let canvas := canvasOf opts (snd (paint Demo.host Demo.adaAssets opts Demo.adaWorld)) in
  let path := "/app/downloads/ada/ada_card_2026-11-02T10-00-00-000Z.jpg" in
  success (snd run) = true
  /\ outputPath (snd run) = Some path
  /\ info_format <$> cardInfo (snd run) = Some "JPEG"
  /\ files (fst run) !! path = Some (encodeImage Demo.host PNG canvas)
  /\ encodeImage Demo.host PNG canvas <> encodeImage Demo.host (JPEG (quality opts)) canvas.
Proof.
  cbv zeta. split; [reflexivity|]. split; [reflexivity|]. split; [reflexivity|].
  split; [vm_compute; reflexivity|]. vm_compute. intros H. discriminate H.
Qed.

(** ** [loadAssetsFromDirectory] *)

(** When the call throws and what it returns. *)
Lemma loadAssets_outcome P w username downloadsDir :
  let dataPath := dataPathOf P downloadsDir username in
  let avatarPath := avatarPathOf P downloadsDir username in
  let bannerPath := bannerPathOf P downloadsDir username in
  ((exists message, loadAssetsFromDirectory P w username downloadsDir = Thrown message)
   <-> (files w !! dataPath = None
        \/ exists content, files w !! dataPath = Some content
                           /\ JsString.includes JsString.newline content = false))
  /\ (forall assets,
        loadAssetsFromDirectory P w username downloadsDir = Returned assets ->
        (exists content line,
            files w !! dataPath = Some content
            /\ JsString.split JsString.newline content !! 1%nat = Some line
            /\ profileData assets = profileOfRow (JsString.split JsString.comma line))
        /\ profileImagePath assets = (if pathExists w avatarPath then Some avatarPath else None)
        /\ bannerImagePath assets = (if pathExists w bannerPath then Some bannerPath else None)).
Proof.
  intros dataPath avatarPath bannerPath.
  unfold loadAssetsFromDirectory, readProfileData.
  fold (userDirOf P downloadsDir username). fold (dataPathOf P downloadsDir username).
  fold (avatarPathOf P downloadsDir username). fold (bannerPathOf P downloadsDir username).
  fold dataPath. fold avatarPath. fold bannerPath.
  destruct (files w !! dataPath) as [content|] eqn:Hfile.
  - destruct (JsString.split JsString.newline content !! 1%nat) as [line|] eqn:Hline.
    + split.
      * split; [intros [m Hm]; discriminate Hm|].
        intros [H|(c & Hc & Hinc)]; [discriminate H|].
        injection Hc as <-. apply split_second in Hinc. congruence.
      * intros assets Heq. injection Heq as <-. cbn.
        split; [|split; reflexivity]. exists content, line. repeat split; assumption.
    + split.
      * split; [|intros _; eexists; reflexivity].
        intros _. right. exists content. split; [reflexivity|]. apply split_second, Hline.
      * intros assets Heq. discriminate Heq.
  - split.
    + split; [intros _; left; reflexivity|intros _; eexists; reflexivity].
    + intros assets Heq. discriminate Heq.
Qed.

(** C6, as amended.  Resolution throws exactly when the record file is
    missing or holds no line feed, that is no second line.  When it
    returns, the profile is read by position from the second line, absent
    columns read as empty, and each image path is set exactly when its file
    exists: a missing image never makes the call throw. *)
Theorem loadAssets_failure_condition P w username downloadsDir :
  let dataPath := dataPathOf P downloadsDir username in
  let avatarPath := avatarPathOf P downloadsDir username in
  let bannerPath := bannerPathOf P downloadsDir username in
  ((exists message, loadAssetsFromDirectory P w username downloadsDir = Thrown message)
   <-> (files w !! dataPath = None
        \/ exists content, files w !! dataPath = Some content
                           /\ JsString.includes JsString.newline content = false))
  /\ (forall assets,
        loadAssetsFromDirectory P w username downloadsDir = Returned assets ->
        (exists content line,
            files w !! dataPath = Some content
            /\ JsString.split JsString.newline content !! 1%nat = Some line
            /\ profileData assets = profileOfRow (JsString.split JsString.comma line))
        /\ profileImagePath assets = (if pathExists w avatarPath then Some avatarPath else None)
        /\ bannerImagePath assets = (if pathExists w bannerPath then Some bannerPath else None)).
Proof. exact (loadAssets_outcome P w username downloadsDir). Qed.

(** C6 as stated fails on a record that cannot be read by position: with
    a data row of two columns and no image on disk, resolution returns a
    profile whose missing columns read as empty, false and zero. *)
Lemma short_record_is_resolved :
  files Inputs.shortRecordWorld !! dataPathOf Demo.host "downloads" "ada"
  = Some Inputs.shortRecord
  /\ JsString.split JsString.newline Inputs.shortRecord = ["id,name"; "42,Ada"; EmptyString]
  /\ loadAssetsFromDirectory Demo.host Inputs.shortRecordWorld "ada" "downloads"
     = Returned {|
         profileData := {|
           id := "42"; name := "Ada"; username := EmptyString; description := EmptyString;
           profileImageUrl := EmptyString; profileBannerUrl := EmptyString;
           verified := false;
           followersCount := 0; followingCount := 0; tweetCount := 0;
           listedCount := 0; likeCount := 0; mediaCount := 0;
           subscribesToYou := false; subscriptionType := EmptyString |};
         profileImagePath := None;
         bannerImagePath := None |}.
Proof. repeat split; vm_compute; reflexivity. Qed.

(** ** The record written by the exporter, read back *)

(** C3 fails on a description with a comma.  The exporter quotes the
    field, the reader splits the row at every comma: [ada] with the
    description [Mathematician, and writer.] comes back with a description
    cut at the comma, [verified] false and no followers. *)
Lemma comma_in_description_breaks_reload :
  let w := fst (CsvExporter.exportProfileData Demo.host Inputs.now Inputs.adaWithComma
                  "downloads/ada" Demo.emptyWorld) in
  exists assets,
    loadAssetsFromDirectory Demo.host w "ada" "downloads" = Returned assets
    /\ id (profileData assets) = id Inputs.adaWithComma
    /\ name (profileData assets) = name Inputs.adaWithComma
    /\ username (profileData assets) = username Inputs.adaWithComma
    /\ description (profileData assets) = String JsString.dquote "Mathematician"
    /\ description (profileData assets) <> description Inputs.adaWithComma
    /\ verified Inputs.adaWithComma = true
    /\ verified (profileData assets) = false
    /\ followersCount Inputs.adaWithComma = 1500
    /\ followersCount (profileData assets) = 0.
Proof.
  cbv zeta. eexists. split; [vm_compute; reflexivity|].
  repeat split; try reflexivity. cbn. intros H. discriminate H.
Qed.

(** ** Decimal strings *)
















(** ** binary64 quotients of integers *)

Lemma digits2_pos_bounds p :
  2 ^ (Zpos (digits2_pos p) - 1) <= Zpos p < 2 ^ Zpos (digits2_pos p).
Proof.
  induction p as [p IH|p IH|]; cbn [digits2_pos].
  - rewrite Pos2Z.inj_succ.
    replace (Z.succ (Zpos (digits2_pos p)) - 1) with (Z.succ (Zpos (digits2_pos p) - 1)) by lia.
    rewrite !Z.pow_succ_r by lia. lia.
  - rewrite Pos2Z.inj_succ.
    replace (Z.succ (Zpos (digits2_pos p)) - 1) with (Z.succ (Zpos (digits2_pos p) - 1)) by lia.
    rewrite !Z.pow_succ_r by lia. lia.
  - simpl. lia.
Qed.

Lemma Zdigits2_bounds z : 0 < z -> 2 ^ (Zdigits2 z - 1) <= z < 2 ^ Zdigits2 z.
Proof. destruct z as [|p|p]; intros H; try lia. apply digits2_pos_bounds. Qed.

Lemma Zdigits2_pos z : 0 < z -> 0 < Zdigits2 z.
Proof. destruct z; simpl; lia. Qed.

Lemma Zdigits2_unique z d : 2 ^ (d - 1) <= z < 2 ^ d -> 0 < z -> Zdigits2 z = d.
Proof.
  intros [Hlo Hhi] Hz.
  pose proof (Zdigits2_bounds z Hz) as [Hlo' Hhi'].
  pose proof (Zdigits2_pos z Hz) as Hd'.
  assert (0 < d).
  { destruct (Z_lt_le_dec 0 d); [assumption|].
    rewrite Z.pow_neg_r in Hlo by lia.
    assert (2 ^ d <= 2 ^ 0) by (destruct (Z.eq_dec d 0) as [->|]; [lia|rewrite Z.pow_neg_r by lia; simpl; lia]).
    simpl in *. lia. }
  destruct (Z.lt_trichotomy (Zdigits2 z) d) as [Hlt|[Heq|Hgt]]; [|assumption|].
  - assert (2 ^ Zdigits2 z <= 2 ^ (d - 1)) by (apply Z.pow_le_mono_r; lia). lia.
  - assert (2 ^ d <= 2 ^ (Zdigits2 z - 1)) by (apply Z.pow_le_mono_r; lia). lia.
Qed.









Lemma fexp_eq e : -1021 <= e -> fexp JsNumber.prec JsNumber.emax e = e - 53.
Proof. intros H. unfold fexp, emin, JsNumber.prec, JsNumber.emax. lia. Qed.





Lemma iter_xO p d : Zpos (Pos.iter xO p d) = Zpos p * 2 ^ Zpos d.
Proof.
  induction d as [|d IH] using Pos.peano_ind.
  - simpl. lia.
  - rewrite Pos.iter_succ, Pos2Z.inj_xO, IH, Pos2Z.inj_succ, Z.pow_succ_r by lia. ring.
Qed.

(** A mantissa of 53 bits with an exact location is left as it is. *)
Lemma binary_round_aux_exact s m e :
  2 ^ 52 <= Zpos m < 2 ^ 53 -> -1074 <= e <= 971 ->
  binary_round_aux JsNumber.prec JsNumber.emax s (Zpos m) e loc_Exact = S754_finite s m e.
Proof.
  intros Hm He.
  assert (Hd : Zdigits2 (Zpos m) = 53) by (apply Zdigits2_unique; [exact Hm|lia]).
  assert (Hk : fexp JsNumber.prec JsNumber.emax (Zdigits2 (Zpos m) + e) - e = 0).
  { rewrite Hd. unfold fexp, emin, JsNumber.prec, JsNumber.emax. lia. }
  unfold binary_round_aux, shr_fexp. rewrite Hk.
  cbn [shr shr_record_of_loc shr_m loc_of_shr_record round_nearest_even].
  rewrite Hk. cbn [shr shr_record_of_loc shr_m].
  replace (e <=? JsNumber.emax - JsNumber.prec) with true; [reflexivity|].
  symmetry. apply Z.leb_le. unfold JsNumber.emax, JsNumber.prec. lia.
Qed.

(** The binary64 value of a positive integer below [2^53]: its 53-bit
    mantissa and its exponent. *)
Lemma of_Z_exact c :
  0 < c < 2 ^ 53 ->
  exists m,
    JsNumber.of_Z c = S754_finite false m (Zdigits2 c - 53)
    /\ Zpos m = c * 2 ^ (53 - Zdigits2 c)
    /\ 2 ^ 52 <= Zpos m < 2 ^ 53
    /\ 1 <= Zdigits2 c <= 53.
Proof.
  intros [Hc0 Hc].
  pose proof (Zdigits2_bounds c Hc0) as [Hlo Hhi].
  pose proof (Zdigits2_pos c Hc0) as Hd0.
  assert (Hd : Zdigits2 c <= 53).
  { destruct (Z_le_gt_dec (Zdigits2 c) 53); [assumption|].
    assert (2 ^ 53 <= 2 ^ (Zdigits2 c - 1)) by (apply Z.pow_le_mono_r; lia). lia. }
  destruct c as [|p|p]; try lia.
  unfold JsNumber.of_Z, binary_normalize, binary_round.
  cbn [Zdigits2] in *.
  set (dg := Zpos (digits2_pos p)) in *.
  assert (Hf : fexp JsNumber.prec JsNumber.emax (dg + 0) = dg - 53) by (unfold fexp, emin, JsNumber.prec, JsNumber.emax; lia).
  rewrite Hf. unfold shl_align.
  assert (Hpow : 2 ^ dg = 2 ^ (dg - 1) * 2).
  { replace dg with (Z.succ (dg - 1)) at 1 by lia. rewrite Z.pow_succ_r by lia. ring. }
  destruct (dg - 53 - 0) as [|d|d] eqn:Hdiff; try lia.
  - assert (dg = 53) by lia.
    exists p. replace (53 - dg) with 0 by lia. replace (dg - 53) with 0 by lia.
    assert (Hb : 2 ^ 52 <= Zpos p < 2 ^ 53).
    { replace 52 with (dg - 1) by lia. replace 53 with dg by lia. split; assumption. }
    rewrite binary_round_aux_exact by (try exact Hb; lia).
    repeat split; try lia.
  - assert (Hd53 : 53 - dg = Zpos d) by lia.
    exists (Pos.iter xO p d). rewrite Hd53.
    assert (Hb : 2 ^ 52 <= Zpos (Pos.iter xO p d) < 2 ^ 53).
    { rewrite iter_xO, <- Hd53.
      replace (2 ^ 52) with (2 ^ (dg - 1) * 2 ^ (53 - dg)).
      2:{ rewrite <- Z.pow_add_r by lia. f_equal. lia. }
      replace (2 ^ 53) with (2 ^ dg * 2 ^ (53 - dg)).
      2:{ rewrite <- Z.pow_add_r by lia. f_equal. lia. }
      assert (0 < 2 ^ (53 - dg)) by (apply Z.pow_pos_nonneg; lia).
      split; [apply Z.mul_le_mono_nonneg_r; lia|apply Z.mul_lt_mono_pos_r; lia]. }
    rewrite binary_round_aux_exact by (try exact Hb; lia).
    repeat split; try lia. apply iter_xO.
Qed.

Lemma pow2_pos k : 0 < 2 ^ k \/ k < 0.
Proof. destruct (Z_lt_le_dec k 0); [right; assumption|left; apply Z.pow_pos_nonneg; lia]. Qed.





(** ** [toFixed(1)] and [formatNumber] *)










(** ** A record of plain fields is read back *)












Lemma comma_app x : "," +:+ x = String JsString.comma x.
Proof. reflexivity. Qed.




(** ** Layout with a banner *)






(** ** The last counts of the K range *)

(** X14.  [formatNumber] has no carry from the K range to the M range:
    the fifty counts from 999950 to 999999 are divided by 1000, rounded
    to one decimal and printed as [1000.0K]; [1.0M] starts at 1000000. *)
Theorem formatNumber_1000K c :
  999950 <= c < 1000000 -> formatNumber c = "1000.0K".
Proof.
  intros Hc.
  assert (Hall : forallb (fun i => String.eqb (formatNumber (999950 + Z.of_nat i)) "1000.0K")
                   (List.seq 0 50) = true) by (vm_compute; reflexivity).
  rewrite forallb_forall in Hall.
  specialize (Hall (Z.to_nat (c - 999950))).
  replace (999950 + Z.of_nat (Z.to_nat (c - 999950))) with c in Hall by lia.
  apply String.eqb_eq, Hall, in_seq. lia.
Qed.

(** The theorem at 999999, next to the first count of the M range. *)
Lemma formatNumber_1000K_witness :
  formatNumber 999999 = "1000.0K" /\ formatNumber 1000000 = "1.0M".
Proof.
  split; [|reflexivity].
  apply (formatNumber_1000K 999999). lia.
Defined.

(** ** The exporter's own reader: [parseCSVLine] *)

Import FsExtra CsvFiles.

Lemma parseCSVLoop_open t values current :
  parseCSVLoop (String JsString.dquote t) values current false
  = parseCSVLoop t values current true.
Proof. destruct t; reflexivity. Qed.

(** Inside quotes: the doubled quotes of a field are read as single ones,
    up to the closing quote. *)
Lemma parseCSVLoop_quoted f rest values current :
  (rest = EmptyString \/ exists r, rest = String JsString.comma r) ->
  parseCSVLoop
    (JsString.replaceAll JsString.dquote
       (String JsString.dquote (String JsString.dquote EmptyString)) f
     +:+ String JsString.dquote rest) values current true
  = parseCSVLoop rest values (current +:+ f) false.
Proof.
  intros Hrest. revert current.
  induction f as [|c f IH]; intros current.
  - cbn [JsString.replaceAll]. rewrite string_app_nil_l, string_app_nil_r.
    destruct Hrest as [->|[r ->]]; reflexivity.
  - cbn [JsString.replaceAll]. destruct (Ascii.eqb c JsString.dquote) eqn:Hc.
    + apply Ascii.eqb_eq in Hc. subst c.
      rewrite !string_app_cons, string_app_nil_l.
      cbn [parseCSVLoop]. rewrite !Ascii.eqb_refl. cbn [andb].
      rewrite IH, string_app_assoc. reflexivity.
    + rewrite string_app_cons. cbn [parseCSVLoop]. rewrite Hc.
      rewrite Bool.andb_false_r.
      rewrite IH, string_app_assoc. reflexivity.
Qed.

(** Outside quotes: a field with no comma and no quote is read as it is. *)
Lemma parseCSVLoop_plain f rest values current :
  JsString.includes JsString.comma f = false ->
  JsString.includes JsString.dquote f = false ->
  parseCSVLoop (f +:+ rest) values current false
  = parseCSVLoop rest values (current +:+ f) false.
Proof.
  revert current. induction f as [|c f IH]; intros current Hc Hq.
  - rewrite string_app_nil_l, string_app_nil_r. reflexivity.
  - cbn [JsString.includes] in Hc, Hq.
    apply Bool.orb_false_iff in Hc. destruct Hc as [Hc Hc'].
    apply Bool.orb_false_iff in Hq. destruct Hq as [Hq Hq'].
    rewrite string_app_cons. cbn [parseCSVLoop]. rewrite Hc, Hq. cbn [andb].
    rewrite (IH _ Hc' Hq'), string_app_assoc. reflexivity.
Qed.

(** An escaped field, read up to the separator that follows it. *)
Lemma parseCSVLoop_field v rest values current :
  (rest = EmptyString \/ exists r, rest = String JsString.comma r) ->
  parseCSVLoop (CsvExporter.escapeCSVField v +:+ rest) values current false
  = parseCSVLoop rest values (current +:+ toString v) false.
Proof.
  intros Hrest. unfold CsvExporter.escapeCSVField. cbv zeta.
  destruct (JsString.includes JsString.comma (toString v)
            || JsString.includes JsString.newline (toString v)
            || JsString.includes JsString.dquote (toString v)) eqn:Hq.
  - rewrite string_app_cons, parseCSVLoop_open, string_app_assoc, string_app_cons,
      string_app_nil_l.
    apply parseCSVLoop_quoted, Hrest.
  - apply Bool.orb_false_iff in Hq. destruct Hq as [Hq Hd].
    apply Bool.orb_false_iff in Hq. destruct Hq as [Hc Hn].
    apply parseCSVLoop_plain; assumption.
Qed.

Lemma parseCSVLoop_fields vs values :
  vs <> [] ->
  parseCSVLoop (JsString.join "," (map CsvExporter.escapeCSVField vs)) values EmptyString false
  = values ++ map toString vs.
Proof.
  revert values. induction vs as [|v vs IH]; intros values Hne; [contradiction|].
  destruct vs as [|v' vs].
  - cbn [map JsString.join].
    rewrite <- (string_app_nil_r (CsvExporter.escapeCSVField v)).
    rewrite parseCSVLoop_field by (left; reflexivity). reflexivity.
  - change (JsString.join "," (map CsvExporter.escapeCSVField (v :: v' :: vs)))
      with (CsvExporter.escapeCSVField v
            +:+ "," +:+ JsString.join "," (map CsvExporter.escapeCSVField (v' :: vs))).
    rewrite comma_app, parseCSVLoop_field by (right; eexists; reflexivity).
    cbn [parseCSVLoop]. 
    change (Ascii.eqb JsString.comma JsString.dquote) with false.
    rewrite Ascii.eqb_refl. cbn [andb negb].
    rewrite IH by discriminate. rewrite <- app_assoc. reflexivity.
Qed.

(** X4.  [parseCSVLine] undoes [objectToCSVRow]: the row of an object with
    at least one key is read back as the texts of its values, whatever
    commas, quotes and line feeds they hold.  The row of the empty object
    is read back as one empty field. *)
Theorem parseCSVLine_objectToCSVRow :
  (forall obj, obj <> [] ->
     parseCSVLine (objectToCSVRow obj) = map (fun entry => toString (snd entry)) obj)
  /\ parseCSVLine (objectToCSVRow []) = [EmptyString].
Proof.
  split; [|reflexivity].
  intros obj Hne. unfold parseCSVLine, objectToCSVRow.
  rewrite <- (map_map snd CsvExporter.escapeCSVField).
  rewrite parseCSVLoop_fields by (destruct obj; [contradiction|discriminate]).
  rewrite map_map. reflexivity.
Qed.

Lemma lookup_key_app_own done k v rest :
  ~ In k (map fst done) ->
  CsvExporter.lookup_key k (done ++ (k, v) :: rest) = Some v.
Proof.
  induction done as [|[k' v'] done IH]; intros Hnot.
  - cbn [app CsvExporter.lookup_key]. rewrite String.eqb_refl. reflexivity.
  - cbn [app CsvExporter.lookup_key]. destruct (String.eqb k' k) eqn:Hk.
    + apply String.eqb_eq in Hk. subst k'. exfalso. apply Hnot. left. reflexivity.
    + apply IH. intros Hin. apply Hnot. right. exact Hin.
Qed.

(** With distinct keys each cell holds the text of its own value. *)
Lemma cells_of_row done row :
  List.NoDup (map fst (done ++ row)) ->
  map (CsvExporter.cell (done ++ row)) (map fst row)
  = map (fun entry => CsvExporter.escapeCSVField (VString (cellText (snd entry)))) row.
Proof.
  revert done. induction row as [|[k v] row IH]; intros done Hnd; [reflexivity|].
  cbn [map fst snd]. f_equal.
  - unfold CsvExporter.cell. rewrite lookup_key_app_own.
    + unfold cellText. destruct (truthy v); reflexivity.
    + rewrite map_app in Hnd. cbn [map fst] in Hnd.
      apply List.NoDup_remove_2 in Hnd. intros Hin. apply Hnd.
      apply in_or_app. left. exact Hin.
  - specialize (IH (done ++ [(k, v)])). rewrite <- app_assoc in IH. apply IH, Hnd.
Qed.

(** X5.  For a row with at least one key and no key twice, the file
    [createCSVContent] writes is the header row, a line feed, the data row
    and a line feed; [parseCSVLine] reads the header row back as the keys
    and the data row as the texts of the values, a [false], a [0] and an
    empty string all read as the empty field. *)
Theorem parseCSVLine_createCSVContent row :
  row <> [] -> List.NoDup (map fst row) ->
  CsvExporter.createCSVContent [row]
  = headerRow row +:+ String JsString.newline (dataRow row +:+ String JsString.newline EmptyString)
  /\ parseCSVLine (headerRow row) = map fst row
  /\ parseCSVLine (dataRow row) = map (fun entry => cellText (snd entry)) row.
Proof.
  intros Hne Hnd. split; [|split].
  - unfold CsvExporter.createCSVContent, headerRow, dataRow.
    cbn [map JsString.join]. rewrite !string_app_assoc. reflexivity.
  - unfold parseCSVLine, headerRow.
    rewrite <- (map_map VString CsvExporter.escapeCSVField).
    rewrite parseCSVLoop_fields by (destruct row; [contradiction|discriminate]).
    rewrite map_map. cbn [app toString]. apply map_id.
  - unfold parseCSVLine, dataRow.
    pose proof (cells_of_row [] row Hnd) as Hcells. cbn [app] in Hcells. rewrite Hcells.
    rewrite <- (map_map (fun entry => VString (cellText (snd entry))) CsvExporter.escapeCSVField).
    rewrite parseCSVLoop_fields by (destruct row; [contradiction|discriminate]).
    rewrite map_map. reflexivity.
Qed.

(** The theorem for the row of [ada], whose [listed_count] is [0]. *)
Lemma parseCSVLine_createCSVContent_witness :
  parseCSVLine (dataRow (toCSVRow Inputs.now Demo.ada))
  = map (fun entry => cellText (snd entry)) (toCSVRow Inputs.now Demo.ada).
Proof.
  refine (proj2 (proj2 (parseCSVLine_createCSVContent (toCSVRow Inputs.now Demo.ada) _ _))).
  - discriminate.
  - cbn [toCSVRow map fst].
    repeat (apply List.NoDup_cons; [cbn [In]; intuition discriminate|]).
    apply List.NoDup_nil.
Defined.

(** ** [appendProfileData] *)

Lemma join_split sep s :
  JsString.join (String sep EmptyString) (JsString.split sep s) = s.
Proof.
  induction s as [|c s IH]; [reflexivity|].
  cbn [JsString.split]. pose proof (split_nonempty sep s) as Hne.
  destruct (Ascii.eqb c sep) eqn:Hc.
  - apply Ascii.eqb_eq in Hc. subst c.
    destruct (JsString.split sep s) as [|piece pieces]; [contradiction|].
    change (JsString.join (String sep EmptyString) (EmptyString :: piece :: pieces))
      with (EmptyString +:+ String sep EmptyString
            +:+ JsString.join (String sep EmptyString) (piece :: pieces)).
    rewrite IH. reflexivity.
  - destruct (JsString.split sep s) as [|piece pieces]; [contradiction|].
    destruct pieces as [|piece' pieces].
    + cbn [JsString.join] in *. rewrite IH. reflexivity.
    + change (JsString.join (String sep EmptyString) (String c piece :: piece' :: pieces))
        with (String c piece +:+ String sep EmptyString
              +:+ JsString.join (String sep EmptyString) (piece' :: pieces)).
      change (JsString.join (String sep EmptyString) (piece :: piece' :: pieces))
        with (piece +:+ String sep EmptyString
              +:+ JsString.join (String sep EmptyString) (piece' :: pieces)) in IH.
      rewrite string_app_cons, IH. reflexivity.
Qed.

Lemma join_snoc sep parts last :
  parts <> [] ->
  JsString.join sep (parts ++ [last]) = JsString.join sep parts +:+ sep +:+ last.
Proof.
  induction parts as [|p parts IH]; intros Hne; [contradiction|].
  destruct parts as [|q parts]; [reflexivity|].
  change (JsString.join sep ((p :: q :: parts) ++ [last]))
    with (p +:+ sep +:+ JsString.join sep ((q :: parts) ++ [last])).
  rewrite IH by discriminate.
  change (JsString.join sep (p :: q :: parts))
    with (p +:+ sep +:+ JsString.join sep (q :: parts)).
  rewrite !string_app_assoc. reflexivity.
Qed.

(** X6.  When the write is allowed, [appendProfileData] returns and
    changes the file at [csvPath] only.  A file that was there now holds
    its old text trimmed, a line feed, the row of the profile as
    [objectToCSVRow] writes it, and a line feed; a file that was not there
    holds what [createCSVContent] writes for the profile. *)
Theorem appendProfileData_content P now p csvPath w :
  writeFileError P csvPath = None ->
  let run := appendProfileData P now p csvPath w in
  snd run = Returned tt
  /\ console (fst run) = console w
  /\ (forall path, path <> csvPath -> files (fst run) !! path = files w !! path)
  /\ files (fst run) !! csvPath
     = Some match files w !! csvPath with
            | Some existing =>
                JsText.trim existing +:+ String JsString.newline
                  (objectToCSVRow (toCSVRow now p) +:+ String JsString.newline EmptyString)
            | None => CsvExporter.createCSVContent [toCSVRow now p]
            end.
Proof.
  intros Hw run. subst run. unfold appendProfileData, pathExists, readFile. cbv zeta.
  destruct (files w !! csvPath) as [existing|] eqn:Hfile.
  - rewrite bool_decide_eq_true_2 by (eexists; reflexivity).
    unfold writeFileOrThrow. rewrite Hw. cbn [fst snd writeFile files console].
    split; [reflexivity|]. split; [reflexivity|]. split.
    + intros path Hp. apply lookup_insert_ne. congruence.
    + rewrite lookup_insert_eq. f_equal.
      rewrite join_snoc by apply split_nonempty.
      rewrite join_split, !string_app_assoc. reflexivity.
  - rewrite bool_decide_eq_false_2 by (intros [x Hx]; discriminate Hx).
    unfold writeFileOrThrow. rewrite Hw. cbn [fst snd writeFile files console].
    split; [reflexivity|]. split; [reflexivity|]. split.
    + intros path Hp. apply lookup_insert_ne. congruence.
    + rewrite lookup_insert_eq. reflexivity.
Qed.

(** The theorem for [ada], appended to a file that holds a header and a
    blank line. *)
Lemma appendProfileData_content_witness :
  files (fst (appendProfileData Demo.host Inputs.now Demo.ada "ada.csv"
                (writeFile "ada.csv" ("id,name" +:+ String JsString.newline EmptyString)
                   Demo.emptyWorld))) !! "ada.csv"
  = Some ("id,name" +:+ String JsString.newline
            (objectToCSVRow (toCSVRow Inputs.now Demo.ada)
             +:+ String JsString.newline EmptyString)).
Proof.
  exact (proj2 (proj2 (proj2
    (appendProfileData_content Demo.host Inputs.now Demo.ada "ada.csv"
       (writeFile "ada.csv" ("id,name" +:+ String JsString.newline EmptyString)
          Demo.emptyWorld) eq_refl)))).
Defined.

(** ** [createMasterCSV] *)

Lemma addLine_empty_rows allData line :
  Forall (fun row => row = []) allData ->
  Forall (fun row => row = []) (addLine allData line).
Proof.
  intros Hall. unfold addLine.
  destruct (JsString.truthy (JsText.trim line)); [|exact Hall].
  apply Forall_app. split; [exact Hall|]. constructor; [|constructor].
  destruct Hall as [|row rows Hrow _]; [reflexivity|]. subst row. reflexivity.
Qed.

Lemma fold_addLine_empty_rows lines allData :
  Forall (fun row => row = []) allData ->
  Forall (fun row => row = []) (fold_left addLine lines allData).
Proof.
  revert allData. induction lines as [|line lines IH]; intros allData Hall; [exact Hall|].
  cbn [fold_left]. apply IH, addLine_empty_rows, Hall.
Qed.

Lemma collectRows_empty_rows P D w profilesDir userDirs allData rows :
  Forall (fun row => row = []) allData ->
  collectRows P D w profilesDir userDirs allData = Returned rows ->
  Forall (fun row => row = []) rows.
Proof.
  revert allData. induction userDirs as [|userDir userDirs IH]; intros allData Hall.
  - cbn [collectRows]. intros [= <-]. exact Hall.
  - cbn [collectRows].
    destruct (stat D w (pathJoin P [profilesDir; userDir])) as [st|]; [|discriminate].
    destruct (isDirectory st); [|apply IH, Hall].
    destruct (readdir D w (pathJoin P [profilesDir; userDir])) as [names|]; [|discriminate].
    destruct (find (JsText.endsWith "_data.csv") names) as [csvFile|]; [|apply IH, Hall].
    destruct (readFile w (pathJoin P [pathJoin P [profilesDir; userDir]; csvFile]))
      as [csvContent|]; [|discriminate].
    apply IH, fold_addLine_empty_rows, Hall.
Qed.

Lemma createCSVContent_empty_rows rows :
  Forall (fun row => row = []) rows ->
  CsvExporter.createCSVContent rows
  = match rows with [] => EmptyString | _ => lineFeeds (S (length rows)) end.
Proof.
  intros Hall. destruct rows as [|first rows]; [reflexivity|].
  assert (Hfirst : first = []) by (inversion Hall; assumption). subst first.
  change (CsvExporter.createCSVContent ([] :: rows))
    with (JsString.join (String JsString.newline EmptyString)
            (EmptyString
             :: map (fun _ : list (string * JsValue) => EmptyString) ([] :: rows))
          +:+ String JsString.newline EmptyString).
  assert (Hjoin : forall rs,
            JsString.join (String JsString.newline EmptyString)
              (EmptyString :: map (fun _ : list (string * JsValue) => EmptyString) rs)
            = lineFeeds (length rs)).
  { induction rs as [|r rs IHrs]; [reflexivity|].
    change (JsString.join (String JsString.newline EmptyString)
              (EmptyString :: map (fun _ : list (string * JsValue) => EmptyString) (r :: rs)))
      with (EmptyString +:+ String JsString.newline EmptyString
            +:+ JsString.join (String JsString.newline EmptyString)
                  (EmptyString :: map (fun _ : list (string * JsValue) => EmptyString) rs)).
    rewrite IHrs. reflexivity. }
  rewrite (Hjoin ([] :: rows)).
  assert (Hsnoc : forall n, lineFeeds n +:+ String JsString.newline EmptyString = lineFeeds (S n)).
  { induction n as [|n IHn]; [reflexivity|].
    cbn [lineFeeds]. rewrite string_app_cons, IHn. reflexivity. }
  apply Hsnoc.
Qed.

(** X7.  [createMasterCSV] either throws, leaving the world as it was, or
    writes the master file and nothing else; the text written is made of
    line feeds only.  The first line read is turned into a row with the
    keys of [allData[0] || {}], which has none, and every later row takes
    its keys from that first row: no field of any record reaches the
    master file. *)
Theorem createMasterCSV_writes_line_feeds P D profilesDir w :
  let run := createMasterCSV P D profilesDir w in
  let masterCsvPath := pathJoin P [profilesDir; "all_profiles.csv"] in
  match snd run with
  | Thrown message =>
      fst run = w /\ exists cause, message = "Failed to create master CSV: " +:+ cause
  | Returned path =>
      path = masterCsvPath
      /\ console (fst run) = console w
      /\ exists n, files (fst run) = <[masterCsvPath := lineFeeds n]> (files w)
  end.
Proof.
  cbv zeta. unfold createMasterCSV.
  destruct (readdir D w profilesDir) as [userDirs|cause].
  2:{ cbn [fst snd]. split; [reflexivity|]. eexists. reflexivity. }
  destruct (collectRows P D w profilesDir userDirs []) as [rows|cause] eqn:Hrows.
  2:{ cbn [fst snd]. split; [reflexivity|]. eexists. reflexivity. }
  destruct (writeFileError P (pathJoin P [profilesDir; "all_profiles.csv"])) as [message|].
  { cbn [fst snd]. split; [reflexivity|]. eexists. reflexivity. }
  cbn [fst snd writeFile files console].
  split; [reflexivity|]. split; [reflexivity|].
  rewrite createCSVContent_empty_rows
    by (eapply collectRows_empty_rows; [constructor|exact Hrows]).
  destruct rows; [exists 0%nat|eexists]; reflexivity.
Qed.

(** ** [formatFileSize] *)

Import FsExtra FolderManager.

Lemma of_Z_1024 : JsNumber.of_Z 1024 = S754_finite false 4503599627370496 (-42).
Proof. vm_compute. reflexivity. Qed.

(** An even mantissa of 54 bits with an exact location loses its last
    bit and nothing else. *)
Lemma binary_round_aux_even s m e :
  2 ^ 52 <= Zpos m < 2 ^ 53 -> -1074 <= e + 1 <= 971 ->
  binary_round_aux JsNumber.prec JsNumber.emax s (Zpos m~0) e loc_Exact
  = S754_finite s m (e + 1).
Proof.
  intros Hm He.
  assert (Hd : Zdigits2 (Zpos m~0) = 54).
  { apply Zdigits2_unique; [|lia]. rewrite Pos2Z.inj_xO.
    change (2 ^ (54 - 1)) with (2 * 2 ^ 52). change (2 ^ 54) with (2 * 2 ^ 53). lia. }
  assert (Hd' : Zdigits2 (Zpos m) = 53) by (apply Zdigits2_unique; [exact Hm|lia]).
  assert (Hk : fexp JsNumber.prec JsNumber.emax (Zdigits2 (Zpos m~0) + e) - e = 1).
  { rewrite Hd. unfold fexp, emin, JsNumber.prec, JsNumber.emax. lia. }
  assert (Hk' : fexp JsNumber.prec JsNumber.emax (Zdigits2 (Zpos m) + (e + 1)) - (e + 1) = 0).
  { rewrite Hd'. unfold fexp, emin, JsNumber.prec, JsNumber.emax. lia. }
  unfold binary_round_aux, shr_fexp. rewrite Hk.
  cbn [shr shr_record_of_loc SpecFloat.iter_pos shr_1 shr_m loc_of_shr_record
         round_nearest_even].
  cbn [orb]. cbn [round_nearest_even]. rewrite Hk'. cbn [shr shr_record_of_loc shr_m].
  replace (e + 1 <=? JsNumber.emax - JsNumber.prec) with true; [reflexivity|].
  symmetry. apply Z.leb_le. unfold JsNumber.emax, JsNumber.prec. lia.
Qed.

(** Dividing a 53-bit mantissa by 1024 only moves the exponent. *)
Lemma div_by_1024 m e :
  2 ^ 52 <= Zpos m < 2 ^ 53 -> -1000 <= e <= 900 ->
  JsNumber.div (S754_finite false m e) (JsNumber.of_Z 1024) = S754_finite false m (e - 10).
Proof.
  intros Hm He.
  rewrite of_Z_1024.
  assert (Hd1 : Zdigits2 (Zpos m) = 53) by (apply Zdigits2_unique; [exact Hm|lia]).
  unfold JsNumber.div, SFdiv, SFdiv_core_binary. rewrite Hd1.
  change (Zdigits2 4503599627370496) with 53.
  assert (Hmin : Z.min (fexp JsNumber.prec JsNumber.emax (53 + e - (53 + -42))) (e - -42)
                 = e - 11).
  { unfold fexp, emin, JsNumber.prec, JsNumber.emax. lia. }
  rewrite Hmin.
  replace (e - -42 - (e - 11)) with 53 by lia.
  rewrite Z.shiftl_mul_pow2 by lia.
  set (a := Zpos m * 2 ^ 53).
  assert (Hq : Z.div_eucl a 4503599627370496 = (Zpos m~0, 0)).
  { assert (Hdm : Z.div_eucl a 4503599627370496
                  = (a / 4503599627370496, a mod 4503599627370496)).
    { unfold Z.div, Z.modulo. destruct (Z.div_eucl a 4503599627370496); reflexivity. }
    rewrite Hdm. f_equal.
    - symmetry. apply Z.div_unique with 0; [lia|]. subst a. rewrite Pos2Z.inj_xO.
      change (2 ^ 53) with 9007199254740992. lia.
    - symmetry. apply Z.mod_unique with (Zpos m~0); [lia|]. subst a. rewrite Pos2Z.inj_xO.
      change (2 ^ 53) with 9007199254740992. lia. }
  rewrite Hq. cbn [xorb].
  change (new_location 4503599627370496 0) with loc_Exact.
  rewrite binary_round_aux_even by (try exact Hm; lia).
  f_equal. lia.
Qed.

(** Comparing a 53-bit mantissa with 1024. *)
Lemma geq_1024 m e :
  2 ^ 52 <= Zpos m < 2 ^ 53 ->
  geq (S754_finite false m e) (JsNumber.of_Z 1024) = (-42 <=? e).
Proof.
  intros Hm. rewrite of_Z_1024.
  unfold geq, SFleb, SFcompare.
  destruct (Z.compare_spec (-42) e) as [<-|Hlt|Hgt].
  - replace (-42 <=? -42) with true by reflexivity.
    destruct (Pos.compare_cont Eq 4503599627370496 m) eqn:Hc; try reflexivity.
    exfalso. change (Pos.compare_cont Eq 4503599627370496 m)
      with (Pos.compare 4503599627370496 m) in Hc.
    apply Pos.compare_gt_iff in Hc. change (2 ^ 52) with 4503599627370496 in Hm.
    apply Pos2Z.pos_lt_pos in Hc. lia.
  - symmetry. apply Z.leb_le. lia.
  - symmetry. apply Z.leb_gt. lia.
Qed.

(** One turn of the loop, taken or not. *)
Lemma scaleSize_turn turns m e unitIndex :
  2 ^ 52 <= Zpos m < 2 ^ 53 -> -1000 <= e <= 900 ->
  scaleSize (S turns) (S754_finite false m e) unitIndex
  = if (-42 <=? e) && (unitIndex <? 4)%nat
    then scaleSize turns (S754_finite false m (e - 10)) (S unitIndex)
    else (S754_finite false m e, unitIndex).
Proof.
  intros Hm He. cbn [scaleSize]. rewrite geq_1024 by exact Hm.
  change (length units - 1)%nat with 4%nat.
  destruct ((-42 <=? e) && (unitIndex <? 4)%nat); [|reflexivity].
  rewrite div_by_1024 by assumption. reflexivity.
Qed.

(** The loop on a positive number of bytes: it stops at the unit [k]
    with the same mantissa. *)
Lemma scaleSize_of_bytes bytes k :
  0 < bytes < 2 ^ 53 -> (k <= 4)%nat ->
  (bytes < 1024 ^ (Z.of_nat k + 1) \/ k = 4%nat) ->
  (1024 ^ Z.of_nat k <= bytes \/ k = 0%nat) ->
  exists m,
    scaleSize (length units) (JsNumber.of_Z bytes) 0
    = (S754_finite false m (Zdigits2 bytes - 53 - 10 * Z.of_nat k), k)
    /\ Zpos m = bytes * 2 ^ (53 - Zdigits2 bytes)
    /\ 10 * Z.of_nat k < Zdigits2 bytes <= 53.
Proof.
  intros Hb Hk Hhi Hlo.
  destruct (of_Z_exact bytes Hb) as (m & Hof & Hm & Hm53 & Hd).
  pose proof (Zdigits2_bounds bytes ltac:(lia)) as Hbits.
  set (d := Zdigits2 bytes) in *.
  assert (Hdlo : 10 * Z.of_nat k < d).
  { destruct Hlo as [Hlo| ->]; [|simpl; lia].
    destruct (Z_lt_le_dec (10 * Z.of_nat k) d) as [|Hge]; [assumption|exfalso].
    assert (2 ^ d <= 2 ^ (10 * Z.of_nat k)) by (apply Z.pow_le_mono_r; lia).
    replace (2 ^ (10 * Z.of_nat k)) with (1024 ^ Z.of_nat k) in *
      by (rewrite Z.pow_mul_r by lia; reflexivity).
    lia. }
  assert (Hdhi : d <= 10 * Z.of_nat k + 10 \/ k = 4%nat).
  { destruct Hhi as [Hhi|Hhi]; [left|right; exact Hhi].
    destruct (Z_le_gt_dec d (10 * Z.of_nat k + 10)) as [|Hgt]; [assumption|exfalso].
    assert (2 ^ (10 * (Z.of_nat k + 1)) <= 2 ^ (d - 1)) by (apply Z.pow_le_mono_r; lia).
    replace (2 ^ (10 * (Z.of_nat k + 1))) with (1024 ^ (Z.of_nat k + 1)) in *
      by (rewrite Z.pow_mul_r by lia; reflexivity).
    lia. }
  exists m. split; [|split; [exact Hm|lia]].
  rewrite Hof. change (length units) with 5%nat.
  assert (Hcases : (k = 0 \/ k = 1 \/ k = 2 \/ k = 3 \/ k = 4)%nat) by lia.
  destruct Hcases as [->|[->|[->|[->| ->]]]]; cbn [Z.of_nat Pos.of_succ_nat Pos.succ] in *.
  all: repeat (rewrite scaleSize_turn by (try exact Hm53; lia);
               match goal with
               | |- context [(-42 <=? ?e) && (?i <? 4)%nat] =>
                   first
                     [ replace ((-42 <=? e) && (i <? 4)%nat) with true
                         by (symmetry; apply andb_true_intro; split;
                             [apply Z.leb_le; lia|reflexivity])
                     | replace ((-42 <=? e) && (i <? 4)%nat) with false
                         by (symmetry; apply Bool.andb_false_iff;
                             first [left; apply Z.leb_gt; lia|right; reflexivity]) ]
               end; cbv iota).
  all: f_equal; f_equal; lia.
Qed.

(** X8.  For a whole number of bytes below [2^53], [formatFileSize]
    prints the size in the unit [k] with [1024^k <= bytes < 1024^(k+1)]
    (bytes below 1024 in B, sizes from [1024^4] on in TB): the quotient
    [bytes / 1024^k] is exact, and is printed to the nearest tenth, halves
    upwards. *)
Theorem formatFileSize_value bytes k :
  0 <= bytes < 2 ^ 53 -> (k <= 4)%nat ->
  (bytes < 1024 ^ (Z.of_nat k + 1) \/ k = 4%nat) ->
  (1024 ^ Z.of_nat k <= bytes \/ k = 0%nat) ->
  formatFileSize bytes
  = JsNumber.fixed1 ((20 * bytes + 1024 ^ Z.of_nat k) / (2 * 1024 ^ Z.of_nat k))
    +:+ " " +:+ JsString.orEmpty (units !! k).
Proof.
  intros Hb Hk Hhi Hlo.
  destruct (Z.eq_dec bytes 0) as [->|Hnz].
  { assert (k = 0%nat) as ->.
    { destruct Hlo as [Hlo|Hlo]; [|exact Hlo].
      assert (0 < 1024 ^ Z.of_nat k) by (apply Z.pow_pos_nonneg; lia). lia. }
    reflexivity. }
  destruct (scaleSize_of_bytes bytes k ltac:(lia) Hk Hhi Hlo) as (m & Hscale & Hm & Hd).
  unfold formatFileSize. rewrite Hscale.
  set (d := Zdigits2 bytes) in *. set (K := Z.of_nat k) in *.
  assert (HK : 0 <= K) by (subst K; lia).
  assert (Hm53 : 2 ^ 52 <= Zpos m < 2 ^ 53).
  { pose proof (Zdigits2_bounds bytes ltac:(lia)) as Hbits. fold d in Hbits.
    rewrite Hm.
    assert (Hs : 0 < 2 ^ (53 - d)) by (apply Z.pow_pos_nonneg; lia).
    replace (2 ^ 52) with (2 ^ (d - 1) * 2 ^ (53 - d))
      by (rewrite <- Z.pow_add_r by lia; f_equal; lia).
    replace (2 ^ 53) with (2 ^ d * 2 ^ (53 - d))
      by (rewrite <- Z.pow_add_r by lia; f_equal; lia).
    split; [apply Z.mul_le_mono_nonneg_r; lia|apply Z.mul_lt_mono_pos_r; lia]. }
  assert (Htenths : JsNumber.tenths m (d - 53 - 10 * K)
                    = (20 * bytes + 1024 ^ K) / (2 * 1024 ^ K)).
  { unfold JsNumber.tenths.
    destruct (Z.leb_spec 0 (d - 53 - 10 * K)) as [Hge|Hlt].
    - assert (d = 53) by lia. assert (K = 0) by lia.
      replace (d - 53 - 10 * K) with 0 by lia.
      rewrite Hm. replace (53 - d) with 0 by lia. replace K with 0 by lia.
      change (2 ^ 0) with 1. change (1024 ^ 0) with 1.
      apply Z.div_unique with 1; lia.
    - set (G := 2 ^ (53 - d)).
      assert (HG : 0 < G) by (apply Z.pow_pos_nonneg; lia).
      assert (H1024 : 1024 ^ K = 2 ^ (10 * K))
        by (rewrite Z.pow_mul_r by lia; reflexivity).
      assert (HP : 0 < 1024 ^ K) by (apply Z.pow_pos_nonneg; lia).
      replace (2 ^ (- (d - 53 - 10 * K))) with (1024 ^ K * G).
      2:{ rewrite H1024. subst G. rewrite <- Z.pow_add_r by lia. f_equal. lia. }
      replace (2 ^ (- (d - 53 - 10 * K) + 1)) with (2 * 1024 ^ K * G).
      2:{ rewrite H1024. subst G.
          replace (- (d - 53 - 10 * K) + 1) with (1 + 10 * K + (53 - d)) by lia.
          rewrite !Z.pow_add_r by lia. reflexivity. }
      rewrite Hm. fold G.
      replace (20 * (bytes * G) + 1024 ^ K * G) with ((20 * bytes + 1024 ^ K) * G) by ring.
      apply Z.div_mul_cancel_r; lia. }
  assert (Hbelow : JsNumber.below_1e21 m (d - 53 - 10 * K) = true).
  { unfold JsNumber.below_1e21.
    destruct (Z.leb_spec 0 (d - 53 - 10 * K)) as [Hge|Hlt].
    - replace (d - 53 - 10 * K) with 0 by lia. apply Z.ltb_lt.
      change (2 ^ 53) with 9007199254740992 in Hm53. change (2 ^ 0) with 1.
      change (10 ^ 21) with 1000000000000000000000. lia.
    - apply Z.ltb_lt.
      assert (0 < 2 ^ (- (d - 53 - 10 * K))) by (apply Z.pow_pos_nonneg; lia).
      change (2 ^ 53) with 9007199254740992 in Hm53.
      change (10 ^ 21) with 1000000000000000000000. nia. }
  unfold JsNumber.toFixed1. rewrite Hbelow, Htenths. reflexivity.
Qed.

(** The theorem for 1536 bytes. *)
Lemma formatFileSize_value_witness :
  formatFileSize 1536 = "1.5 KB".
Proof.
  exact (formatFileSize_value 1536 1 ltac:(lia) ltac:(lia) ltac:(left; reflexivity)
           ltac:(left; vm_compute; discriminate)).
Defined.

(** ** The directory walks of [FolderManager] *)

Lemma keepDirectories_all P D w baseDir items userDirs :
  (forall item, In item items ->
     exists st, stat D w (pathJoin P [baseDir; item]) = Returned st) ->
  keepDirectories P D w baseDir items userDirs
  = Returned
      (userDirs
       ++ List.filter (fun item =>
                    match stat D w (pathJoin P [baseDir; item]) with
                    | Returned st => isDirectory st
                    | Thrown _ => false
                    end) items).
Proof.
  revert userDirs. induction items as [|item items IH]; intros userDirs Hall.
  - cbn [keepDirectories List.filter]. rewrite app_nil_r. reflexivity.
  - cbn [keepDirectories List.filter].
    destruct (Hall item (or_introl eq_refl)) as [st Hst]. rewrite Hst.
    rewrite IH by (intros i Hi; apply Hall; right; exact Hi).
    destruct (isDirectory st); [rewrite <- app_assoc|]; reflexivity.
Qed.

Lemma keepDirectories_some P D w baseDir items userDirs :
  (exists item cause,
     In item items /\ stat D w (pathJoin P [baseDir; item]) = Thrown cause) ->
  exists cause, keepDirectories P D w baseDir items userDirs = Thrown cause.
Proof.
  revert userDirs. induction items as [|item items IH]; intros userDirs (bad & cause & Hin & Hbad).
  - destruct Hin.
  - cbn [keepDirectories].
    destruct (stat D w (pathJoin P [baseDir; item])) as [st|cause'] eqn:Hst.
    + apply IH. destruct Hin as [->|Hin]; [congruence|]. exists bad, cause. auto.
    + exists cause'. reflexivity.
Qed.

(** X9.  [getAllUserDirectories] lists the entries of the base directory
    that are directories, in the order [readdir] gives them, when every
    entry can be examined.  When the base directory cannot be read, or
    [stat] fails on one entry, the list is empty, whatever the other
    entries are. *)
Theorem getAllUserDirectories_all_or_nothing P D w baseDir :
  (forall cause, readdir D w baseDir = Thrown cause ->
     getAllUserDirectories P D w baseDir = [])
  /\ (forall items, readdir D w baseDir = Returned items ->
        ((forall item, In item items ->
            exists st, stat D w (pathJoin P [baseDir; item]) = Returned st) ->
         getAllUserDirectories P D w baseDir
         = List.filter (fun item =>
                     match stat D w (pathJoin P [baseDir; item]) with
                     | Returned st => isDirectory st
                     | Thrown _ => false
                     end) items)
        /\ ((exists item cause,
               In item items /\ stat D w (pathJoin P [baseDir; item]) = Thrown cause) ->
            getAllUserDirectories P D w baseDir = [])).
Proof.
  unfold getAllUserDirectories. split.
  - intros cause ->. reflexivity.
  - intros items ->. split.
    + intros Hall. rewrite keepDirectories_all by exact Hall. reflexivity.
    + intros Hbad. destruct (keepDirectories_some P D w baseDir items [] Hbad) as [cause ->].
      reflexivity.
Qed.

(** The sum of the sizes of the files listed. *)
Lemma countFiles_totals P D w userDir items stats result :
  totalFiles stats = Z.of_nat (length (stats_files stats)) ->
  totalSize stats = fold_right Z.add 0 (map file_size (stats_files stats)) ->
  Forall (fun f => file_path f = pathJoin P [userDir; file_name f]) (stats_files stats) ->
  countFiles P D w userDir items stats = Returned result ->
  totalFiles result = Z.of_nat (length (stats_files result))
  /\ totalSize result = fold_right Z.add 0 (map file_size (stats_files result))
  /\ Forall (fun f => file_path f = pathJoin P [userDir; file_name f]) (stats_files result)
  /\ exists_ result = exists_ stats
  /\ directoryPath result = directoryPath stats
  /\ stats_username result = stats_username stats.
Proof.
  revert stats. induction items as [|item items IH]; intros stats Hn Hs Hp.
  - cbn [countFiles]. intros [= <-]. auto 10.
  - cbn [countFiles].
    destruct (stat D w (pathJoin P [userDir; item])) as [st|]; [|discriminate].
    destruct (isFile st); [|apply IH; assumption].
    intros Hrun. apply IH in Hrun; cbn [totalFiles totalSize stats_files exists_
                                          directoryPath stats_username] in *.
    + exact Hrun.
    + rewrite length_app, Hn. cbn [length]. lia.
    + rewrite map_app, fold_right_app. cbn [map fold_right file_size].
      rewrite Hs. clear. induction (map file_size (stats_files stats)) as [|x xs IHxs].
      * cbn [fold_right]. lia.
      * cbn [fold_right]. rewrite <- IHxs. lia.
    + apply Forall_app. split; [exact Hp|]. constructor; [reflexivity|constructor].
Qed.

Lemma countFiles_thrown P D w userDir items stats cause :
  countFiles P D w userDir items stats = Thrown cause ->
  exists item c, In item items /\ stat D w (pathJoin P [userDir; item]) = Thrown c.
Proof.
  revert stats. induction items as [|i items IH]; intros stats Hrun; [discriminate|].
  cbn [countFiles] in Hrun.
  destruct (stat D w (pathJoin P [userDir; i])) as [st|c] eqn:Hsti.
  - destruct (IH _ Hrun) as (item & c & Hin & Hst).
    exists item, c. split; [right; exact Hin|exact Hst].
  - exists i, c. split; [left; reflexivity|exact Hsti].
Qed.

Lemma countFiles_returned P D w userDir items stats result item :
  countFiles P D w userDir items stats = Returned result ->
  In item items ->
  exists st, stat D w (pathJoin P [userDir; item]) = Returned st.
Proof.
  revert stats. induction items as [|i items IH]; intros stats Hrun Hin; [destruct Hin|].
  cbn [countFiles] in Hrun.
  destruct (stat D w (pathJoin P [userDir; i])) as [st|] eqn:Hsti; [|discriminate].
  destruct Hin as [->|Hin]; [exists st; exact Hsti|].
  eapply IH; [exact Hrun|exact Hin].
Qed.

(** X10.  In what [getUserDirectoryStats] returns, [totalFiles] is the
    number of files listed and [totalSize] the sum of their sizes; each
    file listed lies in the user directory.  When the directory cannot be
    read, or [stat] fails on one of its entries, the directory is reported
    as missing, with no file. *)
Theorem getUserDirectoryStats_totals P D w baseDir username :
  let stats := getUserDirectoryStats P D w baseDir username in
  stats_username stats = username
  /\ directoryPath stats = getUserDirectory P baseDir username
  /\ totalFiles stats = Z.of_nat (length (stats_files stats))
  /\ totalSize stats = fold_right Z.add 0 (map file_size (stats_files stats))
  /\ Forall (fun f => file_path f = pathJoin P [directoryPath stats; file_name f])
       (stats_files stats)
  /\ (exists_ stats = false -> stats_files stats = [])
  /\ (exists_ stats = false <->
      (exists cause, readdir D w (getUserDirectory P baseDir username) = Thrown cause)
      \/ exists items item cause,
           readdir D w (getUserDirectory P baseDir username) = Returned items
           /\ In item items
           /\ stat D w (pathJoin P [getUserDirectory P baseDir username; item]) = Thrown cause).
Proof.
  cbv zeta. unfold getUserDirectoryStats. cbv zeta.
  set (userDir := getUserDirectory P baseDir username).
  destruct (readdir D w userDir) as [items|cause] eqn:Hread.
  2:{ cbn. repeat split; auto. left. exists cause. reflexivity. }
  set (start := {| stats_username := username; directoryPath := userDir; totalFiles := 0;
                   totalSize := 0; stats_files := []; exists_ := true |}).
  destruct (countFiles P D w userDir items start) as [result|cause] eqn:Hrun.
  - destruct (countFiles_totals P D w userDir items start result) as (Hn & Hs & Hp & He & Hd & Hu);
      try reflexivity; [constructor|exact Hrun|].
    cbn [exists_ directoryPath stats_username start] in He, Hd, Hu.
    rewrite Hd. repeat split; try assumption.
    + rewrite He. discriminate.
    + rewrite He. discriminate.
    + intros [[c Hc]|(items' & item & c & Hi & Hin & Hst)]; [discriminate|].
      exfalso. injection Hi as <-.
      destruct (countFiles_returned P D w userDir items start result item Hrun Hin) as [st Hok].
      congruence.
  - cbn. repeat split; auto. right.
    destruct (countFiles_thrown P D w userDir items start cause Hrun) as (item & c & Hin & Hst).
    exists items, item, c. auto.
Qed.

Lemma getUserDirectoryStats_username P D w baseDir username :
  stats_username (getUserDirectoryStats P D w baseDir username) = username.
Proof.
  unfold getUserDirectoryStats. cbv zeta.
  destruct (readdir D w (getUserDirectory P baseDir username)) as [items|]; [|reflexivity].
  match goal with
  | |- context [countFiles P D w ?dir items ?start] =>
      destruct (countFiles P D w dir items start) as [result|] eqn:Hrun; [|reflexivity];
      destruct (countFiles_totals P D w dir items start result) as (_ & _ & _ & _ & _ & Hu);
      try reflexivity; [constructor|exact Hrun|exact Hu]
  end.
Qed.

Lemma fold_addUser P D w baseDir names summary :
  let result := fold_left (addUser P D w baseDir) names summary in
  totalUsers result = totalUsers summary
  /\ users result
     = users summary ++ map (getUserDirectoryStats P D w baseDir) names
  /\ summary_totalFiles result
     = summary_totalFiles summary
       + fold_right Z.add 0 (map totalFiles (map (getUserDirectoryStats P D w baseDir) names))
  /\ summary_totalSize result
     = summary_totalSize summary
       + fold_right Z.add 0 (map totalSize (map (getUserDirectoryStats P D w baseDir) names)).
Proof.
  revert summary. induction names as [|n names IH]; intros summary; cbv zeta.
  - cbn [fold_left map fold_right]. rewrite app_nil_r. repeat split; lia.
  - cbn [fold_left map fold_right].
    destruct (IH (addUser P D w baseDir summary n)) as (Hu & Hl & Hf & Hs).
    rewrite Hu, Hl, Hf, Hs. cbn [addUser totalUsers users summary_totalFiles summary_totalSize].
    rewrite <- app_assoc. repeat split; lia.
Qed.

(** X11.  In the summary of [createDirectorySummary] there is one entry
    for each directory [getAllUserDirectories] lists, in the same order;
    [totalUsers] is their number, and [totalFiles] and [totalSize] are the
    sums of the entries' own totals. *)
Theorem createDirectorySummary_totals P D w baseDir :
  let summary := createDirectorySummary P D w baseDir in
  map stats_username (users summary) = getAllUserDirectories P D w baseDir
  /\ totalUsers summary = Z.of_nat (length (users summary))
  /\ summary_totalFiles summary = fold_right Z.add 0 (map totalFiles (users summary))
  /\ summary_totalSize summary = fold_right Z.add 0 (map totalSize (users summary)).
Proof.
  cbv zeta. unfold createDirectorySummary. cbv zeta.
  set (names := getAllUserDirectories P D w baseDir).
  destruct (fold_addUser P D w baseDir names
              {| totalUsers := Z.of_nat (length names); summary_totalFiles := 0;
                 summary_totalSize := 0; users := [] |}) as (Hu & Hl & Hf & Hs).
  cbv zeta in Hu, Hl, Hf, Hs.
  cbn [totalUsers users summary_totalFiles summary_totalSize app] in Hu, Hl, Hf, Hs.
  rewrite Hu, Hl, Hf, Hs. split; [|split; [|split]].
  - rewrite map_map. clear. induction names as [|n names IH]; [reflexivity|].
    cbn [map]. rewrite IH. f_equal.
    apply getUserDirectoryStats_username.
  - rewrite length_map. reflexivity.
  - reflexivity.
  - reflexivity.
Qed.

(** ** [cleanupUserDirectory] *)

Lemma cleanupItems_frame P D userDir keepPatterns items w result :
  let run := cleanupItems P D userDir keepPatterns items (w, result) in
  console (fst run) = console w
  /\ (forall path,
        files (fst run) !! path = files w !! path
        \/ (files (fst run) !! path = None
            /\ exists item,
                 In item items /\ path = pathJoin P [userDir; item]
                 /\ shouldKeep keepPatterns item = false))
  /\ filesRemoved result <= filesRemoved (snd run)
     <= filesRemoved result + Z.of_nat (length items)
  /\ (filesRemoved (snd run) = filesRemoved result -> fst run = w)
  /\ cleanup_username (snd run) = cleanup_username result.
Proof.
  revert w result. induction items as [|item items IH]; intros w result; cbv zeta.
  - cbn [cleanupItems fst snd length]. repeat split; auto; lia.
  - cbn [cleanupItems].
    destruct (stat D w (pathJoin P [userDir; item])) as [stats|cause].
    2:{ cbn [fst snd filesRemoved cleanup_username length]. repeat split; auto; lia. }
    destruct (isFile stats && negb (shouldKeep keepPatterns item)) eqn:Hgo.
    + apply andb_prop in Hgo. destruct Hgo as [_ Hkeep].
      apply Bool.negb_true_iff in Hkeep.
      destruct (removeError D w (pathJoin P [userDir; item])) as [cause|];
        cbn [cleanup_username filesRemoved spaceFreed errors].
      * match goal with
        | |- context [cleanupItems P D userDir keepPatterns items (w, ?r)] =>
            destruct (IH w r) as (Hc & Hf & Hn & Hw & Hu)
        end.
        cbn [filesRemoved cleanup_username] in Hn, Hw, Hu.
        split; [exact Hc|]. split; [|split; [|split]].
        -- intros path. destruct (Hf path) as [Hsame|(Hnone & i & Hin & Hp & Hk)];
             [left; exact Hsame|right].
           split; [exact Hnone|]. exists i. split; [right; exact Hin|auto].
        -- cbn [length]. lia.
        -- exact Hw.
        -- exact Hu.
      * match goal with
        | |- context [cleanupItems P D userDir keepPatterns items (?w1, ?r)] =>
            destruct (IH w1 r) as (Hc & Hf & Hn & Hw & Hu)
        end.
        cbn [filesRemoved cleanup_username remove console files] in Hc, Hf, Hn, Hw, Hu.
        split; [exact Hc|]. split; [|split; [|split]].
        -- intros path. destruct (Hf path) as [Hsame|(Hnone & i & Hin & Hp & Hk)].
           ++ destruct (decide (path = pathJoin P [userDir; item])) as [->|Hne].
              ** right. rewrite Hsame, lookup_delete_eq. split; [reflexivity|].
                 exists item. split; [left; reflexivity|auto].
              ** left. rewrite Hsame. apply lookup_delete_ne. congruence.
           ++ right. split; [exact Hnone|]. exists i. split; [right; exact Hin|auto].
        -- cbn [length]. lia.
        -- intros Heq. lia.
        -- exact Hu.
    + destruct (IH w result) as (Hc & Hf & Hn & Hw & Hu).
      split; [exact Hc|]. split; [|split; [|split]].
      * intros path. destruct (Hf path) as [Hsame|(Hnone & i & Hin & Hp & Hk)];
          [left; exact Hsame|right].
        split; [exact Hnone|]. exists i. split; [right; exact Hin|auto].
      * cbn [length]. lia.
      * exact Hw.
      * exact Hu.
Qed.

(** X12.  [cleanupUserDirectory] writes nothing: a file is either left as
    it was or removed, and a file removed is an entry of the user
    directory whose name includes none of the patterns to keep.  It
    removes at most as many files as the directory lists, and when it
    reports no file removed the world is as it was. *)
Theorem cleanupUserDirectory_only_removes P D baseDir username keepPatterns w :
  let run := cleanupUserDirectory P D baseDir username keepPatterns w in
  console (fst run) = console w
  /\ (forall path,
        files (fst run) !! path = files w !! path
        \/ (files (fst run) !! path = None
            /\ exists item,
                 path = pathJoin P [getUserDirectory P baseDir username; item]
                 /\ shouldKeep keepPatterns item = false
                 /\ exists items,
                      readdir D w (getUserDirectory P baseDir username) = Returned items
                      /\ In item items))
  /\ 0 <= filesRemoved (snd run)
  /\ (forall items,
        readdir D w (getUserDirectory P baseDir username) = Returned items ->
        filesRemoved (snd run) <= Z.of_nat (length items))
  /\ (filesRemoved (snd run) = 0 -> fst run = w)
  /\ cleanup_username (snd run) = username.
Proof.
  cbv zeta. unfold cleanupUserDirectory. cbv zeta.
  destruct (readdir D w (getUserDirectory P baseDir username)) as [items|cause] eqn:Hread.
  - match goal with
    | |- context [cleanupItems P D ?dir keepPatterns items (w, ?r)] =>
        destruct (cleanupItems_frame P D dir keepPatterns items w r) as (Hc & Hf & Hn & Hw & Hu)
    end.
    cbv zeta in Hc, Hf, Hn, Hw, Hu. cbn [filesRemoved cleanup_username] in Hn, Hw, Hu.
    split; [exact Hc|]. split; [|split; [|split; [|split]]].
    + intros path. destruct (Hf path) as [Hsame|(Hnone & i & Hin & Hp & Hk)];
        [left; exact Hsame|right].
      split; [exact Hnone|]. exists i. split; [exact Hp|]. split; [exact Hk|].
      exists items. auto.
    + lia.
    + intros items' [= <-]. lia.
    + exact Hw.
    + exact Hu.
  - cbn [fst snd filesRemoved cleanup_username]. repeat split; auto; try lia.
Qed.


(** ** The matcher on the patterns of [TwitterUrlParser] *)

Import Regex TwitterUrlParser UrlShapes.

Lemma filter_all {A} (l : list A) : List.filter (fun _ => true) l = l.
Proof. induction l as [|x l IH]; [reflexivity|]. cbn [List.filter]. rewrite IH. reflexivity. Qed.

Lemma clear_nil st : clear [] st = st.
Proof.
  destruct st as [p r c]. unfold clear. cbn [pos rest caps existsb negb].
  rewrite filter_all. reflexivity.
Qed.

Lemma word_isWord c :
  inRanges false [("a"%char, "z"%char); ("A"%char, "Z"%char); ("0"%char, "9"%char);
                  ("_"%char, "_"%char)] c = isWord c.
Proof.
  destruct c as [[] [] [] [] [] [] [] []]; reflexivity.
Qed.

Lemma digit_is_digit c : inRanges false [("0"%char, "9"%char)] c = is_digit c.
Proof.
  destruct c as [[] [] [] [] [] [] [] []]; reflexivity.
Qed.

Lemma run_word st :
  run false word st
  = match rest st with
    | String d s => if isWord d then [advance st 1 s] else []
    | EmptyString => []
    end.
Proof.
  unfold word. cbn [run]. destruct (rest st) as [|d s]; [reflexivity|].
  rewrite word_isWord. reflexivity.
Qed.


Lemma run_word_stops st : stops (rest st) = true -> run false word st = [].
Proof.
  intros H. rewrite run_word. destruct (rest st) as [|d s]; [reflexivity|].
  cbn [stops] in H. apply Bool.negb_true_iff in H. rewrite H. reflexivity.
Qed.

(** The greedy loop of [[a-zA-Z0-9_]+] and [[a-zA-Z0-9_]*]: its first
    choice reads the whole run of word characters. *)
Lemma repeat_word_first u : forall st turns r,
  rest st = u +:+ r -> allWord u = true -> stops r = true ->
  (String.length u <= turns)%nat ->
  exists found others,
    repeatFrom (fun s => run false word (clear (groups word) s)) turns st = found :: others
    /\ pos found = (pos st + String.length u)%nat
    /\ rest found = r
    /\ caps found = caps st.
Proof.
  induction u as [|c u IH]; intros st turns r Hrest Hu Hr Hlen.
  - rewrite string_app_nil_l in Hrest. exists st, [].
    split; [|cbn [String.length]; repeat split; [lia|exact Hrest]].
    destruct turns as [|turns]; [reflexivity|]. cbn [repeatFrom].
    change (groups word) with (@nil nat). rewrite clear_nil, run_word_stops; [reflexivity|].
    rewrite Hrest. exact Hr.
  - cbn [allWord] in Hu. apply andb_prop in Hu. destruct Hu as [Hc Hu].
    cbn [String.length] in Hlen. destruct turns as [|turns]; [lia|].
    rewrite string_app_cons in Hrest.
    cbn [repeatFrom]. change (groups word) with (@nil nat).
    rewrite clear_nil, run_word, Hrest, Hc. cbn [flat_map].
    assert (Hp : progress st (advance st 1 (u +:+ r)) = true).
    { unfold progress, advance. cbn [pos]. apply Nat.ltb_lt. lia. }
    rewrite Hp.
    destruct (IH (advance st 1 (u +:+ r)) turns r eq_refl Hu Hr ltac:(lia))
      as (found & others & Hrun & Hpos & Hrest' & Hcaps).
    change (groups word) with (@nil nat) in Hrun. rewrite Hrun.
    exists found, ((others ++ []) ++ [st]).
    split; [reflexivity|]. cbn [advance pos caps String.length] in *.
    repeat split; [lia|exact Hrest'|exact Hcaps].
Qed.

Lemma length_app_string a b :
  String.length (a +:+ b) = (String.length a + String.length b)%nat.
Proof.
  induction a as [|c a IH]; [reflexivity|].
  rewrite string_app_cons. cbn [String.length]. rewrite IH. reflexivity.
Qed.

Lemma plus_word_first u st r :
  rest st = u +:+ r -> u <> EmptyString -> allWord u = true -> stops r = true ->
  exists found others,
    run false (Plus word) st = found :: others
    /\ pos found = (pos st + String.length u)%nat
    /\ rest found = r
    /\ caps found = caps st.
Proof.
  intros Hrest Hne Hu Hr. destruct u as [|c u]; [contradiction|].
  cbn [allWord] in Hu. apply andb_prop in Hu. destruct Hu as [Hc Hu].
  rewrite string_app_cons in Hrest.
  cbn [run]. change (groups word) with (@nil nat).
  rewrite clear_nil, run_word, Hrest, Hc. cbn [flat_map].
  destruct (repeat_word_first u (advance st 1 (u +:+ r))
              (String.length (rest (advance st 1 (u +:+ r)))) r eq_refl Hu Hr)
    as (found & others & Hrun & Hpos & Hrest' & Hcaps).
  { cbn [advance rest]. rewrite length_app_string. lia. }
  change (groups word) with (@nil nat) in Hrun. rewrite Hrun.
  exists found, (others ++ []).
  split; [reflexivity|]. cbn [advance pos caps String.length] in *.
  repeat split; [lia|exact Hrest'|exact Hcaps].
Qed.

Lemma run_seq_app l1 l2 st :
  run false (seq (l1 ++ l2)) st = flat_map (run false (seq l2)) (run false (seq l1) st).
Proof.
  revert st. induction l1 as [|r l1 IH]; intros st.
  - cbn [app seq run flat_map]. rewrite app_nil_r. reflexivity.
  - cbn [app seq run].
    induction (run false r st) as [|x xs IHx]; [reflexivity|].
    cbn [flat_map]. rewrite flat_map_app, IH, IHx. reflexivity.
Qed.

(** The name group between what comes before it and what comes after. *)
Lemma name_group_first g post u r st :
  rest st = u +:+ r -> u <> EmptyString -> allWord u = true -> stops r = true ->
  (forall st2, rest st2 = r ->
     exists found others,
       run false (seq post) st2 = found :: others /\ caps found = caps st2) ->
  exists found others,
    run false (seq (Group g (Plus word) :: post)) st = found :: others
    /\ exists more,
         caps found = (g, (pos st, (pos st + String.length u)%nat)) :: more.
Proof.
  intros Hrest Hne Hu Hr Hpost.
  destruct (plus_word_first u st r Hrest Hne Hu Hr)
    as (f1 & o1 & Hrun & Hpos & Hrest1 & Hcaps).
  change (run false (seq (Group g (Plus word) :: post)) st)
    with (flat_map (run false (seq post)) (map (bind g st) (run false (Plus word) st))).
  rewrite Hrun. cbn [map flat_map].
  destruct (Hpost (bind g st f1)) as (f2 & o2 & Hrun2 & Hcaps2); [exact Hrest1|].
  rewrite Hrun2. eexists f2, _. split; [reflexivity|].
  rewrite Hcaps2. cbn [bind caps]. rewrite Hpos. eexists. reflexivity.
Qed.

Lemma post_end st :
  rest st = EmptyString ->
  exists found others, run false (seq [End_]) st = found :: others /\ caps found = caps st.
Proof.
  intros H. exists st, []. cbn [seq run]. rewrite H. cbn [flat_map app]. auto.
Qed.

Lemma post_slash_end slash st :
  rest st = slash -> slash = EmptyString \/ slash = "/"%string ->
  exists found others,
    run false (seq [Opt (Chr "/"); End_]) st = found :: others /\ caps found = caps st.
Proof.
  intros Hrest [->| ->].
  - exists st, []. cbn [seq run groups]. rewrite clear_nil, Hrest.
    cbn [List.filter app flat_map run]. rewrite Hrest. auto.
  - eexists (advance st 1 EmptyString), _. cbn [seq run groups]. rewrite clear_nil, Hrest.
    cbn [canonicalize]. rewrite Ascii.eqb_refl. cbn [List.filter].
    assert (Hp : progress st (advance st 1 EmptyString) = true).
    { unfold progress, advance. cbn [pos]. apply Nat.ltb_lt. lia. }
    rewrite Hp. cbn [app flat_map run advance rest]. split; [reflexivity|reflexivity].
Qed.

Lemma substring_app pre u post :
  String.substring (String.length pre) (String.length u) (pre +:+ u +:+ post) = u.
Proof.
  induction pre as [|c pre IH].
  - rewrite string_app_nil_l. cbn [String.length].
    induction u as [|d u IHu].
    + destruct post; reflexivity.
    + rewrite string_app_cons. cbn [String.length String.substring]. rewrite IHu. reflexivity.
  - rewrite string_app_cons. cbn [String.length String.substring]. exact IH.
Qed.

Lemma last_groups {A} (whole : A) (f : nat -> A) g :
  (1 <= g)%nat -> last (whole :: map f (List.seq 1 g)) = Some (f g).
Proof.
  intros Hg. destruct g as [|g]; [lia|].
  rewrite seq_S, map_app. cbn [map].
  change (whole :: map f (List.seq 1 g) ++ [f (1 + g)%nat])
    with ((whole :: map f (List.seq 1 g)) ++ [f (S g)]).
  apply last_snoc.
Qed.

(** A pattern made of a prefix that reads [pre], the name group and a
    suffix binds the name as its last group. *)
Lemma exec_name p0 g post pre u slash st1 others1 :
  u <> EmptyString -> allWord u = true -> stops slash = true ->
  run false (seq p0) {| pos := 0; rest := pre +:+ u +:+ slash; caps := [] |} = st1 :: others1 ->
  pos st1 = String.length pre -> rest st1 = u +:+ slash ->
  (forall st2, rest st2 = slash ->
     exists found others,
       run false (seq post) st2 = found :: others /\ caps found = caps st2) ->
  groupCount (seq (p0 ++ Group g (Plus word) :: post)) = g -> (1 <= g)%nat ->
  exists groups,
    exec false (seq (p0 ++ Group g (Plus word) :: post)) (pre +:+ u +:+ slash) = Some groups
    /\ last groups = Some (Some u).
Proof.
  intros Hne Hu Hs Hpre Hpos Hrest Hpost Hcount Hg.
  destruct (name_group_first g post u slash st1 Hrest Hne Hu Hs Hpost)
    as (found & others & Hrun & more & Hcaps).
  unfold exec.
  assert (Hsearch : searchFrom false (seq (p0 ++ Group g (Plus word) :: post)) 0
                      (pre +:+ u +:+ slash)
                    = Some (0%nat, found)).
  { destruct (pre +:+ u +:+ slash) eqn:Hinput; cbn [searchFrom];
      rewrite run_seq_app, Hpre; cbn [flat_map]; rewrite Hrun; reflexivity. }
  rewrite Hsearch, Hcount. eexists. split; [reflexivity|].
  rewrite last_groups by exact Hg. f_equal.
  unfold capture. rewrite Hcaps. cbn [List.find fst]. rewrite Nat.eqb_refl.
  rewrite Hpos. replace (String.length pre + String.length u - String.length pre)%nat
    with (String.length u) by lia.
  rewrite substring_app. reflexivity.
Qed.

(** A pattern that starts with [^] only matches from the first byte. *)
Lemma search_later X s : forall start,
  (0 < start)%nat -> searchFrom false (Seq Start X) start s = None.
Proof.
  induction s as [|c s IH]; intros start Hs; cbn [searchFrom run pos];
    destruct start as [|start]; try lia; cbn [Nat.eqb flat_map]; [reflexivity|].
  apply IH. lia.
Qed.

Lemma exec_anchored_none l input :
  run false (seq l) {| pos := 0; rest := input; caps := [] |} = [] ->
  exec false (seq (Start :: l)) input = None.
Proof.
  intros Hrun. unfold exec.
  assert (Hsearch : searchFrom false (seq (Start :: l)) 0 input = None).
  { destruct input as [|c s]; cbn [searchFrom seq run pos Nat.eqb flat_map];
      rewrite Hrun; cbn [app]; [reflexivity|].
    apply (search_later (seq l)). lia. }
  rewrite Hsearch. reflexivity.
Qed.

Lemma exec_anchored_some l input found others :
  run false (seq l) {| pos := 0; rest := input; caps := [] |} = found :: others ->
  exists groups, exec false (seq (Start :: l)) input = Some groups.
Proof.
  intros Hrun. unfold exec.
  assert (Hsearch : searchFrom false (seq (Start :: l)) 0 input = Some (0%nat, found)).
  { destruct input as [|c s]; cbn [searchFrom seq run pos Nat.eqb flat_map];
      rewrite Hrun; reflexivity. }
  rewrite Hsearch. eexists. reflexivity.
Qed.

Lemma isValidUsername_validName u : validName u -> isValidUsername u = true.
Proof.
  intros (Hne & Hlen & Hw & Hd). unfold isValidUsername.
  destruct u as [|c u]; [contradiction|].
  cbn [JsString.truthy negb orb String.length Nat.eqb].
  replace (15 <? S (String.length u))%nat with false
    by (symmetry; apply Nat.ltb_ge; exact Hlen).
  cbv iota.
  assert (Hword : test false (seq [Start; Plus word; End_]) (String c u) = true).
  { unfold test.
    destruct (plus_word_first (String c u)
                {| pos := 0; rest := String c u; caps := [] |} EmptyString)
      as (f & o & Hrun & _ & Hrest & _);
      [cbn [rest]; rewrite string_app_nil_r; reflexivity|discriminate|exact Hw|reflexivity|].
    assert (Hexec : exists groups,
              exec false (seq [Start; Plus word; End_]) (String c u) = Some groups).
    { eapply exec_anchored_some.
      change (run false (seq [Plus word; End_]) {| pos := 0; rest := String c u; caps := [] |})
        with (flat_map (run false (seq [End_]))
                (run false (Plus word) {| pos := 0; rest := String c u; caps := [] |})).
      rewrite Hrun. cbn [flat_map seq run]. rewrite Hrest. cbn [flat_map app].
      reflexivity. }
    destruct Hexec as [groups ->]. reflexivity. }
  rewrite Hword. cbn [negb].
  assert (Hdigit : test false (seq [Start; digit]) (String c u) = false).
  { unfold test. rewrite exec_anchored_none; [reflexivity|].
    unfold digit. cbn [seq run rest]. rewrite digit_is_digit.
    cbn [startsWithDigit] in Hd. rewrite Hd. reflexivity. }
  rewrite Hdigit. reflexivity.
Qed.

Lemma firstUsername_skip s p more :
  exec false p s = None -> firstUsername s (p :: more) = firstUsername s more.
Proof. intros H. cbn [firstUsername]. rewrite H. reflexivity. Qed.

Lemma firstUsername_hit s p more groups u :
  exec false p s = Some groups -> last groups = Some (Some u) -> validName u ->
  firstUsername s (p :: more) = Some u.
Proof.
  intros Hexec Hlast Hvalid. cbn [firstUsername]. rewrite Hexec, Hlast.
  rewrite (isValidUsername_validName u Hvalid).
  destruct Hvalid as (Hne & _). destruct u; [contradiction|reflexivity].
Qed.

(** ** [trim] on a text with no white space at its ends *)

Lemma trimStart_graphic c s :
  graphic c = true -> JsText.trimStart (String c s) = String c s.
Proof.
  intros Hc. cbn [JsText.trimStart].
  assert (H1 : JsText.white1 c = false)
    by (destruct c as [[] [] [] [] [] [] [] []]; try discriminate Hc; reflexivity).
  rewrite H1. destruct s as [|b s]; [reflexivity|].
  assert (H2 : JsText.white2 c b = false)
    by (destruct c as [[] [] [] [] [] [] [] []]; try discriminate Hc; reflexivity).
  rewrite H2. destruct s as [|d s]; [reflexivity|].
  assert (H3 : JsText.white3 c b d = false)
    by (destruct c as [[] [] [] [] [] [] [] []]; try discriminate Hc; reflexivity).
  rewrite H3. reflexivity.
Qed.

Lemma trimStartReversed_graphic c s :
  graphic c = true -> JsText.trimStartReversed (String c s) = String c s.
Proof.
  intros Hc. cbn [JsText.trimStartReversed].
  assert (H1 : JsText.white1 c = false)
    by (destruct c as [[] [] [] [] [] [] [] []]; try discriminate Hc; reflexivity).
  rewrite H1. destruct s as [|b s]; [reflexivity|].
  assert (H2 : JsText.white2 b c = false).
  { unfold JsText.white2.
    destruct c as [[] [] [] [] [] [] [] []]; try discriminate Hc;
      apply Bool.andb_false_r. }
  rewrite H2. destruct s as [|a s]; [reflexivity|].
  assert (H3 : JsText.white3 a b c = false).
  { unfold JsText.white3.
    destruct c as [[] [] [] [] [] [] [] []]; try discriminate Hc;
      cbn [nat_of_ascii]; cbv zeta;
      rewrite ?Bool.andb_false_r, ?Bool.orb_false_r; reflexivity. }
  rewrite H3. reflexivity.
Qed.

Lemma list_ascii_app a b :
  list_ascii_of_string (a +:+ b) = list_ascii_of_string a ++ list_ascii_of_string b.
Proof.
  induction a as [|c a IH]; [reflexivity|].
  rewrite string_app_cons. cbn [list_ascii_of_string app]. rewrite IH. reflexivity.
Qed.

Lemma string_of_list_app a b :
  string_of_list_ascii (a ++ b) = string_of_list_ascii a +:+ string_of_list_ascii b.
Proof.
  induction a as [|c a IH]; [reflexivity|].
  cbn [app string_of_list_ascii]. rewrite IH, string_app_cons. reflexivity.
Qed.

Lemma reverse_snoc s c :
  JsText.reverse (s +:+ String c EmptyString) = String c (JsText.reverse s).
Proof.
  unfold JsText.reverse. rewrite list_ascii_app, rev_app_distr. reflexivity.
Qed.

Lemma reverse_cons c s :
  JsText.reverse (String c s) = JsText.reverse s +:+ String c EmptyString.
Proof.
  unfold JsText.reverse. cbn [list_ascii_of_string rev].
  rewrite string_of_list_app. reflexivity.
Qed.

Lemma reverse_reverse s : JsText.reverse (JsText.reverse s) = s.
Proof.
  unfold JsText.reverse.
  rewrite list_ascii_of_string_of_list_ascii, rev_involutive.
  apply string_of_list_ascii_of_string.
Qed.

(** A text that starts and ends with a graphic character is its own
    [trim]. *)
Lemma trim_graphic c s d :
  graphic c = true -> graphic d = true ->
  (exists s', String c s = s' +:+ String d EmptyString) ->
  JsText.trim (String c s) = String c s.
Proof.
  intros Hc Hd [s' Hs]. unfold JsText.trim, JsText.trimEnd.
  rewrite trimStart_graphic by exact Hc.
  rewrite Hs, reverse_snoc, trimStartReversed_graphic by exact Hd.
  rewrite <- reverse_snoc. apply reverse_reverse.
Qed.

Lemma isWord_graphic c : isWord c = true -> graphic c = true.
Proof. destruct c as [[] [] [] [] [] [] [] []]; intros H; try discriminate H; reflexivity. Qed.

Lemma allWord_last u :
  u <> EmptyString -> allWord u = true ->
  exists u' d, u = u' +:+ String d EmptyString /\ isWord d = true.
Proof.
  induction u as [|c u IH]; intros Hne Hw; [contradiction|].
  cbn [allWord] in Hw. apply andb_prop in Hw. destruct Hw as [Hc Hw].
  destruct u as [|c' u].
  - exists EmptyString, c. split; [reflexivity|exact Hc].
  - destruct (IH ltac:(discriminate) Hw) as (u' & d & Hu & Hd).
    exists (String c u'), d. split; [|exact Hd].
    rewrite string_app_cons, <- Hu. reflexivity.
Qed.

(** The ends of [pre + u + slash]. *)
Lemma trim_shape c pre u slash :
  graphic c = true -> u <> EmptyString -> allWord u = true ->
  slash = EmptyString \/ slash = "/"%string ->
  JsText.trim (String c pre +:+ u +:+ slash) = String c pre +:+ u +:+ slash.
Proof.
  intros Hc Hne Hw Hslash. rewrite string_app_cons.
  destruct Hslash as [->| ->].
  - destruct (allWord_last u Hne Hw) as (u' & d & -> & Hd).
    apply (trim_graphic c _ d Hc (isWord_graphic d Hd)).
    exists (String c pre +:+ u').
    rewrite ?string_app_nil_r, ?string_app_cons, ?string_app_assoc. reflexivity.
  - apply (trim_graphic c _ "/"%char Hc eq_refl).
    exists (String c pre +:+ u).
    rewrite ?string_app_cons, ?string_app_assoc. reflexivity.
Qed.

(** ** What the matcher can read *)

Lemma repeat_word_sound turns : forall st found,
  In found (repeatFrom (fun s => run false word (clear (groups word) s)) turns st) ->
  exists read, rest st = read +:+ rest found /\ allWord read = true.
Proof.
  induction turns as [|turns IH]; intros st found Hin.
  - cbn [repeatFrom] in Hin. destruct Hin as [<-|[]]. exists EmptyString. auto.
  - cbn [repeatFrom] in Hin. apply in_app_or in Hin. destruct Hin as [Hin|[<-|[]]].
    2:{ exists EmptyString. auto. }
    apply in_flat_map in Hin. destruct Hin as (st1 & Hst1 & Hin).
    change (groups word) with (@nil nat) in Hst1. rewrite clear_nil, run_word in Hst1.
    destruct (rest st) as [|d s] eqn:Hrest; [destruct Hst1|].
    destruct (isWord d) eqn:Hd; [|destruct Hst1].
    destruct Hst1 as [<-|[]].
    destruct (progress st (advance st 1 s)); [|destruct Hin].
    destruct (IH _ _ Hin) as (read & Hread & Hw). cbn [advance rest] in Hread.
    exists (String d read). rewrite string_app_cons, Hread. cbn [allWord]. rewrite Hd, Hw. auto.
Qed.

Lemma plus_word_sound st found :
  In found (run false (Plus word) st) ->
  exists read, rest st = read +:+ rest found /\ allWord read = true.
Proof.
  cbn [run]. intros Hin. apply in_flat_map in Hin. destruct Hin as (st1 & Hst1 & Hin).
  change (groups word) with (@nil nat) in Hst1. rewrite clear_nil, run_word in Hst1.
  destruct (rest st) as [|d s] eqn:Hrest; [destruct Hst1|].
  destruct (isWord d) eqn:Hd; [|destruct Hst1].
  destruct Hst1 as [<-|[]].
  destruct (repeat_word_sound _ _ _ Hin) as (read & Hread & Hw). cbn [advance rest] in Hread.
  exists (String d read). rewrite string_app_cons, Hread. cbn [allWord]. rewrite Hd, Hw. auto.
Qed.

Lemma exec_anchored_inv l input groups :
  exec false (seq (Start :: l)) input = Some groups ->
  run false (seq l) {| pos := 0; rest := input; caps := [] |} <> [].
Proof.
  intros Hexec Hrun. rewrite (exec_anchored_none l input Hrun) in Hexec. discriminate.
Qed.

Lemma isValidUsername_sound u : isValidUsername u = true -> validName u.
Proof.
  unfold isValidUsername. intros H.
  destruct (negb (JsString.truthy u) || (String.length u =? 0)%nat
            || (15 <? String.length u)%nat) eqn:H1; [discriminate|].
  destruct (test false (seq [Start; Plus word; End_]) u) eqn:H2; [|discriminate].
  destruct (test false (seq [Start; digit]) u) eqn:H3; [discriminate|].
  clear H. apply Bool.orb_false_iff in H1. destruct H1 as [H1 Hlen].
  apply Bool.orb_false_iff in H1. destruct H1 as [Ht _].
  apply Bool.negb_false_iff in Ht. apply Nat.ltb_ge in Hlen.
  split; [|split; [exact Hlen|split]].
  - intros ->. discriminate.
  - unfold test in H2.
    destruct (exec false (seq [Start; Plus word; End_]) u) as [groups|] eqn:Hexec;
      [|discriminate].
    apply exec_anchored_inv in Hexec.
    destruct (run false (seq [Plus word; End_]) {| pos := 0; rest := u; caps := [] |})
      as [|found others] eqn:Hrun; [contradiction|].
    assert (Hin : In found
                    (flat_map (run false (seq [End_]))
                       (run false (Plus word) {| pos := 0; rest := u; caps := [] |})))
      by (change (In found (run false (seq [Plus word; End_])
                              {| pos := 0; rest := u; caps := [] |}));
          rewrite Hrun; left; reflexivity).
    apply in_flat_map in Hin. destruct Hin as (st1 & Hst1 & Hend).
    destruct (plus_word_sound _ _ Hst1) as (read & Hread & Hw). cbn [rest] in Hread.
    cbn [seq run] in Hend. destruct (rest st1); [|destruct Hend].
    rewrite string_app_nil_r in Hread. subst u. exact Hw.
  - destruct (startsWithDigit u) eqn:Hd; [|reflexivity].
    destruct u as [|c u]; [discriminate|]. cbn [startsWithDigit] in Hd.
    unfold test in H3.
    destruct (exec_anchored_some [digit] (String c u)
                (advance {| pos := 0; rest := String c u; caps := [] |} 1 u) [])
      as [groups Hexec]; [|rewrite Hexec in H3; discriminate].
    unfold digit. cbn [seq run rest]. rewrite digit_is_digit, Hd. reflexivity.
Qed.

Lemma firstUsername_valid s patterns u :
  firstUsername s patterns = Some u -> validName u.
Proof.
  induction patterns as [|p patterns IH]; [discriminate|].
  cbn [firstUsername].
  destruct (exec false p s) as [groups|]; [|exact IH].
  destruct (last groups) as [[username|]|]; try exact IH.
  destruct (JsString.truthy username && isValidUsername username) eqn:Hok; [|exact IH].
  intros [= <-]. apply andb_prop in Hok. apply isValidUsername_sound, Hok.
Qed.

Lemma flat_map_nil {A B} (f : A -> list B) l :
  (forall x, In x l -> f x = []) -> flat_map f l = [].
Proof.
  induction l as [|x l IH]; intros H; [reflexivity|].
  cbn [flat_map]. rewrite (H x (or_introl eq_refl)), IH; [reflexivity|].
  intros y Hy. apply H. right. exact Hy.
Qed.

Lemma run_lit_sound l : forall st found,
  In found (run false (lit l) st) -> rest st = l +:+ rest found.
Proof.
  induction l as [|c l IH]; intros st found Hin.
  - cbn [lit run] in Hin. destruct Hin as [<-|[]]. reflexivity.
  - cbn [lit run] in Hin. apply in_flat_map in Hin. destruct Hin as (st1 & Hst1 & Hin).
    destruct (rest st) as [|d s] eqn:Hrest; [destruct Hst1|].
    cbn [canonicalize] in Hst1. destruct (Ascii.eqb c d) eqn:Hcd; [|destruct Hst1].
    destruct Hst1 as [<-|[]]. apply Ascii.eqb_eq in Hcd. subst d.
    rewrite (IH _ _ Hin) at 1. reflexivity.
Qed.

Lemma allWord_app a b : allWord (a +:+ b) = allWord a && allWord b.
Proof.
  induction a as [|c a IH]; [reflexivity|].
  rewrite string_app_cons. cbn [allWord]. rewrite IH, Bool.andb_assoc. reflexivity.
Qed.

(** A text of word characters has no [://]: none of the patterns that
    start with a scheme matches it. *)
Lemma no_scheme l tail st :
  allWord (rest st) = true ->
  run false (seq (lit "http" :: Opt (Chr "s") :: lit (String ":" l) :: tail)) st = [].
Proof.
  intros Hw.
  change (run false (seq (lit "http" :: Opt (Chr "s") :: lit (String ":" l) :: tail)) st)
    with (flat_map (run false (seq (Opt (Chr "s") :: lit (String ":" l) :: tail)))
            (run false (lit "http") st)).
  apply flat_map_nil. intros st1 Hst1.
  apply run_lit_sound in Hst1. rewrite Hst1, allWord_app in Hw.
  apply andb_prop in Hw. destruct Hw as [_ Hw1].
  change (run false (seq (Opt (Chr "s") :: lit (String ":" l) :: tail)) st1)
    with (flat_map (run false (seq (lit (String ":" l) :: tail)))
            (run false (Opt (Chr "s")) st1)).
  apply flat_map_nil. intros st2 Hst2.
  assert (Hw2 : allWord (rest st2) = true).
  { cbn [run groups] in Hst2. rewrite clear_nil in Hst2.
    apply in_app_or in Hst2. destruct Hst2 as [Hst2|[<-|[]]]; [|exact Hw1].
    apply filter_In in Hst2. destruct Hst2 as [Hst2 _].
    destruct (rest st1) as [|d s]; [destruct Hst2|].
    destruct (Ascii.eqb (canonicalize false "s") (canonicalize false d)); [|destruct Hst2].
    destruct Hst2 as [<-|[]]. cbn [allWord] in Hw1. apply andb_prop in Hw1. apply Hw1. }
  change (run false (seq (lit (String ":" l) :: tail)) st2)
    with (flat_map (run false (seq tail))
            (flat_map (run false (lit l)) (run false (Chr ":") st2))).
  cbn [run]. destruct (rest st2) as [|d s]; [reflexivity|].
  cbn [allWord] in Hw2. apply andb_prop in Hw2. destruct Hw2 as [Hd _].
  cbn [canonicalize].
  destruct (Ascii.eqb ":" d) eqn:Hcd; [|reflexivity].
  apply Ascii.eqb_eq in Hcd. subst d. discriminate Hd.
Qed.

(** ** The URLs [extractUsername] accepts *)

Ltac skip_pattern :=
  rewrite firstUsername_skip by (apply exec_anchored_none; vm_compute; reflexivity).

Ltac hit_pattern p0 g post u slash Hvalid Hslash :=
  match goal with
  | |- firstUsername (?pre +:+ _) _ = _ =>
      let Hne := fresh "Hne" in
      let Hw := fresh "Hw" in
      pose proof (proj1 Hvalid) as Hne;
      pose proof (proj1 (proj2 (proj2 Hvalid))) as Hw;
      let H := fresh "Hexec" in
      assert (H : exists groups,
                exec false (seq (p0 ++ Group g (Plus word) :: post)) (pre +:+ u +:+ slash)
                = Some groups
                /\ last groups = Some (Some u));
      [ eapply (exec_name p0 g post pre u slash);
        [ exact Hne | exact Hw
        | first [reflexivity | destruct Hslash as [->| ->]; reflexivity]
        | vm_compute; reflexivity
        | reflexivity
        | reflexivity
        | first [ intros st2 Hst2; apply (post_slash_end slash st2 Hst2 Hslash)
                | intros st2 Hst2; apply (post_end st2); exact Hst2 ]
        | reflexivity
        | lia ]
      | let groups := fresh "groups" in
        let Hx := fresh "Hx" in
        let Hl := fresh "Hl" in
        destruct H as (groups & Hx & Hl);
        apply (firstUsername_hit _ _ _ groups u Hx Hl Hvalid) ]
  end.

Lemma extractUsername_twitter u pre slash :
  validName u -> slash = EmptyString \/ slash = "/"%string ->
  In pre ["http://twitter.com/"; "https://twitter.com/"; "http://www.twitter.com/";
          "https://www.twitter.com/"]%string ->
  extractUsername (pre +:+ u +:+ slash) = Returned u.
Proof.
  intros Hvalid Hslash Hpre.
  assert (Hfirst : firstUsername (pre +:+ u +:+ slash) TWITTER_URL_PATTERNS = Some u).
  { unfold TWITTER_URL_PATTERNS.
    destruct Hpre as [<-|[<-|[<-|[<-|[]]]]].
    all: hit_pattern [Start; lit "http"; Opt (Chr "s"); lit "://"; Opt (Group 1 (lit "www."));
                      lit "twitter.com/"] 2%nat [Opt (Chr "/"); End_] u slash Hvalid Hslash. }
  unfold extractUsername.
  assert (Htrim : JsText.trim (pre +:+ u +:+ slash) = pre +:+ u +:+ slash).
  { destruct Hvalid as (Hne & _ & Hw & _).
    destruct Hpre as [<-|[<-|[<-|[<-|[]]]]]; apply trim_shape; auto. }
  assert (Htruthy : JsString.truthy (pre +:+ u +:+ slash) = true)
    by (destruct Hpre as [<-|[<-|[<-|[<-|[]]]]]; reflexivity).
  rewrite Htruthy. cbn [negb]. cbv zeta. rewrite Htrim, Hfirst. reflexivity.
Qed.

Lemma extractUsername_x u pre slash :
  validName u -> slash = EmptyString \/ slash = "/"%string ->
  In pre ["http://x.com/"; "https://x.com/"; "http://www.x.com/"; "https://www.x.com/"]%string ->
  extractUsername (pre +:+ u +:+ slash) = Returned u.
Proof.
  intros Hvalid Hslash Hpre.
  assert (Hfirst : firstUsername (pre +:+ u +:+ slash) TWITTER_URL_PATTERNS = Some u).
  { unfold TWITTER_URL_PATTERNS.
    destruct Hpre as [<-|[<-|[<-|[<-|[]]]]].
    all: do 7 skip_pattern.
    all: hit_pattern [Start; lit "http"; Opt (Chr "s"); lit "://"; Opt (Group 1 (lit "www."));
                      lit "x.com/"] 2%nat [Opt (Chr "/"); End_] u slash Hvalid Hslash. }
  unfold extractUsername.
  assert (Htrim : JsText.trim (pre +:+ u +:+ slash) = pre +:+ u +:+ slash).
  { destruct Hvalid as (Hne & _ & Hw & _).
    destruct Hpre as [<-|[<-|[<-|[<-|[]]]]]; apply trim_shape; auto. }
  assert (Htruthy : JsString.truthy (pre +:+ u +:+ slash) = true)
    by (destruct Hpre as [<-|[<-|[<-|[<-|[]]]]]; reflexivity).
  rewrite Htruthy. cbn [negb]. cbv zeta. rewrite Htrim, Hfirst. reflexivity.
Qed.

Lemma extractUsername_mobile u pre slash :
  validName u -> slash = EmptyString \/ slash = "/"%string ->
  In pre ["http://mobile.twitter.com/"; "https://mobile.twitter.com/"]%string ->
  extractUsername (pre +:+ u +:+ slash) = Returned u.
Proof.
  intros Hvalid Hslash Hpre.
  assert (Hfirst : firstUsername (pre +:+ u +:+ slash) TWITTER_URL_PATTERNS = Some u).
  { unfold TWITTER_URL_PATTERNS.
    destruct Hpre as [<-|[<-|[]]].
    all: do 14 skip_pattern.
    all: hit_pattern [Start; lit "http"; Opt (Chr "s"); lit "://mobile.twitter.com/"]
           1%nat [Opt (Chr "/"); End_] u slash Hvalid Hslash. }
  unfold extractUsername.
  assert (Htrim : JsText.trim (pre +:+ u +:+ slash) = pre +:+ u +:+ slash).
  { destruct Hvalid as (Hne & _ & Hw & _).
    destruct Hpre as [<-|[<-|[]]]; apply trim_shape; auto. }
  assert (Htruthy : JsString.truthy (pre +:+ u +:+ slash) = true)
    by (destruct Hpre as [<-|[<-|[]]]; reflexivity).
  rewrite Htruthy. cbn [negb]. cbv zeta. rewrite Htrim, Hfirst. reflexivity.
Qed.

Lemma extractUsername_at u :
  validName u -> extractUsername ("@" +:+ u) = Returned u.
Proof.
  intros Hvalid.
  rewrite <- (string_app_nil_r u) at 1.
  assert (Hslash : EmptyString = EmptyString \/ EmptyString = "/"%string) by (left; reflexivity).
  assert (Hfirst : firstUsername ("@" +:+ u +:+ EmptyString) TWITTER_URL_PATTERNS = Some u).
  { unfold TWITTER_URL_PATTERNS.
    do 16 skip_pattern.
    hit_pattern [Start; Opt (Chr "@")] 1%nat [End_] u EmptyString Hvalid Hslash. }
  unfold extractUsername.
  assert (Htrim : JsText.trim ("@" +:+ u +:+ EmptyString) = "@" +:+ u +:+ EmptyString).
  { destruct Hvalid as (Hne & _ & Hw & _). apply trim_shape; auto. }
  change (JsString.truthy ("@" +:+ u +:+ EmptyString)) with true.
  cbn [negb]. cbv zeta. rewrite Htrim, Hfirst. reflexivity.
Qed.

Lemma extractUsername_bare u :
  validName u -> extractUsername u = Returned u.
Proof.
  intros Hvalid. pose proof Hvalid as (Hne & _ & Hw & _).
  assert (Hw' : allWord (u +:+ EmptyString) = true) by (rewrite string_app_nil_r; exact Hw).
  rewrite <- (string_app_nil_r u) at 1.
  assert (Hfirst : firstUsername (u +:+ EmptyString) TWITTER_URL_PATTERNS = Some u).
  { unfold TWITTER_URL_PATTERNS.
    do 16 (rewrite firstUsername_skip
             by (apply exec_anchored_none; apply no_scheme; exact Hw')).
    assert (Hexec : exists groups,
              exec false (seq ([Start; Opt (Chr "@")] ++ Group 1 (Plus word) :: [End_]))
                (EmptyString +:+ u +:+ EmptyString)
              = Some groups
              /\ last groups = Some (Some u)).
    { eapply (exec_name [Start; Opt (Chr "@")] 1%nat [End_] EmptyString u EmptyString
                {| pos := 0; rest := u +:+ EmptyString; caps := [] |} []);
        try reflexivity; try assumption; try lia; [|intros st2 Hst2; apply post_end, Hst2].
      destruct u as [|c u0]; [contradiction|].
      cbn [allWord] in Hw. apply andb_prop in Hw. destruct Hw as [Hc _].
      rewrite string_app_nil_l, string_app_cons.
      cbn [seq run pos Nat.eqb flat_map groups]. rewrite clear_nil. cbn [rest canonicalize].
      destruct (Ascii.eqb "@" c) eqn:Hat; [|reflexivity].
      apply Ascii.eqb_eq in Hat. subst c. discriminate Hc. }
    destruct Hexec as (groups & Hx & Hl).
    apply (firstUsername_hit _ _ _ groups u Hx Hl Hvalid). }
  unfold extractUsername.
  assert (Htrim : JsText.trim (u +:+ EmptyString) = u +:+ EmptyString).
  { rewrite string_app_nil_r.
    destruct (allWord_last u Hne Hw) as (u' & d & Hu & Hd).
    destruct u as [|c u0]; [contradiction|].
    cbn [allWord] in Hw. apply andb_prop in Hw. destruct Hw as [Hc _].
    apply (trim_graphic c u0 d (isWord_graphic c Hc) (isWord_graphic d Hd)).
    exists u'. exact Hu. }
  assert (Htruthy : JsString.truthy (u +:+ EmptyString) = true)
    by (rewrite string_app_nil_r; destruct u; [contradiction|reflexivity]).
  rewrite Htruthy. cbn [negb]. cbv zeta. rewrite Htrim, Hfirst. reflexivity.
Qed.

Lemma extractUsername_valid url u : extractUsername url = Returned u -> validName u.
Proof.
  unfold extractUsername. destruct (negb (JsString.truthy url)); [discriminate|].
  cbv zeta.
  destruct (firstUsername (JsText.trim url) TWITTER_URL_PATTERNS) as [name|] eqn:Hfirst;
    [|discriminate].
  intros [= <-]. eapply firstUsername_valid, Hfirst.
Qed.

(** X15.  A name [extractUsername] returns has 1 to 15 characters, all of
    them ASCII letters, digits or underscores, the first not a digit.
    When it throws, the message is the one for an empty argument, or the
    one that quotes the argument as it was given. *)
Theorem extractUsername_names url :
  (forall u, extractUsername url = Returned u -> validName u)
  /\ (forall message, extractUsername url = Thrown message ->
        (url = EmptyString /\ message = "Invalid URL: URL must be a non-empty string")
        \/ message = "Invalid Twitter URL: Could not extract username from "
                     +:+ String JsString.dquote (url +:+ String JsString.dquote EmptyString)).
Proof.
  split; [intros u; apply extractUsername_valid|].
  unfold extractUsername. destruct url as [|c url].
  - intros message [= <-]. left. split; reflexivity.
  - cbn [JsString.truthy negb]. cbv zeta.
    destruct (firstUsername (JsText.trim (String c url)) TWITTER_URL_PATTERNS);
      [discriminate|].
    intros message [= <-]. right. reflexivity.
Qed.

(** X16.  For a name [u] that follows the rules, [extractUsername]
    returns [u] from [u] itself, from [@u], and from the profile URLs of
    [twitter.com], [x.com] and [mobile.twitter.com], with [http] or
    [https], with or without [www.] where the pattern has it, and with or
    without a closing slash. *)
Theorem extractUsername_accepts u :
  validName u ->
  extractUsername u = Returned u
  /\ extractUsername ("@" +:+ u) = Returned u
  /\ forall pre slash,
       In pre ["http://twitter.com/"; "https://twitter.com/"; "http://www.twitter.com/";
               "https://www.twitter.com/"; "http://x.com/"; "https://x.com/";
               "http://www.x.com/"; "https://www.x.com/"; "http://mobile.twitter.com/";
               "https://mobile.twitter.com/"]%string ->
       In slash [EmptyString; "/"%string] ->
       extractUsername (pre +:+ u +:+ slash) = Returned u.
Proof.
  intros Hvalid. split; [apply extractUsername_bare, Hvalid|].
  split; [apply extractUsername_at, Hvalid|].
  intros pre slash Hpre Hslash.
  assert (Hs : slash = EmptyString \/ slash = "/"%string).
  { destruct Hslash as [<-|[<-|[]]]; auto. }
  destruct Hpre as [<-|[<-|[<-|[<-|Hpre]]]];
    try (apply extractUsername_twitter; [exact Hvalid|exact Hs|cbn [In]; tauto]).
  destruct Hpre as [<-|[<-|[<-|[<-|Hpre]]]];
    try (apply extractUsername_x; [exact Hvalid|exact Hs|cbn [In]; tauto]).
  destruct Hpre as [<-|[<-|[]]];
    apply extractUsername_mobile; try exact Hvalid; try exact Hs; cbn [In]; tauto.
Qed.

(** The theorem for the name [jack]. *)
Lemma extractUsername_accepts_witness :
  extractUsername "https://www.x.com/jack/" = Returned "jack"%string.
Proof.
  refine (proj2 (proj2 (extractUsername_accepts "jack" _)) "https://www.x.com/" "/"%string _ _).
  - repeat split; [discriminate|cbn [String.length]; lia].
  - cbn [In]. tauto.
  - cbn [In]. tauto.
Defined.

(** X17.  What [normalizeUrl] returns is [https://twitter.com/] followed
    by the name [extractUsername] reads from the argument; it is accepted
    by [isValidTwitterUrl], the same name is read back from it, and
    [normalizeUrl] leaves it as it is. *)
Theorem normalizeUrl_normal url n :
  normalizeUrl url = Returned n ->
  (exists u, extractUsername url = Returned u
             /\ n = "https://twitter.com/" +:+ u
             /\ extractUsername n = Returned u)
  /\ isValidTwitterUrl n = true
  /\ normalizeUrl n = Returned n.
Proof.
  unfold normalizeUrl, isValidTwitterUrl.
  destruct (extractUsername url) as [u|] eqn:Hu; [|discriminate].
  intros [= <-].
  assert (Hn : extractUsername ("https://twitter.com/" +:+ u) = Returned u).
  { rewrite <- (string_app_nil_r u) at 1.
    apply extractUsername_twitter; [eapply extractUsername_valid, Hu|auto|cbn [In]; tauto]. }
  rewrite Hn. split; [exists u; auto|]. split; reflexivity.
Qed.

(** The theorem for [@jack]. *)
Lemma normalizeUrl_normal_witness :
  normalizeUrl "https://twitter.com/jack" = Returned "https://twitter.com/jack"%string.
Proof.
  exact (proj2 (proj2 (normalizeUrl_normal "@jack" "https://twitter.com/jack" eq_refl))).
Defined.

(** ** The avatar the downloader saves and the avatar the loader looks for *)

Import AssetDownloader.




Import Extensions.
(** ** The extension of a downloaded file *)

Lemma ascii_cases (Q : ascii -> bool) :
  forallb (fun n => Q (ascii_of_nat n)) (List.seq 0 256) = true -> forall c, Q c = true.
Proof.
  intros H c. rewrite forallb_forall in H.
  rewrite <- (ascii_nat_embedding c). apply H, in_seq.
  pose proof (nat_ascii_bounded c). lia.
Qed.

(** Two characters the [i] flag identifies have the same lower case. *)
Lemma canonical_lower c d :
  canonicalize true c = canonicalize true d -> JsText.lower_ascii c = JsText.lower_ascii d.
Proof.
  intros H.
  assert (Hall : forall c d,
            implb (Ascii.eqb (canonicalize true c) (canonicalize true d))
              (Ascii.eqb (JsText.lower_ascii c) (JsText.lower_ascii d)) = true).
  { intros c0. apply (ascii_cases (fun d0 => implb (Ascii.eqb (canonicalize true c0) (canonicalize true d0))
              (Ascii.eqb (JsText.lower_ascii c0) (JsText.lower_ascii d0)))).
    revert c0.
    apply (ascii_cases (fun c0 => forallb
      (fun n => implb (Ascii.eqb (canonicalize true c0) (canonicalize true (ascii_of_nat n)))
              (Ascii.eqb (JsText.lower_ascii c0) (JsText.lower_ascii (ascii_of_nat n))))
      (List.seq 0 256))).
    vm_compute. reflexivity. }
  specialize (Hall c d). rewrite H, Ascii.eqb_refl in Hall. cbn [implb] in Hall.
  apply Ascii.eqb_eq, Hall.
Qed.

(** What a literal reads under the [i] flag. *)
Lemma run_lit_ignoreCase l : forall st found,
  In found (run true (lit l) st) ->
  exists read,
    rest st = read +:+ rest found
    /\ pos found = (pos st + String.length read)%nat
    /\ caps found = caps st
    /\ JsText.toLowerCase read = JsText.toLowerCase l.
Proof.
  induction l as [|c l IH]; intros st found Hin.
  - cbn [lit run] in Hin. destruct Hin as [<-|[]]. exists EmptyString.
    cbn [String.length]. repeat split. lia.
  - cbn [lit run] in Hin. apply in_flat_map in Hin. destruct Hin as (st1 & Hst1 & Hin).
    destruct (rest st) as [|d s] eqn:Hrest; [destruct Hst1|].
    destruct (Ascii.eqb (canonicalize true c) (canonicalize true d)) eqn:Hcd; [|destruct Hst1].
    destruct Hst1 as [<-|[]]. apply Ascii.eqb_eq in Hcd.
    destruct (IH _ _ Hin) as (read & Hread & Hpos & Hcaps & Hlow).
    cbn [advance rest pos caps] in Hread, Hpos, Hcaps.
    exists (String d read). rewrite string_app_cons, Hread. cbn [String.length JsText.toLowerCase].
    rewrite Hlow, (canonical_lower c d Hcd). repeat split; [lia|exact Hcaps].
Qed.

(** Where a search ends: at a state the pattern reaches from some
    position of the text. *)
Lemma searchFrom_found ignoreCase r s : forall start here found,
  searchFrom ignoreCase r start s = Some (here, found) ->
  exists pre tail,
    s = pre +:+ tail /\ here = (start + String.length pre)%nat
    /\ In found (run ignoreCase r {| pos := here; rest := tail; caps := [] |}).
Proof.
  induction s as [|c s IH]; intros start here found Hs; cbn [searchFrom] in Hs.
  - destruct (run _ _ _) as [|st l] eqn:Hrun; [discriminate|]. injection Hs as <- <-.
    exists EmptyString, EmptyString. cbn [String.length]. rewrite Nat.add_0_r, Hrun.
    repeat split. left. reflexivity.
  - destruct (run _ _ _) as [|st l] eqn:Hrun.
    + destruct (IH _ _ _ Hs) as (pre & tail & -> & -> & Hin).
      exists (String c pre), tail. rewrite string_app_cons. cbn [String.length].
      repeat split; [lia|exact Hin].
    + injection Hs as <- <-. exists EmptyString, (String c s).
      cbn [String.length]. rewrite Nat.add_0_r, Hrun, string_app_nil_l.
      repeat split. left. reflexivity.
Qed.

Lemma extension_read pre tail found :
  In found (run true extensionPattern {| pos := String.length pre; rest := tail; caps := [] |}) ->
  exists read,
    capture (pre +:+ tail) found 1 = Some read
    /\ In (JsText.toLowerCase read) imageExtensions.
Proof.
  intros Hin. unfold extensionPattern in Hin. cbn [seq] in Hin. cbn [run] in Hin.
  apply in_flat_map in Hin. destruct Hin as (st1 & Hdot & Hin).
  apply in_flat_map in Hin. destruct Hin as (st2 & Hname & Hin).
  apply in_flat_map in Hin. destruct Hin as (st3 & Hend & Hin).
  destruct Hin as [<-|[]].
  cbn [rest] in Hdot. destruct tail as [|d tail]; [destruct Hdot|].
  destruct (Ascii.eqb _ _); [|destruct Hdot]. destruct Hdot as [<-|[]].
  apply in_map_iff in Hname. destruct Hname as (st2' & <- & Hname).
  assert (Hread : exists read,
            tail = read +:+ rest st2'
            /\ pos st2' = (String.length pre + 1 + String.length read)%nat
            /\ caps st2' = []
            /\ In (JsText.toLowerCase read) imageExtensions).
  { rewrite !in_app_iff in Hname.
    assert (Hlit : exists l, In l imageExtensions
                             /\ In st2' (run true (lit l)
                                  (advance {| pos := String.length pre; rest := String d tail; caps := [] |} 1 tail))).
    { unfold imageExtensions. cbn [In].
      destruct Hname as [H|[H|[H|[H|[H|H]]]]]; eexists; (split; [|exact H]); auto 10. }
    destruct Hlit as (l & Hl & Hrun).
    destruct (run_lit_ignoreCase _ _ _ Hrun) as (read & Hrest & Hpos & Hcaps & Hlow).
    exists read. cbn [advance rest pos caps] in Hrest, Hpos, Hcaps.
    repeat split; try assumption.
    rewrite Hlow. revert Hl. unfold imageExtensions. cbn [In].
    intros [<-|[<-|[<-|[<-|[<-|[<-|[]]]]]]]; cbn; auto 10. }
  destruct Hread as (read & -> & Hpos & Hcaps & Hlow).
  exists read. split; [|exact Hlow].
  apply in_map_iff in Hend. destruct Hend as (st3' & <- & Hend).
  assert (Hc : caps st3' = (1%nat, (String.length pre + 1, pos st2')%nat) :: caps st2').
  { apply in_app_iff in Hend. cbn [bind rest pos caps advance] in Hend.
    destruct Hend as [Hend|Hend].
    - destruct (rest st2') as [|e s]; [destruct Hend|].
      destruct (Ascii.eqb _ _); [|destruct Hend]. destruct Hend as [<-|[]]. reflexivity.
    - destruct (rest st2'); [|destruct Hend]. destruct Hend as [<-|[]]. reflexivity. }
  unfold capture. cbn [bind caps List.find fst Nat.eqb]. rewrite Hc. cbn [List.find fst Nat.eqb].
  rewrite Hpos. f_equal.
  replace (String.length pre + 1 + String.length read - (String.length pre + 1))%nat
    with (String.length read) by lia.
  pose proof (substring_app (pre +:+ String d EmptyString) read (rest st2')) as Hsub.
  rewrite length_app_string in Hsub. cbn [String.length] in Hsub.
  rewrite string_app_assoc, string_app_cons, string_app_nil_l in Hsub.
  exact Hsub.
Qed.

Lemma getExtensionFromUrl_known url extension :
  getExtensionFromUrl url = Some extension ->
  In extension (map (fun name => "." +:+ name) imageExtensions).
Proof.
  unfold getExtensionFromUrl, exec.
  destruct (searchFrom true extensionPattern 0 url) as [[start found]|] eqn:Hs; [|discriminate].
  destruct (searchFrom_found _ _ _ _ _ _ Hs) as (pre & tail & -> & -> & Hin).
  destruct (extension_read pre tail found Hin) as (read & Hcap & Hlow).
  change (groupCount extensionPattern) with 2%nat.
  cbn [List.seq map lookup list_lookup]. rewrite Hcap. intros [= <-].
  apply in_map_iff. exists (JsText.toLowerCase read). split; [reflexivity|exact Hlow].
Qed.

Lemma property_in key entries value :
  property key entries = Some value -> In (key, value) entries.
Proof.
  induction entries as [|[k v] entries IH]; cbn [property]; [discriminate|].
  destruct (String.eqb k key) eqn:Hk.
  - apply String.eqb_eq in Hk. intros [= <-]. subst k. left. reflexivity.
  - intros Hp. right. exact (IH Hp).
Qed.

(** Where the extension comes from. *)
Lemma chooseExtension_from contentType url :
  (exists value,
     contentType = Some value
     /\ In (JsText.toLowerCase value, chooseExtension contentType url) (typeMap ++ inherited))
  \/ getExtensionFromUrl url = Some (chooseExtension contentType url)
  \/ chooseExtension contentType url = ".jpg"%string.
Proof.
  unfold chooseExtension, getExtensionFromContentType.
  destruct contentType as [value|].
  - destruct (property _ _) as [extension|] eqn:Hp.
    + left. exists value. split; [reflexivity|]. exact (property_in _ _ _ Hp).
    + right. destruct (getExtensionFromUrl url); auto.
  - right. destruct (getExtensionFromUrl url); auto.
Qed.

Lemma typeMap_extensions key extension :
  In (key, extension) typeMap ->
  In extension (map (fun name => "." +:+ name) imageExtensions).
Proof.
  unfold typeMap, imageExtensions. cbn [In map].
  intros Hp. repeat (destruct Hp as [Hp|Hp]; [injection Hp as _ <-; cbn; auto 10|]).
  destruct Hp.
Qed.


(** X19.  The extension [downloadImage] gives a file is [.jpg], [.jpeg],
    [.png], [.gif], [.webp] or [.svg], whatever the content type and the
    URL are -- unless the content type is, in lower case, [constructor] or
    [__proto__]: then the extension is the text of that inherited property
    of [typeMap]. *)
Theorem chooseExtension_known contentType url :
  let extension := chooseExtension contentType url in
  In extension (map (fun name => "." +:+ name) imageExtensions)
  \/ exists value,
       contentType = Some value
       /\ In (JsText.toLowerCase value, extension) inherited.
Proof.
  cbv zeta.
  destruct (chooseExtension_from contentType url) as [(value & Hct & Hin)|[Hu|Hj]].
  - apply in_app_iff in Hin. destruct Hin as [Hin|Hin].
    + left. exact (typeMap_extensions _ _ Hin).
    + right. exists value. split; [exact Hct|exact Hin].
  - left. exact (getExtensionFromUrl_known _ _ Hu).
  - left. rewrite Hj. cbn. auto.
Qed.



